(** * xrift-code-security: the signal detector, the risk scorer, the verdict
      mapper and the context-sensitive severity adjuster

    A shallow embedding of the type declarations, of [utils/helpers.ts],
    [scoring.ts], [utils/file-context.ts], [analyzer.ts] and [index.ts],
    followed by the properties of the specification.

    Conventions.
    - A JavaScript string is a [string]; one character stands for one UTF-16
      code unit, which is exact for ASCII text.
    - A JavaScript [number] that is only ever compared is a [number] below;
      integer scores are [Z].
    - A thrown exception is [None]. *)

From Stdlib Require Import String Ascii List Bool ZArith QArith Lia.
From Stdlib Require Import Permutation Btauto.
Import ListNotations.

Local Open Scope string_scope.
Local Open Scope list_scope.

(** ** JavaScript strings *)

Module JsString.

(** [s.startsWith(p)] *)
Fixpoint startsWith (s p : string) : bool :=
  match p with
  | EmptyString => true
  | String c p' =>
      match s with
      | EmptyString => false
      | String d s' => Ascii.eqb c d && startsWith s' p'
      end
  end.

(** [s.includes(p)] *)
Fixpoint includes (s p : string) : bool :=
  startsWith s p ||
  match s with
  | EmptyString => false
  | String _ s' => includes s' p
  end.

Definition rev (s : string) : string :=
  string_of_list_ascii (List.rev (list_ascii_of_string s)).

(** [s.endsWith(p)] *)
Definition endsWith (s p : string) : bool := startsWith (rev s) (rev p).

(** [s.split(sep)] for a one-character separator: never empty. *)
Fixpoint split (sep : ascii) (s : string) : list string :=
  match s with
  | EmptyString => [EmptyString]
  | String c s' =>
      if Ascii.eqb c sep then EmptyString :: split sep s'
      else match split sep s' with
           | [] => [String c EmptyString]
           | seg :: segs => String c seg :: segs
           end
  end.

(** [a.pop()] as an expression: the last element, if any. *)
Definition pop (a : list string) : option string := List.last (map Some a) None.

Definition is_upper (c : ascii) : bool :=
  ((65 <=? nat_of_ascii c) && (nat_of_ascii c <=? 90))%nat.
Definition is_lower (c : ascii) : bool :=
  ((97 <=? nat_of_ascii c) && (nat_of_ascii c <=? 122))%nat.
Definition is_digit (c : ascii) : bool :=
  ((48 <=? nat_of_ascii c) && (nat_of_ascii c <=? 57))%nat.
(** the class [[0-9a-fA-F]] *)
Definition is_hex (c : ascii) : bool :=
  is_digit c
  || ((97 <=? nat_of_ascii c) && (nat_of_ascii c <=? 102))%nat
  || ((65 <=? nat_of_ascii c) && (nat_of_ascii c <=? 70))%nat.
(** the class [[a-zA-Z0-9_$]] *)
Definition is_word (c : ascii) : bool :=
  is_lower c || is_upper c || is_digit c
  || Ascii.eqb c "_" || Ascii.eqb c "$".

(** [s.toLowerCase()] on the ASCII letters; no other code unit lower-cases
    to a letter of [script] or [iframe], the only use made of it. *)
Definition lower (c : ascii) : ascii :=
  if is_upper c then ascii_of_nat (nat_of_ascii c + 32) else c.
Fixpoint toLowerCase (s : string) : string :=
  match s with
  | EmptyString => EmptyString
  | String c s' => String (lower c) (toLowerCase s')
  end.

(** [a.join(sep)] *)
Fixpoint join (sep : string) (a : list string) : string :=
  match a with
  | [] => EmptyString
  | [x] => x
  | x :: rest => x ++ sep ++ join sep rest
  end.

(** [a.includes(x)] on an array of strings *)
Definition mem (x : string) (a : list string) : bool :=
  existsb (String.eqb x) a.

End JsString.

(** ** JavaScript numbers, as far as they are compared

    A double is a rational, an infinity or NaN.  Comparison is exact on this
    representation; the arithmetic of doubles is not modelled and enters
    through [Platform] below. *)

Inductive number : Type :=
| NaN
| NegInfinity
| Finite (q : Q)
| Infinity.

(** [a > b] *)
Definition number_gt (a b : number) : bool :=
  match a, b with
  | NaN, _ | _, NaN => false
  | Infinity, Infinity => false
  | Infinity, _ => true
  | _, Infinity => false
  | NegInfinity, _ => false
  | Finite _, NegInfinity => true
  | Finite x, Finite y => negb (Qle_bool x y)
  end.

Definition number_of_nat (n : nat) : number := Finite (inject_Z (Z.of_nat n)).

(** ** The type declarations ([types.ts])

    Three fields are renamed, their names being taken: [code] of a location
    is [code_snippet], [critical] of the violations of a response is
    [critical_bucket], [entropy] of its analysis is [analysis_entropy]. *)

Inductive Severity : Type := critical | warning.

Definition Severity_eqb (a b : Severity) : bool :=
  match a, b with
  | critical, critical | warning, warning => true
  | _, _ => false
  end.

Record Location : Type := {
  line : nat;
  column : nat;
  code_snippet : string
}.

Record Violation : Type := {
  rule : string;
  severity : Severity;
  message : string;
  location : option Location
}.

Record SecuritySignals : Type := {
  hasEval : bool;
  hasDynamicCodeExecution : bool;
  hasNetworkAPI : bool;
  hasNetworkWithoutPermission : bool;
  hasDynamicURLConstruction : bool;
  hasObfuscatedCode : bool;
  hasGlobalVariableOverride : bool;
  hasStorageAccess : bool;
  hasNavigatorAccess : bool;
  hasDangerousDOMManipulation : bool;
  entropy : number;
  suspiciousVariableNames : bool;
  importedPackages : list string;
  referencedDomains : list string;
  detectedViolations : list Violation
}.

Record NetworkPermissions : Type := { allowedDomains : list string }.

Record CodePermissions : Type := { network : option NetworkPermissions }.

Record FileContext : Type := {
  filePath : string;
  isUserCode : bool;
  isSharedLibrary : bool;
  isBundledDependency : bool
}.

Record PackageJson : Type := { dependencies : list (string * string) }.

Record ManifestConfig : Type := { permissions : option CodePermissions }.

Record ValidateCodeRequest : Type := {
  code : string;
  sourceMap : option string;
  packageJson : PackageJson;
  manifestConfig : option ManifestConfig;
  fileContext : option FileContext
}.

Record Violations : Type := {
  critical_bucket : list Violation;
  warnings : list Violation
}.

Record Analysis : Type := {
  analysis_entropy : number;
  suspiciousPatterns : list string;
  detectedAPIs : list string;
  externalDependencies : list string
}.

Record ValidateCodeResponse : Type := {
  valid : bool;
  securityScore : Z;
  violations : Violations;
  analysis : Analysis
}.

(** ** [utils/helpers.ts]: the constant tables *)

Definition ALLOWED_PACKAGES : list string :=
  [ "react"; "react-dom"; "three"; "@react-three/fiber";
    "@react-three/rapier"; "@react-three/drei"; "@xrift/world-sdk" ].

Definition ALLOWED_DOMAINS : list string :=
  [ "cdn.jsdelivr.net"; "unpkg.com"; "esm.sh" ].

(** [ENTROPY_THRESHOLD = 7.0], declared alike in the three modules *)
Definition ENTROPY_THRESHOLD : number := Finite 7.

(** ** [scoring.ts] *)

Module Scoring.

(** The eight tests that return 100 at once, in the order of the source. *)
Definition critical_signal (signals : SecuritySignals) : bool :=
  hasEval signals
  || hasDynamicCodeExecution signals
  || hasNetworkWithoutPermission signals
  || hasGlobalVariableOverride signals
  || hasStorageAccess signals
  || hasNavigatorAccess signals
  || hasDangerousDOMManipulation signals
  || hasObfuscatedCode signals.

(** [importedPackages.filter(pkg => !ALLOWED_PACKAGES.some(allowed =>
    pkg.startsWith(allowed)))] *)
Definition unknownPackages (signals : SecuritySignals) : list string :=
  filter
    (fun pkg =>
       negb (existsb (fun allowed => JsString.startsWith pkg allowed)
                     ALLOWED_PACKAGES))
    (importedPackages signals).

Definition calculateSecurityScore (signals : SecuritySignals) : Z :=
  let score := 0%Z in
  if hasEval signals then 100%Z else
  if hasDynamicCodeExecution signals then 100%Z else
  if hasNetworkWithoutPermission signals then 100%Z else
  if hasGlobalVariableOverride signals then 100%Z else
  if hasStorageAccess signals then 100%Z else
  if hasNavigatorAccess signals then 100%Z else
  if hasDangerousDOMManipulation signals then 100%Z else
  if hasObfuscatedCode signals then 100%Z else
  let score :=
    if hasDynamicURLConstruction signals && hasNetworkAPI signals
    then (score + 40)%Z else score in
  let score :=
    if number_gt (entropy signals) ENTROPY_THRESHOLD
    then (score + 15)%Z else score in
  let score :=
    if suspiciousVariableNames signals then (score + 10)%Z else score in
  let score :=
    (score + Z.of_nat (length (unknownPackages signals)) * 20)%Z in
  let score :=
    (score + Z.of_nat (length (referencedDomains signals)) * 25)%Z in
  Z.min score 100.

Inductive Verdict : Type := REJECT | REVIEW | APPROVE.

Definition getSecurityVerdict (score : Z) : Verdict :=
  if (score >=? 70)%Z then REJECT
  else if (score >=? 50)%Z then REVIEW
  else APPROVE.

End Scoring.

(** ** [utils/file-context.ts] *)

Module FileContexts.

Definition USER_CODE_MARKER : string := "__federation_expose_World-".
Definition SHARED_MARKER : string := "__federation_shared_".
Definition FN_IMPORT_MARKER : string := "__federation_fn_import".
Definition REMOTE_ENTRY : string := "remoteEntry.js".

(** [filePath.split('/').pop() || filePath]: the empty string is falsy. *)
Definition lastSegment (path : string) : string :=
  match JsString.pop (JsString.split "/" path) with
  | Some EmptyString | None => path
  | Some seg => seg
  end.

Definition determineFileContext (path : string) : FileContext :=
  let fileName := lastSegment path in
  let isUserCode :=
    JsString.includes fileName USER_CODE_MARKER
    && JsString.endsWith fileName ".js" in
  let isSharedLibrary :=
    JsString.startsWith fileName SHARED_MARKER
    || JsString.includes path SHARED_MARKER in
  let isBundledDependency :=
    negb isUserCode
    && negb isSharedLibrary
    && negb (JsString.includes fileName FN_IMPORT_MARKER)
    && negb (String.eqb fileName REMOTE_ENTRY) in
  {| filePath := fileName;
     isUserCode := isUserCode;
     isSharedLibrary := isSharedLibrary;
     isBundledDependency := isBundledDependency |}.

Definition technicalViolations : list string :=
  [ "no-obfuscation"; "no-dangerous-dom"; "no-navigator-access";
    "no-prototype-pollution"; "no-global-override";
    "no-network-without-permission" ].

Definition criticalViolations : list string :=
  [ "no-eval"; "no-storage-access"; "no-storage-event" ].

Definition adjustViolationSeverity
    (rule : string) (originalSeverity : Severity) (context : FileContext)
  : Severity :=
  if isUserCode context then originalSeverity else
  let fileName := filePath context in
  if JsString.includes fileName FN_IMPORT_MARKER then originalSeverity else
  let isRemoteEntry := String.eqb fileName REMOTE_ENTRY in
  if isSharedLibrary context || isBundledDependency context || isRemoteEntry
  then
    if JsString.mem rule technicalViolations then warning
    else if JsString.mem rule criticalViolations then critical
    else originalSeverity
  else originalSeverity.

End FileContexts.

(** ** The syntax tree of the parser, and the tree walk

    [acorn] and [acorn-walk] are external.  A tree has one constructor for
    each node type a visitor of the detector inspects, and [OtherNode] for
    every other type, with the children the base walker descends into and
    the way it does ([c(child, st, "Pattern")] or any other way). *)

Record Position : Type := { start_line : nat; start_column : nat }.

Inductive LiteralValue : Type :=
| StringValue (s : string)
| OtherValue.

Inductive Descent : Type := AsExpression | AsPattern.

Local Unset Elimination Schemes.

Inductive Node : Type :=
| Identifier (loc : option Position) (name : string)
| Literal (loc : option Position) (value : LiteralValue)
| MemberExpression (loc : option Position) (object property : Node)
                   (computed : bool)
| CallExpression (loc : option Position) (callee : Node)
                 (arguments : list Node)
| AssignmentExpression (loc : option Position) (left right : Node)
| ImportDeclaration (loc : option Position)
                    (source_loc : option Position) (source : string)
| OtherNode (loc : option Position) (children : list (Descent * Node)).

Local Set Elimination Schemes.

Definition node_loc (node : Node) : option Position :=
  match node with
  | Identifier loc _ | Literal loc _ | MemberExpression loc _ _ _
  | CallExpression loc _ _ | AssignmentExpression loc _ _
  | ImportDeclaration loc _ _ | OtherNode loc _ => loc
  end.

(** What a visitor can learn from [ancestors[ancestors.length - 2]]: whether
    the parent is an assignment with this node as [left], a member expression
    with this node as [object], or anything else (no parent included). *)
Inductive Place : Type := LeftOfAssignment | ObjectOfMember | Elsewhere.

Module Walk.
Section Ancestor.

Context {St : Type}.
(** the visitor table, dispatched on the type of the node *)
Variable visitors : Place -> Node -> St -> St.

(** [walk.ancestor]: the base walker descends into the children, then the
    visitor of the node is called.  A non-computed [property] is not
    walked; an identifier reached as a pattern is a [VariablePattern], for
    which the detector has no visitor; a member expression reached as a
    pattern is walked as a member expression. *)
Fixpoint c (place : Place) (node : Node) (st : St) : St :=
  let pattern (place : Place) (child : Node) (st : St) : St :=
    match child with
    | Identifier _ _ => st
    | _ => c place child st
    end in
  let st :=
    match node with
    | Identifier _ _ | Literal _ _ => st
    | MemberExpression _ object property computed =>
        let st := c ObjectOfMember object st in
        if computed then c Elsewhere property st else st
    | CallExpression _ callee arguments =>
        let st := c Elsewhere callee st in
        fold_left (fun st arg => c Elsewhere arg st) arguments st
    | AssignmentExpression _ lhs rhs =>
        let st := pattern LeftOfAssignment lhs st in
        c Elsewhere rhs st
    | ImportDeclaration _ source_loc source =>
        visitors Elsewhere (Literal source_loc (StringValue source)) st
    | OtherNode _ children =>
        fold_left
          (fun st child =>
             match fst child with
             | AsExpression => c Elsewhere (snd child) st
             | AsPattern => pattern Elsewhere (snd child) st
             end)
          children st
    end in
  visitors place node st.

Definition ancestor (ast : Node) (st : St) : St := c Elsewhere ast st.

(** The same traversal as the list of the visitor calls it makes. *)
Fixpoint calls (place : Place) (node : Node) : list (Place * Node) :=
  let pattern (place : Place) (child : Node) : list (Place * Node) :=
    match child with
    | Identifier _ _ => []
    | _ => calls place child
    end in
  match node with
  | Identifier _ _ | Literal _ _ => []
  | MemberExpression _ object property computed =>
      calls ObjectOfMember object
      ++ (if computed then calls Elsewhere property else [])
  | CallExpression _ callee arguments =>
      calls Elsewhere callee ++ flat_map (calls Elsewhere) arguments
  | AssignmentExpression _ lhs rhs =>
      pattern LeftOfAssignment lhs ++ calls Elsewhere rhs
  | ImportDeclaration _ source_loc source =>
      [(Elsewhere, Literal source_loc (StringValue source))]
  | OtherNode _ children =>
      flat_map
        (fun child =>
           match fst child with
           | AsExpression => calls Elsewhere (snd child)
           | AsPattern => pattern Elsewhere (snd child)
           end)
        children
  end ++ [(place, node)].

End Ancestor.
End Walk.

(** ** What the detector takes from outside

    The parser, the WHATWG URL parser behind [new URL(url).hostname], and the
    floating-point computations: the Shannon entropy of a string
    ([calculateEntropy], a sum of [p * Math.log2(p)]), the sum and the
    quotient of doubles, and [toFixed(2)]. *)

Class Platform : Type := {
  parse : string -> option Node;
  url_hostname : string -> option string;
  calculateEntropy : string -> number;
  number_add : number -> number -> number;
  number_div : number -> number -> number;
  toFixed2 : number -> string
}.

(** ** [utils/helpers.ts] *)

Module Helpers.
Section WithPlatform.

Context {platform : Platform}.

(** The average over the strings longer than 20 code units. *)
Definition calculateAverageEntropy (strings : list string) : number :=
  if (length strings =? 0)%nat then Finite 0 else
  let entropies :=
    map calculateEntropy
        (filter (fun s => (20 <? String.length s)%nat) strings) in
  if (0 <? length entropies)%nat
  then number_div (fold_left number_add entropies (Finite 0))
                  (number_of_nat (length entropies))
  else Finite 0.

(** A string that is no URL is dropped. *)
Fixpoint extractDomains (urls : list string) : list string :=
  match urls with
  | [] => []
  | url :: rest =>
      match url_hostname url with
      | Some hostname => hostname :: extractDomains rest
      | None => extractDomains rest
      end
  end.

End WithPlatform.

Definition getCalleeName (callee : Node) : option string :=
  match callee with
  | Identifier _ name => Some name
  | MemberExpression _ _ (Identifier _ name) _ => Some name
  | _ => None
  end.

Definition getLocation (node : Node) : option Location :=
  match node_loc node with
  | None => None
  | Some p =>
      Some {| line := start_line p;
              column := start_column p;
              code_snippet := "(code snippet)" |}
  end.

End Helpers.

(** ** [analyzer.ts] *)

Module Analyzer.

Import Helpers.

Definition createViolation
    (rule : string) (severity : Severity) (message : string)
    (node : option Node) : Violation :=
  {| rule := rule;
     severity := severity;
     message := message;
     location := match node with
                 | Some n => getLocation n
                 | None => None
                 end |}.

(** *** The accumulator of one analysis *)

Inductive Flag : Type :=
| HasEval
| HasDynamicCodeExecution
| HasNetworkAPI
| HasNetworkWithoutPermission
| HasDynamicURLConstruction
| HasObfuscatedCode
| HasGlobalVariableOverride
| HasStorageAccess
| HasNavigatorAccess
| HasDangerousDOMManipulation
| SuspiciousVariableNames.

Definition Flag_eqb (f g : Flag) : bool :=
  match f, g with
  | HasEval, HasEval
  | HasDynamicCodeExecution, HasDynamicCodeExecution
  | HasNetworkAPI, HasNetworkAPI
  | HasNetworkWithoutPermission, HasNetworkWithoutPermission
  | HasDynamicURLConstruction, HasDynamicURLConstruction
  | HasObfuscatedCode, HasObfuscatedCode
  | HasGlobalVariableOverride, HasGlobalVariableOverride
  | HasStorageAccess, HasStorageAccess
  | HasNavigatorAccess, HasNavigatorAccess
  | HasDangerousDOMManipulation, HasDangerousDOMManipulation
  | SuspiciousVariableNames, SuspiciousVariableNames => true
  | _, _ => false
  end.

(** the field a flag names *)
Definition flag (f : Flag) (signals : SecuritySignals) : bool :=
  match f with
  | HasEval => hasEval signals
  | HasDynamicCodeExecution => hasDynamicCodeExecution signals
  | HasNetworkAPI => hasNetworkAPI signals
  | HasNetworkWithoutPermission => hasNetworkWithoutPermission signals
  | HasDynamicURLConstruction => hasDynamicURLConstruction signals
  | HasObfuscatedCode => hasObfuscatedCode signals
  | HasGlobalVariableOverride => hasGlobalVariableOverride signals
  | HasStorageAccess => hasStorageAccess signals
  | HasNavigatorAccess => hasNavigatorAccess signals
  | HasDangerousDOMManipulation => hasDangerousDOMManipulation signals
  | SuspiciousVariableNames => suspiciousVariableNames signals
  end.

(** [signals.f = true] *)
Definition raise (f : Flag) (signals : SecuritySignals) : SecuritySignals :=
  let now g := Flag_eqb f g || flag g signals in
  {| hasEval := now HasEval;
     hasDynamicCodeExecution := now HasDynamicCodeExecution;
     hasNetworkAPI := now HasNetworkAPI;
     hasNetworkWithoutPermission := now HasNetworkWithoutPermission;
     hasDynamicURLConstruction := now HasDynamicURLConstruction;
     hasObfuscatedCode := now HasObfuscatedCode;
     hasGlobalVariableOverride := now HasGlobalVariableOverride;
     hasStorageAccess := now HasStorageAccess;
     hasNavigatorAccess := now HasNavigatorAccess;
     hasDangerousDOMManipulation := now HasDangerousDOMManipulation;
     entropy := entropy signals;
     suspiciousVariableNames := now SuspiciousVariableNames;
     importedPackages := importedPackages signals;
     referencedDomains := referencedDomains signals;
     detectedViolations := detectedViolations signals |}.

(** [signals.detectedViolations.push(v)] *)
Definition report (v : Violation) (signals : SecuritySignals)
  : SecuritySignals :=
  {| hasEval := hasEval signals;
     hasDynamicCodeExecution := hasDynamicCodeExecution signals;
     hasNetworkAPI := hasNetworkAPI signals;
     hasNetworkWithoutPermission := hasNetworkWithoutPermission signals;
     hasDynamicURLConstruction := hasDynamicURLConstruction signals;
     hasObfuscatedCode := hasObfuscatedCode signals;
     hasGlobalVariableOverride := hasGlobalVariableOverride signals;
     hasStorageAccess := hasStorageAccess signals;
     hasNavigatorAccess := hasNavigatorAccess signals;
     hasDangerousDOMManipulation := hasDangerousDOMManipulation signals;
     entropy := entropy signals;
     suspiciousVariableNames := suspiciousVariableNames signals;
     importedPackages := importedPackages signals;
     referencedDomains := referencedDomains signals;
     detectedViolations := detectedViolations signals ++ [v] |}.

(** [signals.importedPackages.push(source)] *)
Definition add_package (source : string) (signals : SecuritySignals)
  : SecuritySignals :=
  {| hasEval := hasEval signals;
     hasDynamicCodeExecution := hasDynamicCodeExecution signals;
     hasNetworkAPI := hasNetworkAPI signals;
     hasNetworkWithoutPermission := hasNetworkWithoutPermission signals;
     hasDynamicURLConstruction := hasDynamicURLConstruction signals;
     hasObfuscatedCode := hasObfuscatedCode signals;
     hasGlobalVariableOverride := hasGlobalVariableOverride signals;
     hasStorageAccess := hasStorageAccess signals;
     hasNavigatorAccess := hasNavigatorAccess signals;
     hasDangerousDOMManipulation := hasDangerousDOMManipulation signals;
     entropy := entropy signals;
     suspiciousVariableNames := suspiciousVariableNames signals;
     importedPackages := importedPackages signals ++ [source];
     referencedDomains := referencedDomains signals;
     detectedViolations := detectedViolations signals |}.

(** [signals.entropy = e] *)
Definition with_entropy (e : number) (signals : SecuritySignals)
  : SecuritySignals :=
  {| hasEval := hasEval signals;
     hasDynamicCodeExecution := hasDynamicCodeExecution signals;
     hasNetworkAPI := hasNetworkAPI signals;
     hasNetworkWithoutPermission := hasNetworkWithoutPermission signals;
     hasDynamicURLConstruction := hasDynamicURLConstruction signals;
     hasObfuscatedCode := hasObfuscatedCode signals;
     hasGlobalVariableOverride := hasGlobalVariableOverride signals;
     hasStorageAccess := hasStorageAccess signals;
     hasNavigatorAccess := hasNavigatorAccess signals;
     hasDangerousDOMManipulation := hasDangerousDOMManipulation signals;
     entropy := e;
     suspiciousVariableNames := suspiciousVariableNames signals;
     importedPackages := importedPackages signals;
     referencedDomains := referencedDomains signals;
     detectedViolations := detectedViolations signals |}.

(** [signals.referencedDomains = domains] *)
Definition with_domains (domains : list string) (signals : SecuritySignals)
  : SecuritySignals :=
  {| hasEval := hasEval signals;
     hasDynamicCodeExecution := hasDynamicCodeExecution signals;
     hasNetworkAPI := hasNetworkAPI signals;
     hasNetworkWithoutPermission := hasNetworkWithoutPermission signals;
     hasDynamicURLConstruction := hasDynamicURLConstruction signals;
     hasObfuscatedCode := hasObfuscatedCode signals;
     hasGlobalVariableOverride := hasGlobalVariableOverride signals;
     hasStorageAccess := hasStorageAccess signals;
     hasNavigatorAccess := hasNavigatorAccess signals;
     hasDangerousDOMManipulation := hasDangerousDOMManipulation signals;
     entropy := entropy signals;
     suspiciousVariableNames := suspiciousVariableNames signals;
     importedPackages := importedPackages signals;
     referencedDomains := domains;
     detectedViolations := detectedViolations signals |}.

(** The signals and the three local arrays of [analyzeCodeSecurity]. *)
Record Accumulator : Type := {
  signals : SecuritySignals;
  urlStrings : list string;
  stringLiterals : list string;
  variableNames : list string
}.

Definition initial : Accumulator :=
  {| signals :=
       {| hasEval := false;
          hasDynamicCodeExecution := false;
          hasNetworkAPI := false;
          hasNetworkWithoutPermission := false;
          hasDynamicURLConstruction := false;
          hasObfuscatedCode := false;
          hasGlobalVariableOverride := false;
          hasStorageAccess := false;
          hasNavigatorAccess := false;
          hasDangerousDOMManipulation := false;
          entropy := Finite 0;
          suspiciousVariableNames := false;
          importedPackages := [];
          referencedDomains := [];
          detectedViolations := [] |};
     urlStrings := [];
     stringLiterals := [];
     variableNames := [] |}.

(** a statement of a visitor *)
Definition Step : Type := Accumulator -> Accumulator.

Definition on_signals (f : SecuritySignals -> SecuritySignals) : Step :=
  fun acc =>
    {| signals := f (signals acc);
       urlStrings := urlStrings acc;
       stringLiterals := stringLiterals acc;
       variableNames := variableNames acc |}.

Definition set (f : Flag) : Step := on_signals (raise f).
Definition push (v : Violation) : Step := on_signals (report v).
Definition push_package (source : string) : Step :=
  on_signals (add_package source).

Definition push_url (url : string) : Step :=
  fun acc =>
    {| signals := signals acc;
       urlStrings := urlStrings acc ++ [url];
       stringLiterals := stringLiterals acc;
       variableNames := variableNames acc |}.

Definition push_literal (value : string) : Step :=
  fun acc =>
    {| signals := signals acc;
       urlStrings := urlStrings acc;
       stringLiterals := stringLiterals acc ++ [value];
       variableNames := variableNames acc |}.

Definition push_name (name : string) : Step :=
  fun acc =>
    {| signals := signals acc;
       urlStrings := urlStrings acc;
       stringLiterals := stringLiterals acc;
       variableNames := variableNames acc ++ [name] |}.

Definition skip : Step := fun acc => acc.
Definition seq (a b : Step) : Step := fun acc => b (a acc).
(** [if (cond) { body }] *)
Definition when (cond : bool) (body : Step) : Step :=
  if cond then body else skip.

Declare Scope step_scope.
Delimit Scope step_scope with step.
Bind Scope step_scope with Step.
Notation "a ;; b" := (seq a b)
  (at level 61, right associativity) : step_scope.

Local Open Scope step_scope.

(** *** Reading a node *)

(** [arg?.type === 'Literal' && typeof arg.value === 'string'], with the
    value *)
Definition string_literal (arg : option Node) : option string :=
  match arg with
  | Some (Literal _ (StringValue value)) => Some value
  | _ => None
  end.

(** [node.type === 'Identifier' ? node.name : null] *)
Definition identifier_name (node : Node) : option string :=
  match node with
  | Identifier _ name => Some name
  | _ => None
  end.

(** [node.type === 'Identifier' && node.name === name] *)
Definition identifier_named (name : string) (node : Node) : bool :=
  match node with
  | Identifier _ n => String.eqb n name
  | _ => false
  end.

(** [name === expected] for a name that may be [null] *)
Definition name_is (name : option string) (expected : string) : bool :=
  match name with
  | Some n => String.eqb n expected
  | None => false
  end.

(** [name || ''] *)
Definition or_empty (name : option string) : string :=
  match name with
  | Some n => n
  | None => EmptyString
  end.

(** *** The regular expressions *)

Fixpoint hex_digits (n : nat) (s : string) : bool :=
  match n with
  | O => true
  | S n' =>
      match s with
      | String c s' => JsString.is_hex c && hex_digits n' s'
      | EmptyString => false
      end
  end.

(** a backslash, [marker], and [n] hexadecimal digits, anywhere in [s] *)
Fixpoint has_escape (marker : ascii) (n : nat) (s : string) : bool :=
  match s with
  | EmptyString => false
  | String c s' =>
      (Ascii.eqb c (ascii_of_nat 92)
       && match s' with
          | String m s'' => Ascii.eqb m marker && hex_digits n s''
          | EmptyString => false
          end)
      || has_escape marker n s'
  end.

(** [/\\x[0-9a-fA-F]{2}/.test(value) || /\\u[0-9a-fA-F]{4}/.test(value)] *)
Definition has_hex_or_unicode_escape (value : string) : bool :=
  has_escape "x" 2 value || has_escape "u" 4 value.

Fixpoint all_word (s : string) : bool :=
  match s with
  | EmptyString => true
  | String c s' => JsString.is_word c && all_word s'
  end.

(** [/^[_$][a-zA-Z0-9_$]{4,}$/.test(name)] *)
Definition suspicious_shape (name : string) : bool :=
  match name with
  | String c rest =>
      (Ascii.eqb c "_" || Ascii.eqb c "$")
      && (4 <=? String.length rest)%nat && all_word rest
  | EmptyString => false
  end.

(** *** The visitors *)

Definition visitCallExpression
    (node callee : Node) (arguments : list Node) : Step :=
  let calleeName := getCalleeName callee in
  let name := or_empty calleeName in
  when (name_is calleeName "eval")
    (set HasEval ;;
     push (createViolation "no-eval" critical
             "eval()の使用は禁止されています" (Some node))) ;;
  when (JsString.mem name ["setTimeout"; "setInterval"])
    (match string_literal (hd_error arguments) with
     | Some _ =>
         set HasDynamicCodeExecution ;;
         push (createViolation "no-string-timeout" critical
                 (name ++ "に文字列を渡すことは禁止されています")
                 (Some node))
     | None => skip
     end) ;;
  when (JsString.mem name ["fetch"; "XMLHttpRequest"])
    (set HasNetworkAPI ;;
     match string_literal (hd_error arguments) with
     | Some url => push_url url
     | None => set HasDynamicURLConstruction
     end) ;;
  when (name_is calleeName "WebSocket")
    (set HasNetworkAPI ;;
     match string_literal (hd_error arguments) with
     | Some url => push_url url
     | None => skip
     end) ;;
  match callee with
  | MemberExpression _ obj prop _ =>
      when (identifier_named "navigator" obj
            && identifier_named "sendBeacon" prop)
        (set HasNetworkAPI ;;
         set HasNavigatorAccess ;;
         push (createViolation "no-navigator-access" critical
                 "navigator.sendBeacon()の使用は禁止されています"
                 (Some node)))
  | _ => skip
  end ;;
  when (JsString.mem name ["insertAdjacentHTML"])
    (set HasDangerousDOMManipulation ;;
     push (createViolation "no-dangerous-dom" critical
             (name ++ "()の使用は禁止されています（XSS攻撃のリスク）")
             (Some node))) ;;
  match callee with
  | MemberExpression _ obj _ _ =>
      when (name_is calleeName "createElement")
        (when (identifier_named "document" obj)
           (match string_literal (hd_error arguments) with
            | Some tag =>
                let tagName := JsString.toLowerCase tag in
                when (JsString.mem tagName ["script"; "iframe"])
                  (set HasDangerousDOMManipulation ;;
                   push (createViolation "no-dangerous-dom" critical
                           ("document.createElement('" ++ tagName
                            ++ "')の使用は禁止されています")
                           (Some node)))
            | None => skip
            end))
  | _ => skip
  end ;;
  when (JsString.mem name ["atob"; "btoa"; "unescape"; "decodeURIComponent"])
    (set HasObfuscatedCode ;;
     push (createViolation "no-obfuscation" critical
             ("難読化関数 " ++ name ++ "() の使用は禁止されています")
             (Some node))) ;;
  match callee with
  | MemberExpression _ obj prop _ =>
      when (identifier_named "String" obj
            && identifier_named "fromCharCode" prop)
        (set HasObfuscatedCode ;;
         push (createViolation "no-obfuscation" critical
                 "String.fromCharCode()の使用は禁止されています"
                 (Some node)))
  | _ => skip
  end ;;
  match callee with
  | MemberExpression _ _ prop _ =>
      when (identifier_named "addEventListener" prop)
        (match string_literal (hd_error arguments) with
         | Some value =>
             when (String.eqb value "storage")
               (set HasStorageAccess ;;
                push (createViolation "no-storage-event" critical
                        "addEventListener('storage', ...)の使用は禁止されています（トークン傍受のリスク）"
                        (Some node)))
         | None => skip
         end)
  | _ => skip
  end.

Definition visitAssignmentExpression (node lhs : Node) : Step :=
  match lhs with
  | MemberExpression _ (Identifier _ objectName) _ _ =>
      when (JsString.mem objectName
              ["window"; "globalThis"; "document"; "navigator"])
        (set HasGlobalVariableOverride ;;
         when (String.eqb objectName "navigator") (set HasNavigatorAccess) ;;
         push (createViolation "no-global-override" critical
                 ("グローバルオブジェクト " ++ objectName
                  ++ " の改ざんは禁止されています")
                 (Some node)))
  | _ => skip
  end ;;
  match lhs with
  | MemberExpression _ (MemberExpression _ _ prop _) _ _ =>
      when (identifier_named "prototype" prop)
        (set HasGlobalVariableOverride ;;
         push (createViolation "no-prototype-pollution" critical
                 "プロトタイプ汚染は禁止されています" (Some node)))
  | _ => skip
  end ;;
  match lhs with
  | MemberExpression _ _ prop _ =>
      when (identifier_named "onstorage" prop)
        (set HasStorageAccess ;;
         push (createViolation "no-storage-event" critical
                 "onstorageへの代入は禁止されています（トークン傍受のリスク）"
                 (Some node)))
  | _ => skip
  end.

Definition visitMemberExpression
    (place : Place) (node obj prop : Node) : Step :=
  let objectName := identifier_name obj in
  let propertyName := identifier_name prop in
  when (JsString.mem (or_empty objectName)
          ["localStorage"; "sessionStorage"])
    (set HasStorageAccess ;;
     push (createViolation "no-storage-access" critical
             (or_empty objectName ++ "へのアクセスは禁止されています")
             (Some node))) ;;
  when (name_is objectName "document" && name_is propertyName "cookie")
    (set HasStorageAccess ;;
     push (createViolation "no-cookie-access" critical
             "Cookieへのアクセスは禁止されています" (Some node))) ;;
  when (name_is objectName "indexedDB")
    (set HasStorageAccess ;;
     push (createViolation "no-indexeddb-access" critical
             "IndexedDBへのアクセスは禁止されています" (Some node))) ;;
  when (name_is objectName "navigator")
    (set HasNavigatorAccess ;;
     push (createViolation "no-navigator-access" critical
             ("navigator."
              ++ match propertyName with
                 | Some EmptyString | None => "*"
                 | Some p => p
                 end
              ++ "へのアクセスは禁止されています（フィンガープリンティング防止）")
             (Some node))) ;;
  when (JsString.mem (or_empty propertyName) ["innerHTML"; "outerHTML"])
    (match place with
     | LeftOfAssignment =>
         set HasDangerousDOMManipulation ;;
         push (createViolation "no-dangerous-dom" critical
                 (or_empty propertyName
                  ++ "への代入は禁止されています（XSS攻撃のリスク）")
                 (Some node))
     | _ => skip
     end) ;;
  when (name_is objectName "document" && name_is propertyName "head")
    (set HasDangerousDOMManipulation ;;
     push (createViolation "no-dangerous-dom" critical
             "document.headへのアクセスは禁止されています（スクリプト注入のリスク）"
             (Some node))).

Definition visitImportDeclaration (node : Node) (source : string) : Step :=
  push_package source ;;
  when (JsString.startsWith source "http://"
        || JsString.startsWith source "https://")
    (push (createViolation "no-external-import" critical
             "外部URLからのimportは禁止されています" (Some node))).

Definition visitIdentifier (place : Place) (node : Node) (name : string)
  : Step :=
  push_name name ;;
  when (String.eqb name "navigator")
    (match place with
     | ObjectOfMember => skip
     | _ =>
         set HasNavigatorAccess ;;
         push (createViolation "no-navigator-access" critical
                 "navigatorオブジェクトへのアクセスは禁止されています"
                 (Some node))
     end).

Definition visitLiteral (node : Node) (value : LiteralValue) : Step :=
  match value with
  | OtherValue => skip
  | StringValue value =>
      push_literal value ;;
      when (has_hex_or_unicode_escape value)
        (set HasObfuscatedCode ;;
         push (createViolation "no-obfuscation" critical
                 "16進数/Unicodeエスケープによる難読化は禁止されています"
                 (Some node)))
  end.

(** the object passed to [walk.ancestor] *)
Definition visitors (place : Place) (node : Node) : Step :=
  match node with
  | CallExpression _ callee arguments =>
      visitCallExpression node callee arguments
  | AssignmentExpression _ lhs _ => visitAssignmentExpression node lhs
  | MemberExpression _ obj prop _ =>
      visitMemberExpression place node obj prop
  | ImportDeclaration _ _ source => visitImportDeclaration node source
  | Identifier _ name => visitIdentifier place node name
  | Literal _ value => visitLiteral node value
  | OtherNode _ _ => skip
  end.

(** *** After the walk, and the whole analysis *)

Section WithPlatform.

Context {platform : Platform}.

(** [/^[_$][a-zA-Z0-9_$]{4,}$/.test(name) && calculateEntropy(name) > 3.5] *)
Definition suspicious (name : string) : bool :=
  suspicious_shape name
  && number_gt (calculateEntropy name) (Finite (7 # 2)).

(** [permissions?.network?.allowedDomains || []] *)
Definition allowed_by (permissions : option CodePermissions) : list string :=
  match permissions with
  | Some {| network := Some net |} => allowedDomains net
  | _ => []
  end.

(** [domain => !allowedDomains.includes(domain) &&
    !ALLOWED_DOMAINS.includes(domain)] *)
Definition unauthorized (allowed : list string) (domain : string) : bool :=
  negb (JsString.mem domain allowed)
  && negb (JsString.mem domain ALLOWED_DOMAINS).

Definition entropyCheck : Step :=
  (fun acc =>
     on_signals
       (with_entropy (calculateAverageEntropy (stringLiterals acc))) acc) ;;
  (fun acc =>
     when (number_gt (entropy (signals acc)) ENTROPY_THRESHOLD)
       (set HasObfuscatedCode ;;
        push (createViolation "no-obfuscation" critical
                ("文字列のエントロピーが異常に高い（"
                 ++ toFixed2 (entropy (signals acc))
                 ++ "）- 難読化の疑い")
                None))
       acc).

Definition variableNameCheck : Step :=
  fun acc =>
    let suspiciousVars := filter suspicious (variableNames acc) in
    when (0 <? length suspiciousVars)%nat
      (set HasObfuscatedCode ;;
       set SuspiciousVariableNames ;;
       push (createViolation "no-obfuscation" critical
               ("疑わしい変数名が検出されました: "
                ++ JsString.join ", " (firstn 3 suspiciousVars) ++ "...")
               None))
      acc.

Definition urlAnalysis : Step :=
  fun acc =>
    on_signals (with_domains (extractDomains (urlStrings acc))) acc.

Definition permissionCheck (permissions : option CodePermissions) : Step :=
  fun acc =>
    when (hasNetworkAPI (signals acc))
      (let allowedDomains := allowed_by permissions in
       let hasUnauthorizedDomain :=
         existsb (unauthorized allowedDomains)
                 (referencedDomains (signals acc)) in
       when (hasUnauthorizedDomain
             || hasDynamicURLConstruction (signals acc))
         (set HasNetworkWithoutPermission ;;
          push (createViolation "no-network-without-permission" critical
                  "ネットワーク通信にはxrift.config.tsでの権限宣言が必要です"
                  None)))
      acc.

Definition postPass (permissions : option CodePermissions) : Step :=
  entropyCheck ;; variableNameCheck ;; urlAnalysis ;;
  permissionCheck permissions.

(** [analyzeCodeSecurity] once the source is parsed *)
Definition analyzeTree
    (ast : Node) (permissions : option CodePermissions) : SecuritySignals :=
  signals (postPass permissions (Walk.ancestor visitors ast initial)).

(** [None] when [acorn.parse] throws. *)
Definition analyzeCodeSecurity
    (code : string) (permissions : option CodePermissions)
  : option SecuritySignals :=
  match parse code with
  | None => None
  | Some ast => Some (analyzeTree ast permissions)
  end.

End WithPlatform.

End Analyzer.

(** ** [index.ts] *)

Module Service.
Section WithPlatform.

Context {platform : Platform}.

Import Analyzer Scoring FileContexts.

(** [{ ...violation, severity: adjustedSeverity }] *)
Definition with_severity (s : Severity) (v : Violation) : Violation :=
  {| rule := rule v;
     severity := s;
     message := message v;
     location := location v |}.

Definition adjust (context : FileContext) (v : Violation) : Violation :=
  with_severity (adjustViolationSeverity (rule v) (severity v) context) v.

Definition is_critical (v : Violation) : bool :=
  Severity_eqb (severity v) critical.

(** the loop that sorts the adjusted violations into the two arrays *)
Fixpoint classify (adjusted : list Violation) (buckets : Violations)
  : Violations :=
  match adjusted with
  | [] => buckets
  | v :: rest =>
      classify rest
        (if is_critical v
         then {| critical_bucket := critical_bucket buckets ++ [v];
                 warnings := warnings buckets |}
         else {| critical_bucket := critical_bucket buckets;
                 warnings := warnings buckets ++ [v] |})
  end.

(** [if (cond) labels.push(label)] *)
Definition label (cond : bool) (l : string) (labels : list string)
  : list string :=
  if cond then labels ++ [l] else labels.

Definition respond (sig : SecuritySignals) (context : FileContext)
  : ValidateCodeResponse :=
  let adjustedViolations := map (adjust context) (detectedViolations sig) in
  let securityScore := calculateSecurityScore sig in
  let buckets :=
    classify adjustedViolations
             {| critical_bucket := []; warnings := [] |} in
  let detectedAPIs :=
    label (hasObfuscatedCode sig) "obfuscation (atob/btoa/fromCharCode)"
    (label (hasDangerousDOMManipulation sig)
           "innerHTML/outerHTML/createElement"
    (label (hasNavigatorAccess sig) "navigator"
    (label (hasStorageAccess sig)
           "localStorage/sessionStorage/indexedDB/cookie"
    (label (hasNetworkAPI sig) "fetch/WebSocket/XMLHttpRequest"
    (label (hasDynamicCodeExecution sig) "setTimeout/setInterval(string)"
    (label (hasEval sig) "eval" [])))))) in
  let suspiciousPatterns :=
    label (suspiciousVariableNames sig) "疑わしい変数名"
    (label (number_gt (entropy sig) ENTROPY_THRESHOLD)
           ("高エントロピー文字列 (" ++ toFixed2 (entropy sig) ++ ")")
    (label (hasGlobalVariableOverride sig) "グローバル変数改ざん"
    (label (hasDynamicURLConstruction sig) "動的URL構築" []))) in
  let externalDependencies :=
    filter (fun pkg => JsString.startsWith pkg "http://"
                       || JsString.startsWith pkg "https://")
           (importedPackages sig) in
  let valid := (length (critical_bucket buckets) =? 0)%nat in
  {| valid := valid;
     securityScore := securityScore;
     violations := buckets;
     analysis :=
       {| analysis_entropy := entropy sig;
          suspiciousPatterns := suspiciousPatterns;
          detectedAPIs := detectedAPIs;
          externalDependencies := externalDependencies |} |}.

(** [request.fileContext || determineFileContext(request.code)] *)
Definition context_of (request : ValidateCodeRequest) : FileContext :=
  match fileContext request with
  | Some context => context
  | None => determineFileContext (code request)
  end.

(** [request.manifestConfig?.permissions] *)
Definition permissions_of (request : ValidateCodeRequest)
  : option CodePermissions :=
  match manifestConfig request with
  | Some config => permissions config
  | None => None
  end.

(** [CodeSecurityService.validate]; [None] when the parser throws. *)
Definition validate (request : ValidateCodeRequest)
  : option ValidateCodeResponse :=
  let fileContext := context_of request in
  match analyzeCodeSecurity (code request) (permissions_of request) with
  | None => None
  | Some sig => Some (respond sig fileContext)
  end.

End WithPlatform.
End Service.

(** ** Vocabulary of the properties *)

Module Spec.

Import Analyzer Scoring FileContexts.

(** The sum the additive path of the scorer accumulates, apart from the
    term of the referenced domains. *)
Definition score_without_domains (s : SecuritySignals) : Z :=
  ((if hasDynamicURLConstruction s && hasNetworkAPI s then 40 else 0)
   + (if number_gt (entropy s) ENTROPY_THRESHOLD then 15 else 0)
   + (if suspiciousVariableNames s then 10 else 0)
   + Z.of_nat (length (unknownPackages s)) * 20)%Z.

(** [s'] is [s] with one more risk signal: a flag set, the entropy raised
    above the threshold, a package or a domain appended. *)
Inductive adds_signal : SecuritySignals -> SecuritySignals -> Prop :=
| adds_flag (f : Flag) (s : SecuritySignals) :
    adds_signal s (raise f s)
| adds_entropy (e : number) (s : SecuritySignals) :
    number_gt e ENTROPY_THRESHOLD = true ->
    adds_signal s (with_entropy e s)
| adds_package (pkg : string) (s : SecuritySignals) :
    adds_signal s (add_package pkg s)
| adds_domain (domain : string) (s : SecuritySignals) :
    adds_signal s (with_domains (referencedDomains s ++ [domain]) s).

(** a record with no signal at all *)
Definition quiet : SecuritySignals := signals initial.

End Spec.

(** ** Vocabulary of the properties of the detector *)

Module Invariants.

Import Analyzer.

(** Induction on a tree, the children of a node included. *)
Section NodeInduction.

Variable P : Node -> Prop.
Hypothesis identifier_case : forall loc name, P (Identifier loc name).
Hypothesis literal_case : forall loc value, P (Literal loc value).
Hypothesis member_case :
  forall loc obj prop computed,
    P obj -> P prop -> P (MemberExpression loc obj prop computed).
Hypothesis call_case :
  forall loc callee arguments,
    P callee -> Forall P arguments -> P (CallExpression loc callee arguments).
Hypothesis assignment_case :
  forall loc lhs rhs, P lhs -> P rhs -> P (AssignmentExpression loc lhs rhs).
Hypothesis import_case :
  forall loc source_loc source, P (ImportDeclaration loc source_loc source).
Hypothesis other_case :
  forall loc children,
    Forall (fun child => P (snd child)) children -> P (OtherNode loc children).

Fixpoint Node_induction (node : Node) : P node :=
  match node with
  | Identifier loc name => identifier_case loc name
  | Literal loc value => literal_case loc value
  | MemberExpression loc obj prop computed =>
      member_case loc obj prop computed
        (Node_induction obj) (Node_induction prop)
  | CallExpression loc callee arguments =>
      call_case loc callee arguments (Node_induction callee)
        ((fix each (l : list Node) : Forall P l :=
            match l with
            | [] => Forall_nil P
            | arg :: rest =>
                Forall_cons arg (Node_induction arg) (each rest)
            end) arguments)
  | AssignmentExpression loc lhs rhs =>
      assignment_case loc lhs rhs (Node_induction lhs) (Node_induction rhs)
  | ImportDeclaration loc source_loc source =>
      import_case loc source_loc source
  | OtherNode loc children =>
      other_case loc children
        ((fix each (l : list (Descent * Node))
            : Forall (fun child => P (snd child)) l :=
            match l with
            | [] => Forall_nil _
            | child :: rest =>
                Forall_cons child (Node_induction (snd child)) (each rest)
            end) children)
  end.

End NodeInduction.

(** the visitor calls of a list, made in order *)
Definition run {St : Type} (visitors : Place -> Node -> St -> St)
    (calls : list (Place * Node)) (st : St) : St :=
  fold_left (fun st call => visitors (fst call) (snd call) st) calls st.

(** [step] keeps [P] *)
Definition preserves (P : Accumulator -> Prop) (step : Step) : Prop :=
  forall acc, P acc -> P (step acc).

(** a property of the signals, as a property of the accumulator *)
Definition lift (P : SecuritySignals -> Prop) : Accumulator -> Prop :=
  fun acc => P (signals acc).

(** [Q] survives every update the detector makes to the signals. *)
Definition stable (Q : SecuritySignals -> Prop) : Prop :=
  (forall f s, Q s -> Q (raise f s))
  /\ (forall v s, Q s -> Q (report v s))
  /\ (forall pkg s, Q s -> Q (add_package pkg s))
  /\ (forall e s, Q s -> Q (with_entropy e s))
  /\ (forall d s, Q s -> Q (with_domains d s)).

(** some reported violation has one of [rules] *)
Definition has_rule (rules : list string) (s : SecuritySignals) : Prop :=
  exists v, In v (detectedViolations s) /\ In (rule v) rules.

(** The rules that back a flag; [None] for the three flags that are pure
    signals, with no violation of their own. *)
Definition backing_rules (f : Flag) : option (list string) :=
  match f with
  | HasEval => Some ["no-eval"]
  | HasDynamicCodeExecution => Some ["no-string-timeout"]
  | HasNetworkWithoutPermission => Some ["no-network-without-permission"]
  | HasObfuscatedCode => Some ["no-obfuscation"]
  | HasGlobalVariableOverride =>
      Some ["no-global-override"; "no-prototype-pollution"]
  | HasStorageAccess =>
      Some ["no-storage-access"; "no-cookie-access"; "no-indexeddb-access";
            "no-storage-event"]
  | HasNavigatorAccess => Some ["no-navigator-access"]
  | HasDangerousDOMManipulation => Some ["no-dangerous-dom"]
  | HasNetworkAPI | HasDynamicURLConstruction | SuspiciousVariableNames =>
      None
  end.

(** every flag that is true is backed, the flags of [pending] apart *)
Definition backed_but (pending : list Flag) (s : SecuritySignals) : Prop :=
  forall f rules,
    backing_rules f = Some rules ->
    flag f s = true ->
    In f pending \/ has_rule rules s.

Definition backed : SecuritySignals -> Prop := backed_but [].

(** [v] backs every flag of [pending] *)
Definition covers (v : Violation) (pending : list Flag) : bool :=
  forallb
    (fun f =>
       match backing_rules f with
       | Some rules => JsString.mem (rule v) rules
       | None => true
       end)
    pending.

Definition NETWORK_RULE : string := "no-network-without-permission".

(** The walk has raised no [no-network-without-permission] yet. *)
Definition network_unchecked (s : SecuritySignals) : Prop :=
  hasNetworkWithoutPermission s = false
  /\ forall v, In v (detectedViolations s) -> rule v <> NETWORK_RULE.

(** the violation reported for an assignment to [X.prototype.y] *)
Definition prototype_violation (node : Node) : Violation :=
  createViolation "no-prototype-pollution" critical
    "プロトタイプ汚染は禁止されています" (Some node).

(** [X.prototype.y = rhs], as the detector recognises it: the two member
    expressions may be computed or not, and [y] is any node. *)
Definition assigns_to_prototype (node : Node) : Prop :=
  exists loc l1 l2 X lp c1 y c2 rhs,
    node = AssignmentExpression loc
             (MemberExpression l1
                (MemberExpression l2 X (Identifier lp "prototype") c1) y c2)
             rhs.

(** what the visitor of an assignment to [X.prototype.y] leaves behind *)
Definition polluted (node : Node) (s : SecuritySignals) : Prop :=
  flag HasGlobalVariableOverride s = true
  /\ In (prototype_violation node) (detectedViolations s).

(** the violation of the permission check *)
Definition network_violation : Violation :=
  createViolation NETWORK_RULE critical
    "ネットワーク通信にはxrift.config.tsでの権限宣言が必要です" None.

(** the condition under which the permission check raises it *)
Definition triggers (permissions : option CodePermissions)
    (s : SecuritySignals) : bool :=
  hasNetworkAPI s
  && (existsb (unauthorized (allowed_by permissions)) (referencedDomains s)
      || hasDynamicURLConstruction s).

(** the accumulator the permission check starts from *)
Definition before_check {platform : Platform} (tree : Node) : Accumulator :=
  urlAnalysis
    (variableNameCheck (entropyCheck (Walk.ancestor visitors tree initial))).

(** What the visitor of an assignment relies on: the member expression on the
    left of an assignment to [navigator.*] has been visited and reported. *)
Definition left_side_reported (lhs : Node) (s : SecuritySignals) : Prop :=
  match lhs with
  | MemberExpression _ (Identifier _ name) _ _ =>
      name = "navigator" -> has_rule ["no-navigator-access"] s
  | _ => True
  end.

Definition navigator_reported (node : Node) (s : SecuritySignals) : Prop :=
  match node with
  | AssignmentExpression _ lhs _ => left_side_reported lhs s
  | _ => True
  end.

End Invariants.

(** ** Worked examples

    A stand-in platform: the parser is a table from source text to tree, the
    host name of [scheme://host/path] is read off the text, and every string
    has entropy zero. *)

Module Examples.

Import Analyzer.

Definition at_column (n : nat) : option Position :=
  Some {| start_line := 1; start_column := n |}.

(** a [Program] of one [ExpressionStatement] *)
Definition program (expression : Node) : Node :=
  OtherNode (at_column 0)
    [(AsExpression, OtherNode (at_column 0) [(AsExpression, expression)])].

(** [atob(x)] *)
Definition atob_call : Node :=
  program (CallExpression (at_column 0)
             (Identifier (at_column 0) "atob")
             [Identifier (at_column 5) "x"]).

(** [WebSocket(u)] *)
Definition websocket_call : Node :=
  program (CallExpression (at_column 0)
             (Identifier (at_column 0) "WebSocket")
             [Identifier (at_column 10) "u"]).

(** [fetch(u)] *)
Definition fetch_call : Node :=
  program (CallExpression (at_column 0)
             (Identifier (at_column 0) "fetch")
             [Identifier (at_column 6) "u"]).

(** [fetch('https://cdn.jsdelivr.net/data.json')] *)
Definition fetch_cdn : Node :=
  program (CallExpression (at_column 0)
             (Identifier (at_column 0) "fetch")
             [Literal (at_column 6)
                (StringValue "https://cdn.jsdelivr.net/data.json")]).

(** [Object.prototype.isAdmin = true] *)
Definition prototype_assignment : Node :=
  AssignmentExpression (at_column 0)
    (MemberExpression (at_column 0)
       (MemberExpression (at_column 0)
          (Identifier (at_column 0) "Object")
          (Identifier (at_column 7) "prototype") false)
       (Identifier (at_column 17) "isAdmin") false)
    (Literal (at_column 27) OtherValue).

Definition source_table : list (string * Node) :=
  [ ("atob(x)", atob_call);
    ("WebSocket(u)", websocket_call);
    ("fetch(u)", fetch_call);
    ("fetch('https://cdn.jsdelivr.net/data.json')", fetch_cdn);
    ("Object.prototype.isAdmin = true", program prototype_assignment) ].

Fixpoint lookup (text : string) (table : list (string * Node))
  : option Node :=
  match table with
  | [] => None
  | (t, tree) :: rest =>
      if String.eqb t text then Some tree else lookup text rest
  end.

Fixpoint until_slash (s : string) : string :=
  match s with
  | EmptyString => EmptyString
  | String c s' =>
      if Ascii.eqb c "/" then EmptyString else String c (until_slash s')
  end.

Definition hostname (url : string) : option string :=
  if JsString.startsWith url "https://"
  then Some (until_slash (String.substring 8 (String.length url - 8) url))
  else None.

Definition add (a b : number) : number :=
  match a, b with
  | Finite x, Finite y => Finite (x + y)
  | _, _ => NaN
  end.

Definition div (a b : number) : number :=
  match a, b with
  | Finite x, Finite y => Finite (x / y)
  | _, _ => NaN
  end.

Definition table_platform : Platform :=
  {| parse := fun text => lookup text source_table;
     url_hostname := hostname;
     calculateEntropy := fun _ => Finite 0;
     number_add := add;
     number_div := div;
     toFixed2 := fun _ => "0.00" |}.

Definition request_for (text : string) (context : option FileContext)
  : ValidateCodeRequest :=
  {| code := text;
     sourceMap := None;
     packageJson := {| dependencies := [] |};
     manifestConfig := None;
     fileContext := context |}.

Definition shared_library : FileContext :=
  {| filePath := "__federation_shared_three.js";
     isUserCode := false;
     isSharedLibrary := true;
     isBundledDependency := false |}.

Definition user_code : FileContext :=
  {| filePath := "__federation_expose_World-abc.js";
     isUserCode := true;
     isSharedLibrary := false;
     isBundledDependency := false |}.

End Examples.

(** ** [utils/file-context.ts]: the description of a context *)

Module Descriptions.

Import FileContexts.

Definition USER_CODE_TEXT : string := "ユーザーコード（最も厳格に検証）".
Definition SHARED_TEXT : string :=
  "共有ライブラリ（Module Federation自動生成、一部ルールを緩和）".
Definition BUNDLED_TEXT : string :=
  "バンドルされた依存ライブラリ（技術的違反を緩和）".
Definition REMOTE_ENTRY_TEXT : string :=
  "Module Federationエントリーポイント（Module Federation自動生成、一部ルールを緩和）".
Definition FN_IMPORT_TEXT : string :=
  "Module Federation動的インポート（厳格に検証）".
Definition OTHER_TEXT : string := "その他のファイル（標準的な検証）".

Definition describeFileContext (context : FileContext) : string :=
  if isUserCode context then USER_CODE_TEXT else
  if isSharedLibrary context then SHARED_TEXT else
  if isBundledDependency context then BUNDLED_TEXT else
  let fileName := filePath context in
  if String.eqb fileName REMOTE_ENTRY then REMOTE_ENTRY_TEXT else
  if JsString.includes fileName FN_IMPORT_MARKER then FN_IMPORT_TEXT else
  OTHER_TEXT.

End Descriptions.

(** ** Vocabulary of the further properties *)

Module Observations.

Import Analyzer Scoring FileContexts.

(** the order of the verdicts, from the mildest *)
Definition rank (v : Verdict) : nat :=
  match v with
  | APPROVE => 0
  | REVIEW => 1
  | REJECT => 2
  end.

(** [allowed] is a prefix of [pkg] for some entry of [ALLOWED_PACKAGES] *)
Definition allowed_package (pkg : string) : bool :=
  existsb (fun allowed => JsString.startsWith pkg allowed) ALLOWED_PACKAGES.

(** [s'] differs from [s] in the order of the two lists and in the reported
    violations only. *)
Definition same_up_to_order (s s' : SecuritySignals) : Prop :=
  (forall f, flag f s' = flag f s)
  /\ entropy s' = entropy s
  /\ Permutation (importedPackages s) (importedPackages s')
  /\ Permutation (referencedDomains s) (referencedDomains s').

(** the table the adjuster applies where it relaxes *)
Definition relaxed (rule : string) (originalSeverity : Severity) : Severity :=
  if JsString.mem rule technicalViolations then warning
  else if JsString.mem rule criticalViolations then critical
  else originalSeverity.

(** the context is one the adjuster relaxes: neither user code nor an
    infra-import file, and a shared library, a bundled dependency or the
    entry point *)
Definition relaxes (context : FileContext) : bool :=
  negb (isUserCode context)
  && negb (JsString.includes (filePath context) FN_IMPORT_MARKER)
  && (isSharedLibrary context || isBundledDependency context
      || String.eqb (filePath context) REMOTE_ENTRY).

(** the segments of a path before its last one, each followed by a slash *)
Definition dirs (init : list string) : string :=
  fold_right (fun seg rest : string => (seg ++ "/" ++ rest)%string)
    EmptyString init.

(** no character of [s] is a slash *)
Fixpoint no_slash (s : string) : bool :=
  match s with
  | EmptyString => true
  | String c s' => negb (Ascii.eqb c "/") && no_slash s'
  end.

(** *** The conditions of the visitors *)

Definition is_some {A : Type} (o : option A) : bool :=
  match o with
  | Some _ => true
  | None => false
  end.

(** the callee is [navigator.sendBeacon] *)
Definition calls_sendBeacon (callee : Node) : bool :=
  match callee with
  | MemberExpression _ obj prop _ =>
      identifier_named "navigator" obj && identifier_named "sendBeacon" prop
  | _ => false
  end.

(** the call is [document.createElement] of a [script] or an [iframe] *)
Definition creates_script_or_iframe (callee : Node) (arguments : list Node)
  : bool :=
  match callee with
  | MemberExpression _ obj _ _ =>
      name_is (Helpers.getCalleeName callee) "createElement"
      && identifier_named "document" obj
      && match string_literal (hd_error arguments) with
         | Some tag =>
             JsString.mem (JsString.toLowerCase tag) ["script"; "iframe"]
         | None => false
         end
  | _ => false
  end.

(** the callee is [String.fromCharCode] *)
Definition calls_fromCharCode (callee : Node) : bool :=
  match callee with
  | MemberExpression _ obj prop _ =>
      identifier_named "String" obj && identifier_named "fromCharCode" prop
  | _ => false
  end.

(** the call is [x.addEventListener('storage', ...)] *)
Definition listens_to_storage (callee : Node) (arguments : list Node)
  : bool :=
  match callee with
  | MemberExpression _ _ prop _ =>
      identifier_named "addEventListener" prop
      && match string_literal (hd_error arguments) with
         | Some value => String.eqb value "storage"
         | None => false
         end
  | _ => false
  end.

(** the left side is a member of [window], [globalThis], [document] or
    [navigator] *)
Definition global_target (lhs : Node) : bool :=
  match lhs with
  | MemberExpression _ (Identifier _ objectName) _ _ =>
      JsString.mem objectName
        ["window"; "globalThis"; "document"; "navigator"]
  | _ => false
  end.

(** the left side is a member of [X.prototype] *)
Definition prototype_target (lhs : Node) : bool :=
  match lhs with
  | MemberExpression _ (MemberExpression _ _ prop _) _ _ =>
      identifier_named "prototype" prop
  | _ => false
  end.

(** the left side is a member of [navigator] *)
Definition navigator_target (lhs : Node) : bool :=
  match lhs with
  | MemberExpression _ (Identifier _ objectName) _ _ =>
      String.eqb objectName "navigator"
  | _ => false
  end.

(** the left side is [x.onstorage] *)
Definition onstorage_target (lhs : Node) : bool :=
  match lhs with
  | MemberExpression _ _ prop _ => identifier_named "onstorage" prop
  | _ => false
  end.

Definition is_left_of_assignment (place : Place) : bool :=
  match place with
  | LeftOfAssignment => true
  | _ => false
  end.

Definition is_object_of_member (place : Place) : bool :=
  match place with
  | ObjectOfMember => true
  | _ => false
  end.

(** The condition under which the visitor called on [node] at [place] sets
    the flag [f]. *)
Definition sets (f : Flag) (place : Place) (node : Node) : bool :=
  match node with
  | CallExpression _ callee arguments =>
      let name := or_empty (Helpers.getCalleeName callee) in
      let literal := is_some (string_literal (hd_error arguments)) in
      match f with
      | HasEval => name_is (Helpers.getCalleeName callee) "eval"
      | HasDynamicCodeExecution =>
          JsString.mem name ["setTimeout"; "setInterval"] && literal
      | HasNetworkAPI =>
          JsString.mem name ["fetch"; "XMLHttpRequest"]
          || name_is (Helpers.getCalleeName callee) "WebSocket"
          || calls_sendBeacon callee
      | HasDynamicURLConstruction =>
          JsString.mem name ["fetch"; "XMLHttpRequest"] && negb literal
      | HasNavigatorAccess => calls_sendBeacon callee
      | HasDangerousDOMManipulation =>
          JsString.mem name ["insertAdjacentHTML"]
          || creates_script_or_iframe callee arguments
      | HasObfuscatedCode =>
          JsString.mem name ["atob"; "btoa"; "unescape"; "decodeURIComponent"]
          || calls_fromCharCode callee
      | HasStorageAccess => listens_to_storage callee arguments
      | _ => false
      end
  | AssignmentExpression _ lhs _ =>
      match f with
      | HasGlobalVariableOverride => global_target lhs || prototype_target lhs
      | HasNavigatorAccess => navigator_target lhs
      | HasStorageAccess => onstorage_target lhs
      | _ => false
      end
  | MemberExpression _ obj prop _ =>
      let objectName := identifier_name obj in
      let propertyName := identifier_name prop in
      match f with
      | HasStorageAccess =>
          JsString.mem (or_empty objectName)
            ["localStorage"; "sessionStorage"]
          || (name_is objectName "document" && name_is propertyName "cookie")
          || name_is objectName "indexedDB"
      | HasNavigatorAccess => name_is objectName "navigator"
      | HasDangerousDOMManipulation =>
          (JsString.mem (or_empty propertyName) ["innerHTML"; "outerHTML"]
           && is_left_of_assignment place)
          || (name_is objectName "document" && name_is propertyName "head")
      | _ => false
      end
  | Identifier _ name =>
      match f with
      | HasNavigatorAccess =>
          String.eqb name "navigator" && negb (is_object_of_member place)
      | _ => false
      end
  | Literal _ (StringValue value) =>
      match f with
      | HasObfuscatedCode => has_hex_or_unicode_escape value
      | _ => false
      end
  | Literal _ OtherValue | ImportDeclaration _ _ _ | OtherNode _ _ => false
  end.

(** the flags that only the visitors set *)
Definition walk_only (f : Flag) : bool :=
  match f with
  | HasObfuscatedCode | SuspiciousVariableNames
  | HasNetworkWithoutPermission => false
  | _ => true
  end.

(** [step] sets the flag [f] when [b] holds, and never clears it. *)
Definition raises (f : Flag) (step : Step) (b : bool) : Prop :=
  forall acc, flag f (signals (step acc)) = b || flag f (signals acc).

(** *** What the visitors collect *)

Inductive Collection : Type := Urls | Literals | Names | Packages.

Definition collected (k : Collection) (acc : Accumulator) : list string :=
  match k with
  | Urls => urlStrings acc
  | Literals => stringLiterals acc
  | Names => variableNames acc
  | Packages => importedPackages (signals acc)
  end.

Definition option_list {A : Type} (o : option A) : list A :=
  match o with
  | Some a => [a]
  | None => []
  end.

(** what the visitor called on [node] adds to the collection [k] *)
Definition gathers (k : Collection) (node : Node) : list string :=
  match k, node with
  | Urls, CallExpression _ callee arguments =>
      (if JsString.mem (or_empty (Helpers.getCalleeName callee))
            ["fetch"; "XMLHttpRequest"]
       then option_list (string_literal (hd_error arguments)) else [])
      ++ (if name_is (Helpers.getCalleeName callee) "WebSocket"
          then option_list (string_literal (hd_error arguments)) else [])
  | Literals, Literal _ (StringValue value) => [value]
  | Names, Identifier _ name => [name]
  | Packages, ImportDeclaration _ _ source => [source]
  | _, _ => []
  end.

(** [step] appends [l] to the collection [k]. *)
Definition appends (k : Collection) (step : Step) (l : list string) : Prop :=
  forall acc, collected k (step acc) = collected k acc ++ l.

(** *** The tests of the post-pass *)

Section WithPlatform.

Context {platform : Platform}.

(** the average entropy of the collected literals is above the threshold *)
Definition high_entropy (acc : Accumulator) : bool :=
  number_gt (Helpers.calculateAverageEntropy (stringLiterals acc))
    ENTROPY_THRESHOLD.

(** some collected identifier is suspicious *)
Definition has_suspicious_name (acc : Accumulator) : bool :=
  (0 <? length (filter suspicious (variableNames acc)))%nat.

End WithPlatform.

(** [source.startsWith('http://') || source.startsWith('https://')] *)
Definition is_external (source : string) : bool :=
  JsString.startsWith source "http://"
  || JsString.startsWith source "https://".

(** every reported violation is critical *)
Definition all_critical (s : SecuritySignals) : Prop :=
  Forall (fun v => severity v = critical) (detectedViolations s).

(** a backed flag is raised, or a package is imported from a URL *)
Definition has_cause (s : SecuritySignals) : Prop :=
  (exists f, Invariants.backing_rules f <> None /\ flag f s = true)
  \/ (exists pkg, In pkg (importedPackages s) /\ is_external pkg = true).

(** nothing is reported without a cause *)
Definition reports_have_cause (s : SecuritySignals) : Prop :=
  detectedViolations s = [] \/ has_cause s.

(** an import from a URL is reported *)
Definition external_imports_reported (s : SecuritySignals) : Prop :=
  (exists pkg, In pkg (importedPackages s) /\ is_external pkg = true) ->
  Invariants.has_rule ["no-external-import"] s.

(** *** Further examples *)

(** [eval(x)] *)
Definition eval_call : Node :=
  Examples.program
    (CallExpression (Examples.at_column 0)
       (Identifier (Examples.at_column 0) "eval")
       [Identifier (Examples.at_column 5) "x"]).

(** a platform whose parser answers with the tree of [eval(x)] *)
Definition eval_platform : Platform :=
  {| parse := fun _ => Some eval_call;
     url_hostname := Examples.hostname;
     calculateEntropy := fun _ => Finite 0;
     number_add := Examples.add;
     number_div := Examples.div;
     toFixed2 := fun _ => "0.00" |}.

End Observations.

(** ** Properties of the string helpers *)

Module StringFacts.

Lemma mem_In (x : string) (l : list string) :
  JsString.mem x l = true <-> In x l.
Proof.
  unfold JsString.mem. rewrite existsb_exists. split.
  - intros [y [Hy E]]. apply String.eqb_eq in E. subst. exact Hy.
  - intros H. exists x. split; [exact H | apply String.eqb_refl].
Qed.

Lemma mem_not_In (x : string) (l : list string) :
  JsString.mem x l = false <-> ~ In x l.
Proof.
  rewrite <- mem_In. destruct (JsString.mem x l); split; intros H;
    try reflexivity; try discriminate; try (intros C; discriminate C).
  exfalso. apply H. reflexivity.
Qed.

End StringFacts.

(** ** Properties of the scorer and of the verdict *)

Module ScoringFacts.

Import Analyzer Scoring Spec.

Lemma score_short_circuit (s : SecuritySignals) :
  critical_signal s = true -> calculateSecurityScore s = 100%Z.
Proof.
  unfold critical_signal, calculateSecurityScore.
  destruct (hasEval s), (hasDynamicCodeExecution s),
    (hasNetworkWithoutPermission s), (hasGlobalVariableOverride s),
    (hasStorageAccess s), (hasNavigatorAccess s),
    (hasDangerousDOMManipulation s), (hasObfuscatedCode s);
    simpl; intros H; try reflexivity; discriminate H.
Qed.

Lemma score_additive (s : SecuritySignals) :
  critical_signal s = false ->
  calculateSecurityScore s
  = Z.min (score_without_domains s
           + Z.of_nat (length (referencedDomains s)) * 25) 100.
Proof.
  unfold critical_signal, calculateSecurityScore, score_without_domains.
  destruct (hasEval s), (hasDynamicCodeExecution s),
    (hasNetworkWithoutPermission s), (hasGlobalVariableOverride s),
    (hasStorageAccess s), (hasNavigatorAccess s),
    (hasDangerousDOMManipulation s), (hasObfuscatedCode s);
    simpl; intros H; try discriminate H.
  destruct (hasDynamicURLConstruction s && hasNetworkAPI s),
    (number_gt (entropy s) ENTROPY_THRESHOLD),
    (suspiciousVariableNames s); reflexivity.
Qed.

Lemma score_without_domains_nonneg (s : SecuritySignals) :
  (0 <= score_without_domains s)%Z.
Proof.
  unfold score_without_domains.
  destruct (hasDynamicURLConstruction s && hasNetworkAPI s),
    (number_gt (entropy s) ENTROPY_THRESHOLD),
    (suspiciousVariableNames s); lia.
Qed.

Lemma score_bounds (s : SecuritySignals) :
  (0 <= calculateSecurityScore s <= 100)%Z.
Proof.
  destruct (critical_signal s) eqn:E.
  - rewrite (score_short_circuit s E). lia.
  - rewrite (score_additive s E).
    pose proof (score_without_domains_nonneg s). lia.
Qed.

End ScoringFacts.

Module ScoringClaims.

Import Analyzer Scoring Spec ScoringFacts.

(** C2. Whenever one of the eight flags [hasEval],
    [hasDynamicCodeExecution], [hasNetworkWithoutPermission],
    [hasGlobalVariableOverride], [hasStorageAccess], [hasNavigatorAccess],
    [hasDangerousDOMManipulation], [hasObfuscatedCode] is true, the score is
    exactly 100, whatever the other fields hold. *)
Theorem critical_flag_scores_100 (s : SecuritySignals) :
  hasEval s = true \/ hasDynamicCodeExecution s = true
  \/ hasNetworkWithoutPermission s = true
  \/ hasGlobalVariableOverride s = true \/ hasStorageAccess s = true
  \/ hasNavigatorAccess s = true \/ hasDangerousDOMManipulation s = true
  \/ hasObfuscatedCode s = true ->
  calculateSecurityScore s = 100%Z.
Proof.
  intros H. apply score_short_circuit. unfold critical_signal.
  repeat (destruct H as [H | H]; [rewrite H; simpl;
    repeat rewrite orb_true_r; reflexivity |]).
  rewrite H. repeat rewrite orb_true_r. reflexivity.
Qed.

Lemma critical_flag_scores_100_witness :
  calculateSecurityScore (raise HasObfuscatedCode quiet) = 100%Z.
Proof.
  apply (critical_flag_scores_100 (raise HasObfuscatedCode quiet)).
  do 7 right. reflexivity.
Defined.

(** C3. The verdict is REJECT from 70 up, REVIEW from 50 to 69 and APPROVE
    below 50; 50 gives REVIEW, 49 APPROVE, 70 REJECT and 69 REVIEW. *)
Theorem verdict_thresholds :
  (forall score : Z,
      ((70 <= score)%Z -> getSecurityVerdict score = REJECT)
      /\ ((50 <= score < 70)%Z -> getSecurityVerdict score = REVIEW)
      /\ ((score < 50)%Z -> getSecurityVerdict score = APPROVE))
  /\ getSecurityVerdict 50 = REVIEW
  /\ getSecurityVerdict 49 = APPROVE
  /\ getSecurityVerdict 70 = REJECT
  /\ getSecurityVerdict 69 = REVIEW.
Proof.
  split; [| repeat split; reflexivity].
  intros score. unfold getSecurityVerdict.
  destruct (Z.geb_spec score 70), (Z.geb_spec score 50);
    repeat split; intros; try reflexivity; lia.
Qed.

Lemma verdict_thresholds_witness :
  getSecurityVerdict 100 = REJECT
  /\ getSecurityVerdict 55 = REVIEW
  /\ getSecurityVerdict 0 = APPROVE.
Proof.
  pose proof (proj1 verdict_thresholds) as H.
  split; [| split].
  - apply (proj1 (H 100%Z)). lia.
  - apply (proj1 (proj2 (H 55%Z))). lia.
  - apply (proj2 (proj2 (H 0%Z))). lia.
Defined.

Lemma critical_signal_raise (f : Flag) (s : SecuritySignals) :
  critical_signal s = true -> critical_signal (raise f s) = true.
Proof.
  unfold critical_signal; destruct f; simpl;
    destruct (hasEval s), (hasDynamicCodeExecution s),
      (hasNetworkWithoutPermission s), (hasGlobalVariableOverride s),
      (hasStorageAccess s), (hasNavigatorAccess s),
      (hasDangerousDOMManipulation s), (hasObfuscatedCode s);
    simpl; intros H; try reflexivity; discriminate H.
Qed.

Lemma score_without_domains_raise (f : Flag) (s : SecuritySignals) :
  (score_without_domains s <= score_without_domains (raise f s))%Z.
Proof.
  unfold score_without_domains, unknownPackages.
  set (packages := Z.of_nat _).
  destruct f; cbn [raise flag Flag_eqb orb entropy importedPackages
                   hasDynamicURLConstruction hasNetworkAPI
                   suspiciousVariableNames];
    destruct (hasDynamicURLConstruction s), (hasNetworkAPI s),
      (number_gt (entropy s) ENTROPY_THRESHOLD),
      (suspiciousVariableNames s); cbn [andb]; lia.
Qed.

Lemma unknownPackages_add_package (pkg : string) (s : SecuritySignals) :
  (length (unknownPackages s)
   <= length (unknownPackages (add_package pkg s)))%nat.
Proof.
  unfold unknownPackages; simpl. rewrite filter_app, length_app. lia.
Qed.

(** C4. The score lies between 0 and 100, and one more risk signal (a flag
    set to true, the entropy raised above the threshold, a package or a
    domain appended) never lowers it. *)
Theorem score_bounded_and_monotone :
  (forall s : SecuritySignals, (0 <= calculateSecurityScore s <= 100)%Z)
  /\ (forall s s' : SecuritySignals,
         adds_signal s s' ->
         (calculateSecurityScore s <= calculateSecurityScore s')%Z).
Proof.
  split; [exact score_bounds |].
  intros s s' H.
  destruct (critical_signal s') eqn:E'.
  { rewrite (score_short_circuit s' E'). apply score_bounds. }
  destruct (critical_signal s) eqn:E.
  { exfalso. destruct H; try (unfold critical_signal in *; simpl in *; congruence).
    rewrite (critical_signal_raise f s E) in E'. discriminate E'. }
  rewrite (score_additive s E), (score_additive s' E').
  apply Z.min_le_compat_r.
  destruct H.
  - pose proof (score_without_domains_raise f s).
    assert (referencedDomains (raise f s) = referencedDomains s)
      as -> by reflexivity.
    lia.
  - unfold score_without_domains, unknownPackages; simpl. rewrite H.
    destruct (hasDynamicURLConstruction s && hasNetworkAPI s),
      (number_gt (entropy s) ENTROPY_THRESHOLD),
      (suspiciousVariableNames s); lia.
  - pose proof (unknownPackages_add_package pkg s).
    unfold score_without_domains; simpl.
    destruct (hasDynamicURLConstruction s && hasNetworkAPI s),
      (number_gt (entropy s) ENTROPY_THRESHOLD),
      (suspiciousVariableNames s); lia.
  - assert (score_without_domains
              (with_domains (referencedDomains s ++ [domain]) s)
            = score_without_domains s) as -> by reflexivity.
    simpl. rewrite length_app. simpl. lia.
Qed.

Lemma score_bounded_and_monotone_witness :
  (calculateSecurityScore quiet
   <= calculateSecurityScore
        (with_domains (referencedDomains quiet ++ ["evil.test"]) quiet))%Z.
Proof.
  apply (proj2 score_bounded_and_monotone). apply adds_domain.
Defined.

End ScoringClaims.


Module DomainClaims.

Import Analyzer Scoring Spec ScoringFacts Examples.

(** C7. Without a short-circuit flag the score is the other terms plus 25 for
    each entry of [referencedDomains], capped at 100: every referenced domain
    counts, whether allow-listed or not.  Appending any domain adds 25 to the
    sum and leaves the short-circuit untouched; an allow-listed CDN domain
    fetched with no permissions scores 25 and raises no
    [hasNetworkWithoutPermission]. *)
Theorem every_referenced_domain_adds_25 :
  (forall s : SecuritySignals,
      critical_signal s = false ->
      calculateSecurityScore s
      = Z.min (score_without_domains s
               + Z.of_nat (length (referencedDomains s)) * 25) 100)
  /\ (forall (s : SecuritySignals) (domain : string),
         critical_signal s = false ->
         let s' := with_domains (referencedDomains s ++ [domain]) s in
         critical_signal s' = false
         /\ score_without_domains s' = score_without_domains s
         /\ calculateSecurityScore s'
            = Z.min (score_without_domains s
                     + Z.of_nat (length (referencedDomains s)) * 25 + 25) 100)
  /\ (let sig := analyzeTree (platform := table_platform) fetch_cdn None in
      referencedDomains sig = ["cdn.jsdelivr.net"]
      /\ JsString.mem "cdn.jsdelivr.net" ALLOWED_DOMAINS = true
      /\ hasNetworkWithoutPermission sig = false
      /\ calculateSecurityScore sig = 25%Z).
Proof.
  split; [exact score_additive | split].
  - intros s domain E s'.
    assert (E' : critical_signal s' = false) by exact E.
    split; [exact E' | split; [reflexivity |]].
    rewrite (score_additive s' E').
    assert (score_without_domains s' = score_without_domains s) as ->
        by reflexivity.
    unfold s'; simpl. rewrite length_app. simpl. f_equal. lia.
  - vm_compute. repeat split; reflexivity.
Qed.

Lemma every_referenced_domain_adds_25_witness :
  calculateSecurityScore
    (with_domains (referencedDomains quiet ++ ["unpkg.com"]) quiet)
  = Z.min (score_without_domains quiet
           + Z.of_nat (length (referencedDomains quiet)) * 25 + 25) 100.
Proof.
  apply (proj1 (proj2 every_referenced_domain_adds_25) quiet "unpkg.com").
  reflexivity.
Defined.

End DomainClaims.

Module FileContextClaims.

Import FileContexts StringFacts Examples.

(** C8. User code and files whose name holds the infra-import marker keep the
    original severity.  Otherwise, in a shared-library, bundled-dependency
    or entry-point context, the six technical rules become [warning], the
    three always-critical rules become [critical], and every other rule keeps
    its severity. *)
Theorem adjustViolationSeverity_by_context
    (rule : string) (originalSeverity : Severity) (context : FileContext) :
  (isUserCode context = true
   \/ JsString.includes (filePath context) "__federation_fn_import" = true ->
   adjustViolationSeverity rule originalSeverity context = originalSeverity)
  /\ (isUserCode context = false ->
      JsString.includes (filePath context) "__federation_fn_import" = false ->
      isSharedLibrary context = true
      \/ isBundledDependency context = true
      \/ filePath context = "remoteEntry.js" ->
      (In rule [ "no-obfuscation"; "no-dangerous-dom"; "no-navigator-access";
                 "no-prototype-pollution"; "no-global-override";
                 "no-network-without-permission" ] ->
       adjustViolationSeverity rule originalSeverity context = warning)
      /\ (In rule [ "no-eval"; "no-storage-access"; "no-storage-event" ] ->
          adjustViolationSeverity rule originalSeverity context = critical)
      /\ (~ In rule [ "no-obfuscation"; "no-dangerous-dom";
                      "no-navigator-access"; "no-prototype-pollution";
                      "no-global-override";
                      "no-network-without-permission" ] ->
          ~ In rule [ "no-eval"; "no-storage-access"; "no-storage-event" ] ->
          adjustViolationSeverity rule originalSeverity context
          = originalSeverity)).
Proof.
  unfold adjustViolationSeverity, FN_IMPORT_MARKER, REMOTE_ENTRY.
  split.
  - intros [H | H].
    + rewrite H. reflexivity.
    + rewrite H. destruct (isUserCode context); reflexivity.
  - intros U F K. rewrite U, F.
    assert (G : isSharedLibrary context || isBundledDependency context
                || String.eqb (filePath context) "remoteEntry.js" = true).
    { destruct K as [K | [K | K]].
      - rewrite K. reflexivity.
      - rewrite K. apply orb_true_iff. left. apply orb_true_r.
      - rewrite K. apply orb_true_r. }
    rewrite G. fold technicalViolations criticalViolations.
    split; [| split].
    + intros T. apply mem_In in T. rewrite T. reflexivity.
    + intros C.
      assert (T : JsString.mem rule technicalViolations = false).
      { destruct C as [C | [C | [C | []]]]; subst rule; reflexivity. }
      apply mem_In in C. rewrite T, C. reflexivity.
    + intros T C. apply mem_not_In in T. apply mem_not_In in C.
      rewrite T, C. reflexivity.
Qed.

Lemma adjustViolationSeverity_by_context_witness :
  adjustViolationSeverity "no-dangerous-dom" critical shared_library = warning
  /\ adjustViolationSeverity "no-dangerous-dom" critical user_code = critical.
Proof.
  split.
  - apply (proj2 (adjustViolationSeverity_by_context
                    "no-dangerous-dom" critical shared_library)).
    + reflexivity.
    + reflexivity.
    + left. reflexivity.
    + right. left. reflexivity.
  - apply (proj1 (adjustViolationSeverity_by_context
                    "no-dangerous-dom" critical user_code)).
    left. reflexivity.
Defined.

End FileContextClaims.


(** ** Properties of the tree walk *)

Module WalkFacts.

Import Analyzer Invariants.

Section Traversal.

Context {St : Type} (visitors : Place -> Node -> St -> St).

Lemma run_app (l1 l2 : list (Place * Node)) (st : St) :
  run visitors (l1 ++ l2) st = run visitors l2 (run visitors l1 st).
Proof. apply fold_left_app. Qed.

Lemma run_flat_map {A : Type} (walk : A -> St -> St)
    (calls : A -> list (Place * Node)) (l : list A) :
  Forall (fun a => forall st, walk a st = run visitors (calls a) st) l ->
  forall st,
    fold_left (fun st a => walk a st) l st
    = run visitors (flat_map calls l) st.
Proof.
  induction 1 as [| a l Ha _ IH]; intros st; simpl.
  - reflexivity.
  - rewrite run_app, <- Ha. apply IH.
Qed.

(** The walk makes the visitor calls of [Walk.calls], in that order. *)
Lemma c_runs_calls (node : Node) :
  forall place st,
    Walk.c visitors place node st
    = run visitors (Walk.calls place node) st.
Proof.
  induction node using Node_induction; intros place st.
  - reflexivity.
  - reflexivity.
  - simpl. rewrite !run_app. simpl. rewrite <- IHnode1.
    destruct computed; simpl; [rewrite <- IHnode2 |]; reflexivity.
  - simpl. rewrite !run_app. simpl. rewrite <- IHnode. f_equal.
    apply run_flat_map.
    eapply Forall_impl; [| exact H]. intros a Ha st'. apply Ha.
  - simpl. rewrite !run_app. simpl. rewrite <- IHnode2. do 2 f_equal.
    destruct node1; try apply IHnode1. reflexivity.
  - reflexivity.
  - simpl. rewrite run_app. simpl. f_equal.
    apply (run_flat_map
             (fun child st =>
                match fst child with
                | AsExpression => Walk.c visitors Elsewhere (snd child) st
                | AsPattern =>
                    match snd child with
                    | Identifier _ _ => st
                    | _ => Walk.c visitors Elsewhere (snd child) st
                    end
                end)).
    eapply Forall_impl; [| exact H]. intros [descent child] IH st'. simpl.
    simpl in IH.
    destruct descent; [apply IH |].
    destruct child; try apply IH. reflexivity.
Qed.

Lemma run_preserves (P : St -> Prop) :
  (forall place node st, P st -> P (visitors place node st)) ->
  forall calls st, P st -> P (run visitors calls st).
Proof.
  intros step calls. induction calls as [| [place node] rest IH];
    intros st H; simpl.
  - exact H.
  - apply IH. apply step. exact H.
Qed.

(** What every visitor keeps, the walk keeps. *)
Lemma walk_preserves (P : St -> Prop) :
  (forall place node st, P st -> P (visitors place node st)) ->
  forall place node st, P st -> P (Walk.c visitors place node st).
Proof.
  intros step place node st H. rewrite c_runs_calls.
  apply run_preserves; assumption.
Qed.

(** A call of the list is made on some state, and what every visitor keeps
    from then on still holds at the end. *)
Lemma run_reaches (P : St -> Prop) (place : Place) (node : Node) :
  (forall st, P (visitors place node st)) ->
  (forall place' node' st, P st -> P (visitors place' node' st)) ->
  forall calls st, In (place, node) calls -> P (run visitors calls st).
Proof.
  intros establish keep calls.
  induction calls as [| call rest IH]; intros st Hin; simpl.
  - destruct Hin.
  - destruct Hin as [E | Hin].
    + subst call. simpl. apply run_preserves; [exact keep | apply establish].
    + apply IH. exact Hin.
Qed.

End Traversal.

End WalkFacts.


(** ** Properties of the statements of the visitors *)

Module StepFacts.

Import Analyzer Invariants.
Local Open Scope step_scope.

Lemma preserves_skip (P : Accumulator -> Prop) : preserves P skip.
Proof. intros acc H. exact H. Qed.

Lemma preserves_seq (P : Accumulator -> Prop) (a b : Step) :
  preserves P a -> preserves P b -> preserves P (a ;; b).
Proof. intros Ha Hb acc H. apply Hb, Ha, H. Qed.

Lemma preserves_when (P : Accumulator -> Prop) (cond : bool) (body : Step) :
  preserves P body -> preserves P (when cond body).
Proof. intros Hb. destruct cond; [exact Hb | apply preserves_skip]. Qed.

Lemma preserves_on_signals (Q : SecuritySignals -> Prop)
    (f : SecuritySignals -> SecuritySignals) :
  (forall s, Q s -> Q (f s)) -> preserves (lift Q) (on_signals f).
Proof. intros Hf acc H. apply Hf, H. Qed.

Lemma preserves_push_url (Q : SecuritySignals -> Prop) (url : string) :
  preserves (lift Q) (push_url url).
Proof. intros acc H. exact H. Qed.

Lemma preserves_push_literal (Q : SecuritySignals -> Prop) (value : string) :
  preserves (lift Q) (push_literal value).
Proof. intros acc H. exact H. Qed.

Lemma preserves_push_name (Q : SecuritySignals -> Prop) (name : string) :
  preserves (lift Q) (push_name name).
Proof. intros acc H. exact H. Qed.

(** Splits a visitor into its statements; [block] is tried first on each. *)
Ltac steps block :=
  repeat first
    [ block
    | match goal with
      | |- preserves _ skip => apply preserves_skip
      | |- preserves _ (seq _ _) => apply preserves_seq
      | |- preserves _ (when _ _) => apply preserves_when
      | |- preserves _ (push_url _) => apply preserves_push_url
      | |- preserves _ (push_literal _) => apply preserves_push_literal
      | |- preserves _ (push_name _) => apply preserves_push_name
      | |- preserves _ (match ?x with _ => _ end) => destruct x
      end ].

(** *** The fields after an update *)

Lemma flag_raise (f g : Flag) (s : SecuritySignals) :
  flag g (raise f s) = Flag_eqb f g || flag g s.
Proof. destruct g; reflexivity. Qed.

Lemma flag_report (g : Flag) (v : Violation) (s : SecuritySignals) :
  flag g (report v s) = flag g s.
Proof. destruct g; reflexivity. Qed.

Lemma flag_add_package (g : Flag) (pkg : string) (s : SecuritySignals) :
  flag g (add_package pkg s) = flag g s.
Proof. destruct g; reflexivity. Qed.

Lemma flag_with_entropy (g : Flag) (e : number) (s : SecuritySignals) :
  flag g (with_entropy e s) = flag g s.
Proof. destruct g; reflexivity. Qed.

Lemma flag_with_domains (g : Flag) (d : list string) (s : SecuritySignals) :
  flag g (with_domains d s) = flag g s.
Proof. destruct g; reflexivity. Qed.

Lemma Flag_eqb_eq (f g : Flag) : Flag_eqb f g = true -> f = g.
Proof. destruct f, g; intros H; try reflexivity; discriminate H. Qed.

(** *** A raised flag stays raised, a reported violation stays reported *)

Lemma stable_flag (g : Flag) : stable (fun s => flag g s = true).
Proof.
  repeat split; intros ? s H.
  - rewrite flag_raise, H. apply orb_true_r.
  - rewrite flag_report. exact H.
  - rewrite flag_add_package. exact H.
  - rewrite flag_with_entropy. exact H.
  - rewrite flag_with_domains. exact H.
Qed.

Lemma stable_reported (Q : list Violation -> Prop) :
  (forall l v, Q l -> Q (l ++ [v])) ->
  stable (fun s => Q (detectedViolations s)).
Proof.
  intros grow. repeat split; intros ? s H; try exact H.
  apply grow, H.
Qed.

Lemma stable_has_rule (rules : list string) : stable (has_rule rules).
Proof.
  apply (stable_reported (fun l => exists v, In v l /\ In (rule v) rules)).
  intros l w [v [Hv Hr]]. exists v. split; [| exact Hr].
  apply in_or_app. left. exact Hv.
Qed.

Lemma stable_and (Q R : SecuritySignals -> Prop) :
  stable Q -> stable R -> stable (fun s => Q s /\ R s).
Proof.
  intros (q1 & q2 & q3 & q4 & q5) (r1 & r2 & r3 & r4 & r5).
  split; [| split; [| split; [| split]]]; intros ? ? [H1 H2]; split; auto.
Qed.

Lemma stable_set (Q : SecuritySignals -> Prop) (f : Flag) :
  stable Q -> preserves (lift Q) (set f).
Proof. intros H acc HQ. apply H, HQ. Qed.

Lemma stable_push (Q : SecuritySignals -> Prop) (v : Violation) :
  stable Q -> preserves (lift Q) (push v).
Proof. intros H acc HQ. apply H, HQ. Qed.

Lemma stable_push_package (Q : SecuritySignals -> Prop) (source : string) :
  stable Q -> preserves (lift Q) (push_package source).
Proof. intros H acc HQ. apply H, HQ. Qed.

Ltac stable_block :=
  idtac;
  match goal with
  | |- preserves _ (set _) => apply stable_set; assumption
  | |- preserves _ (push _) => apply stable_push; assumption
  | |- preserves _ (push_package _) => apply stable_push_package; assumption
  end.

Lemma stable_visitors (Q : SecuritySignals -> Prop) (place : Place)
    (node : Node) :
  stable Q -> preserves (lift Q) (visitors place node).
Proof.
  intros HQ.
  destruct node; simpl;
    unfold visitCallExpression, visitAssignmentExpression,
      visitMemberExpression, visitImportDeclaration, visitIdentifier,
      visitLiteral;
    steps stable_block.
Qed.

Section WithPlatform.

Context {platform : Platform}.

Lemma stable_postPass (Q : SecuritySignals -> Prop)
    (permissions : option CodePermissions) :
  stable Q -> preserves (lift Q) (postPass permissions).
Proof.
  intros HQ. unfold postPass.
  apply preserves_seq; [| apply preserves_seq; [| apply preserves_seq]].
  - apply preserves_seq; intros acc H.
    + apply HQ, H.
    + refine (preserves_when (lift Q) _ _ _ acc H). steps stable_block.
  - intros acc H.
    refine (preserves_when (lift Q) _ _ _ acc H). steps stable_block.
  - intros acc H. apply HQ, H.
  - intros acc H.
    refine (preserves_when (lift Q) _ _ _ acc H).
    apply preserves_when. steps stable_block.
Qed.

End WithPlatform.

End StepFacts.


(** ** The flags and the violations that back them *)

Module BackingFacts.

Import Analyzer Invariants StepFacts WalkFacts StringFacts.
Local Open Scope step_scope.

Lemma backed_but_raise (f : Flag) (pending : list Flag)
    (s : SecuritySignals) :
  backed_but pending s -> backed_but (f :: pending) (raise f s).
Proof.
  intros H g rules Hr Hg. rewrite flag_raise in Hg.
  destruct (Flag_eqb f g) eqn:E.
  - left. left. apply Flag_eqb_eq, E.
  - destruct (H g rules Hr Hg) as [Hp | Hv].
    + left. right. exact Hp.
    + right. exact Hv.
Qed.

Lemma backed_but_weaken (f : Flag) (pending : list Flag)
    (s : SecuritySignals) :
  backed_but pending s -> backed_but (f :: pending) s.
Proof.
  intros H g rules Hr Hg. destruct (H g rules Hr Hg) as [Hp | Hv].
  - left. right. exact Hp.
  - right. exact Hv.
Qed.

Lemma backed_but_discharge (f : Flag) (rules : list string)
    (pending : list Flag) (s : SecuritySignals) :
  backing_rules f = Some rules ->
  has_rule rules s ->
  backed_but (f :: pending) s -> backed_but pending s.
Proof.
  intros Hf Hv H g rules' Hr Hg.
  destruct (H g rules' Hr Hg) as [[E | Hp] | Hv'].
  - subst g. rewrite Hf in Hr. injection Hr as <-. right. exact Hv.
  - left. exact Hp.
  - right. exact Hv'.
Qed.

Lemma has_rule_report (rules : list string) (v : Violation)
    (s : SecuritySignals) :
  has_rule rules s -> has_rule rules (report v s).
Proof. apply stable_has_rule. Qed.

Lemma backed_but_report (v : Violation) (pending : list Flag)
    (s : SecuritySignals) :
  covers v pending = true ->
  backed_but pending s -> backed (report v s).
Proof.
  intros Hc H g rules Hr Hg. rewrite flag_report in Hg. right.
  destruct (H g rules Hr Hg) as [Hp | Hv].
  - unfold covers in Hc. rewrite forallb_forall in Hc.
    specialize (Hc g Hp). rewrite Hr in Hc. apply mem_In in Hc.
    exists v. split; [| exact Hc].
    simpl. apply in_or_app. right. left. reflexivity.
  - apply has_rule_report, Hv.
Qed.

Lemma backed_set_push (f : Flag) (v : Violation) :
  covers v [f] = true -> preserves (lift backed) (set f ;; push v).
Proof.
  intros Hc acc H. apply (backed_but_report v [f]); [exact Hc |].
  apply backed_but_raise, H.
Qed.

Lemma backed_set_set_push (f g : Flag) (v : Violation) :
  covers v [g; f] = true ->
  preserves (lift backed) (set f ;; set g ;; push v).
Proof.
  intros Hc acc H. apply (backed_but_report v [g; f]); [exact Hc |].
  apply backed_but_raise, backed_but_raise, H.
Qed.

Lemma backed_set_pure (f : Flag) :
  backing_rules f = None -> preserves (lift backed) (set f).
Proof.
  intros Hf acc H g rules Hr Hg.
  destruct (backed_but_raise f [] _ H g rules Hr Hg) as [[E | []] | Hv].
  - subst g. rewrite Hf in Hr. discriminate Hr.
  - right. exact Hv.
Qed.

Lemma backed_push (v : Violation) : preserves (lift backed) (push v).
Proof. intros acc H. apply (backed_but_report v []); [reflexivity | exact H]. Qed.

Lemma backed_push_package (source : string) :
  preserves (lift backed) (push_package source).
Proof.
  intros acc H g rules Hr Hg. unfold push_package, on_signals in Hg.
  simpl in Hg. rewrite flag_add_package in Hg. exact (H g rules Hr Hg).
Qed.

(** a statement, or a run of statements ending in the report, that keeps
    every flag backed *)
Ltac backed_block :=
  idtac;
  match goal with
  | |- preserves _ (seq (set _) (seq (set _) (push _))) =>
      apply backed_set_set_push; reflexivity
  | |- preserves _ (seq (set _) (push _)) =>
      apply backed_set_push; reflexivity
  | |- preserves _ (set _) => apply backed_set_pure; reflexivity
  | |- preserves _ (push _) => apply backed_push
  | |- preserves _ (push_package _) => apply backed_push_package
  end.

(** The first statement of the assignment visitor sets [hasNavigatorAccess]
    and reports [no-global-override] only: the flag is backed by the report
    the member-expression visitor made on the left side. *)
Lemma backed_global_override (node : Node) (objectName : string)
    (acc : Accumulator) :
  (objectName = "navigator" ->
   has_rule ["no-navigator-access"] (signals acc)) ->
  lift backed acc ->
  lift backed
    ((set HasGlobalVariableOverride ;;
      when (String.eqb objectName "navigator") (set HasNavigatorAccess) ;;
      push (createViolation "no-global-override" critical
              ("グローバルオブジェクト " ++ objectName
               ++ " の改ざんは禁止されています")
              (Some node))) acc).
Proof.
  intros Hnav H. unfold seq, lift.
  apply (backed_but_report _ [HasGlobalVariableOverride]); [reflexivity |].
  destruct (String.eqb_spec objectName "navigator") as [E | _]; simpl.
  - apply (backed_but_discharge HasNavigatorAccess ["no-navigator-access"]).
    + reflexivity.
    + apply Hnav, E.
    + apply backed_but_raise, backed_but_raise, H.
  - apply backed_but_raise, H.
Qed.

Lemma backed_visitCallExpression (node callee : Node)
    (arguments : list Node) :
  preserves (lift backed) (visitCallExpression node callee arguments).
Proof. unfold visitCallExpression. steps backed_block. Qed.

Lemma backed_visitMemberExpression (place : Place) (node obj prop : Node) :
  preserves (lift backed) (visitMemberExpression place node obj prop).
Proof. unfold visitMemberExpression. steps backed_block. Qed.

Lemma backed_visitImportDeclaration (node : Node) (source : string) :
  preserves (lift backed) (visitImportDeclaration node source).
Proof. unfold visitImportDeclaration. steps backed_block. Qed.

Lemma backed_visitIdentifier (place : Place) (node : Node) (name : string) :
  preserves (lift backed) (visitIdentifier place node name).
Proof. unfold visitIdentifier. steps backed_block. Qed.

Lemma backed_visitLiteral (node : Node) (value : LiteralValue) :
  preserves (lift backed) (visitLiteral node value).
Proof. unfold visitLiteral. steps backed_block. Qed.

Lemma backed_visitAssignmentExpression (node lhs : Node)
    (acc : Accumulator) :
  left_side_reported lhs (signals acc) ->
  lift backed acc -> lift backed (visitAssignmentExpression node lhs acc).
Proof.
  intros Hnav H. unfold visitAssignmentExpression.
  match goal with
  | |- lift backed (seq ?a (seq ?b ?c) acc) =>
      assert (Hb : preserves (lift backed) b) by steps backed_block;
      assert (Hc : preserves (lift backed) c) by steps backed_block
  end.
  apply Hc, Hb.
  destruct lhs as [| | ? obj ? ? | | | |]; try exact H.
  destruct obj; try exact H.
  unfold when. destruct (JsString.mem _ _); [| exact H].
  apply backed_global_override; assumption.
Qed.

Lemma backed_visitors (place : Place) (node : Node) (acc : Accumulator) :
  navigator_reported node (signals acc) ->
  lift backed acc -> lift backed (visitors place node acc).
Proof.
  destruct node; simpl; intros Hnav.
  - apply backed_visitIdentifier.
  - apply backed_visitLiteral.
  - apply backed_visitMemberExpression.
  - apply backed_visitCallExpression.
  - apply backed_visitAssignmentExpression. exact Hnav.
  - apply backed_visitImportDeclaration.
  - apply preserves_skip.
Qed.

End BackingFacts.


(** ** The detector as a whole *)

Module DetectorFacts.

Import Analyzer Invariants StepFacts WalkFacts BackingFacts.
Local Open Scope step_scope.

Lemma fold_left_keeps {A : Type} (P : Accumulator -> Prop)
    (walk : A -> Step) (l : list A) :
  Forall (fun a => preserves P (walk a)) l ->
  preserves P (fun acc => fold_left (fun acc a => walk a acc) l acc).
Proof.
  induction 1 as [| a l Ha _ IH]; intros acc H; simpl.
  - exact H.
  - apply IH, Ha, H.
Qed.

Lemma has_rule_stays (rules : list string) (place : Place) (node : Node) :
  preserves (lift (has_rule rules)) (visitors place node).
Proof. apply stable_visitors, stable_has_rule. Qed.

(** The visitor of [navigator.p] reports [no-navigator-access]. *)
Lemma member_visit_reports_navigator
    (place : Place) (node prop : Node) (loc : option Position)
    (acc : Accumulator) :
  has_rule ["no-navigator-access"]
    (signals (visitMemberExpression place node
                (Identifier loc "navigator") prop acc)).
Proof.
  unfold visitMemberExpression.
  match goal with
  | |- has_rule ?r (signals (seq ?b1 (seq ?b2 (seq ?b3 (seq ?b4 ?rest))) _)) =>
      change (lift (has_rule r) (rest (b4 (b3 (b2 (b1 acc))))));
      assert (Hrest : preserves (lift (has_rule r)) rest);
      [| apply Hrest; generalize (b3 (b2 (b1 acc))) ]
  end.
  - steps ltac:(apply preserves_on_signals;
                let H := fresh in
                intros ? H; first [exact H | apply has_rule_report, H]).
  - intros acc'. eexists. split.
    + simpl. apply in_or_app. right. left. reflexivity.
    + left. reflexivity.
Qed.

(** The walk keeps every raised flag backed. *)
Lemma walk_backed (node : Node) :
  forall place, preserves (lift backed) (Walk.c visitors place node).
Proof.
  induction node
    as [ loc name | loc value | loc obj prop computed IHobj IHprop
       | loc callee arguments IHcallee IHarguments
       | loc lhs rhs IHlhs IHrhs | loc source_loc source
       | loc children IHchildren ]
    using Node_induction; intros place acc H.
  - apply backed_visitIdentifier, H.
  - apply backed_visitLiteral, H.
  - simpl. apply backed_visitMemberExpression.
    destruct computed; [apply IHprop |]; apply IHobj, H.
  - simpl. apply backed_visitCallExpression.
    apply (fold_left_keeps (lift backed) (Walk.c visitors Elsewhere)).
    + eapply Forall_impl; [| exact IHarguments]. intros a Ha. apply Ha.
    + apply IHcallee, H.
  - simpl. apply backed_visitAssignmentExpression.
    + destruct lhs as [| | l obj prop computed | | | |]; try exact I.
      destruct obj as [li name | | | | | |]; try exact I.
      intros E. subst name.
      apply (walk_preserves visitors (lift (has_rule ["no-navigator-access"]))).
      * intros p n st. apply has_rule_stays.
      * simpl. apply member_visit_reports_navigator.
    + apply IHrhs. destruct lhs; try apply IHlhs; exact H.
  - exact (backed_visitImportDeclaration
             (ImportDeclaration loc source_loc source) source _
             (backed_visitLiteral (Literal source_loc (StringValue source))
                (StringValue source) acc H)).
  - simpl. unfold skip.
    apply (fold_left_keeps (lift backed)
             (fun child acc =>
                match fst child with
                | AsExpression => Walk.c visitors Elsewhere (snd child) acc
                | AsPattern =>
                    match snd child with
                    | Identifier _ _ => acc
                    | _ => Walk.c visitors Elsewhere (snd child) acc
                    end
                end)); [| exact H].
    eapply Forall_impl; [| exact IHchildren].
    intros [descent child] IH acc' H'.
    simpl in *. destruct descent; [apply IH, H' |].
    destruct child; try (apply IH, H'). exact H'.
Qed.

Section WithPlatform.

Context {platform : Platform}.

Lemma backed_with_entropy (e : number) (s : SecuritySignals) :
  backed s -> backed (with_entropy e s).
Proof.
  intros H g rules Hr Hg. rewrite flag_with_entropy in Hg.
  exact (H g rules Hr Hg).
Qed.

Lemma backed_with_domains (d : list string) (s : SecuritySignals) :
  backed s -> backed (with_domains d s).
Proof.
  intros H g rules Hr Hg. rewrite flag_with_domains in Hg.
  exact (H g rules Hr Hg).
Qed.

Lemma entropyCheck_backed : preserves (lift backed) entropyCheck.
Proof.
  apply preserves_seq; intros acc H.
  - apply backed_with_entropy, H.
  - refine (preserves_when (lift backed) _ _ _ acc H).
    apply backed_set_push. reflexivity.
Qed.

Lemma variableNameCheck_backed : preserves (lift backed) variableNameCheck.
Proof.
  intros acc H.
  refine (preserves_when (lift backed) _ _ _ acc H).
  apply backed_set_set_push. reflexivity.
Qed.

Lemma urlAnalysis_backed : preserves (lift backed) urlAnalysis.
Proof. intros acc H. apply backed_with_domains, H. Qed.

Lemma permissionCheck_backed (permissions : option CodePermissions) :
  preserves (lift backed) (permissionCheck permissions).
Proof.
  intros acc H.
  refine (preserves_when (lift backed) _ _ _ acc H).
  apply preserves_when, backed_set_push. reflexivity.
Qed.

Lemma postPass_backed (permissions : option CodePermissions) :
  preserves (lift backed) (postPass permissions).
Proof.
  unfold postPass.
  apply preserves_seq; [exact entropyCheck_backed |].
  apply preserves_seq; [exact variableNameCheck_backed |].
  apply preserves_seq; [exact urlAnalysis_backed |].
  apply permissionCheck_backed.
Qed.

Lemma initial_backed : lift backed initial.
Proof. intros g rules _ Hg. destruct g; discriminate Hg. Qed.

Lemma analyzeTree_backed (tree : Node)
    (permissions : option CodePermissions) :
  backed (analyzeTree tree permissions).
Proof.
  apply postPass_backed, walk_backed, initial_backed.
Qed.

End WithPlatform.

End DetectorFacts.


(** ** The permission check *)

Module PermissionFacts.

Import Analyzer Invariants StepFacts WalkFacts StringFacts.
Local Open Scope step_scope.

Lemma unchecked_set (f : Flag) :
  f <> HasNetworkWithoutPermission ->
  preserves (lift network_unchecked) (set f).
Proof.
  intros Hf acc [Hflag Hrules]. split; [| exact Hrules].
  change (flag HasNetworkWithoutPermission (raise f (signals acc)) = false).
  rewrite flag_raise. simpl. rewrite Hflag.
  destruct f; try reflexivity. contradiction Hf. reflexivity.
Qed.

Lemma unchecked_push (v : Violation) :
  String.eqb (rule v) NETWORK_RULE = false ->
  preserves (lift network_unchecked) (push v).
Proof.
  intros Hv acc [Hflag Hrules]. split; [exact Hflag |].
  intros w Hw. simpl in Hw. apply in_app_or in Hw.
  destruct Hw as [Hw | [E | []]].
  - apply Hrules, Hw.
  - subst w. apply String.eqb_neq, Hv.
Qed.

Lemma unchecked_push_package (source : string) :
  preserves (lift network_unchecked) (push_package source).
Proof. intros acc H. exact H. Qed.

Ltac unchecked_block :=
  idtac;
  match goal with
  | |- preserves _ (set _) => apply unchecked_set; discriminate
  | |- preserves _ (push _) => apply unchecked_push; reflexivity
  | |- preserves _ (push_package _) => apply unchecked_push_package
  end.

(** No visitor raises [hasNetworkWithoutPermission] or reports its rule. *)
Lemma visitors_unchecked (place : Place) (node : Node) :
  preserves (lift network_unchecked) (visitors place node).
Proof.
  destruct node; simpl;
    unfold visitCallExpression, visitAssignmentExpression,
      visitMemberExpression, visitImportDeclaration, visitIdentifier,
      visitLiteral;
    steps unchecked_block.
Qed.

Section WithPlatform.

Context {platform : Platform}.

Lemma before_check_unchecked (tree : Node) :
  lift network_unchecked (before_check tree).
Proof.
  unfold before_check.
  assert (W : lift network_unchecked (Walk.ancestor visitors tree initial)).
  { unfold Walk.ancestor. apply walk_preserves.
    - intros place node st. apply visitors_unchecked.
    - split; [reflexivity | intros v []]. }
  revert W. generalize (Walk.ancestor visitors tree initial). intros acc W.
  assert (E : lift network_unchecked (entropyCheck acc)).
  { revert acc W. apply preserves_seq; intros acc H.
    - exact H.
    - refine (preserves_when (lift network_unchecked) _ _ _ acc H).
      steps unchecked_block. }
  revert E. generalize (entropyCheck acc). clear acc W. intros acc E.
  assert (V : lift network_unchecked (variableNameCheck acc)).
  { refine (preserves_when (lift network_unchecked) _ _ _ acc E).
    steps unchecked_block. }
  exact V.
Qed.

Lemma analyzeTree_is_check (tree : Node)
    (permissions : option CodePermissions) :
  analyzeTree tree permissions
  = signals (permissionCheck permissions (before_check tree)).
Proof. reflexivity. Qed.

Lemma permissionCheck_result (permissions : option CodePermissions)
    (acc : Accumulator) :
  signals (permissionCheck permissions acc)
  = if triggers permissions (signals acc)
    then report network_violation
           (raise HasNetworkWithoutPermission (signals acc))
    else signals acc.
Proof.
  unfold permissionCheck, triggers, when.
  destruct (hasNetworkAPI (signals acc)); [| reflexivity].
  cbv zeta. simpl andb.
  destruct (existsb _ _ || _); reflexivity.
Qed.

End WithPlatform.

End PermissionFacts.


(** ** Properties of the detector *)

Module DetectorClaims.

Import Analyzer Scoring Invariants StepFacts WalkFacts BackingFacts
  DetectorFacts PermissionFacts StringFacts ScoringFacts Examples.

Section WithPlatform.

Context {platform : Platform}.

Lemma analyzed (code : string) (permissions : option CodePermissions)
    (sig : SecuritySignals) :
  analyzeCodeSecurity code permissions = Some sig ->
  exists tree, parse code = Some tree /\ sig = analyzeTree tree permissions.
Proof.
  unfold analyzeCodeSecurity. destruct (parse code) as [tree |].
  - intros E. injection E as <-. exists tree. split; reflexivity.
  - discriminate.
Qed.

(** C9. In the signals returned for an accepted source, every flag that is
    true, [hasNetworkAPI], [hasDynamicURLConstruction] and
    [suspiciousVariableNames] apart, is backed by a reported violation of a
    rule of that flag. *)
Theorem true_flags_are_backed
    (code : string) (permissions : option CodePermissions)
    (sig : SecuritySignals) :
  analyzeCodeSecurity code permissions = Some sig ->
  (hasEval sig = true -> has_rule ["no-eval"] sig)
  /\ (hasDynamicCodeExecution sig = true ->
      has_rule ["no-string-timeout"] sig)
  /\ (hasNetworkWithoutPermission sig = true ->
      has_rule ["no-network-without-permission"] sig)
  /\ (hasObfuscatedCode sig = true -> has_rule ["no-obfuscation"] sig)
  /\ (hasGlobalVariableOverride sig = true ->
      has_rule ["no-global-override"; "no-prototype-pollution"] sig)
  /\ (hasStorageAccess sig = true ->
      has_rule ["no-storage-access"; "no-cookie-access";
                "no-indexeddb-access"; "no-storage-event"] sig)
  /\ (hasNavigatorAccess sig = true -> has_rule ["no-navigator-access"] sig)
  /\ (hasDangerousDOMManipulation sig = true ->
      has_rule ["no-dangerous-dom"] sig).
Proof.
  intros Hsig. destruct (analyzed _ _ _ Hsig) as [tree [_ ->]].
  pose proof (analyzeTree_backed tree permissions) as B.
  assert (K : forall f rules,
             backing_rules f = Some rules ->
             flag f (analyzeTree tree permissions) = true ->
             has_rule rules (analyzeTree tree permissions)).
  { intros f rules Hr Hf. destruct (B f rules Hr Hf) as [[] | Hv]. exact Hv. }
  repeat split; intros Hf.
  - exact (K HasEval _ eq_refl Hf).
  - exact (K HasDynamicCodeExecution _ eq_refl Hf).
  - exact (K HasNetworkWithoutPermission _ eq_refl Hf).
  - exact (K HasObfuscatedCode _ eq_refl Hf).
  - exact (K HasGlobalVariableOverride _ eq_refl Hf).
  - exact (K HasStorageAccess _ eq_refl Hf).
  - exact (K HasNavigatorAccess _ eq_refl Hf).
  - exact (K HasDangerousDOMManipulation _ eq_refl Hf).
Qed.

Lemma triggers_spec (permissions : option CodePermissions)
    (s : SecuritySignals) :
  triggers permissions s = true
  <-> hasNetworkAPI s = true
      /\ ((exists domain,
              In domain (referencedDomains s)
              /\ ~ In domain (allowed_by permissions)
              /\ ~ In domain ALLOWED_DOMAINS)
          \/ hasDynamicURLConstruction s = true).
Proof.
  unfold triggers. rewrite andb_true_iff, orb_true_iff, existsb_exists.
  unfold unauthorized.
  split; intros [Hn [[d [Hd Hu]] | Hdyn]]; split; try exact Hn;
    try (right; exact Hdyn); left; exists d; split; try exact Hd.
  - apply andb_true_iff in Hu. destruct Hu as [Ha Hb].
    apply negb_true_iff in Ha, Hb. split; apply mem_not_In; assumption.
  - destruct Hu as [Ha Hb]. apply mem_not_In in Ha, Hb.
    rewrite Ha, Hb. reflexivity.
Qed.

(** C6. The analysis raises [hasNetworkWithoutPermission], and reports
    [no-network-without-permission], exactly when [hasNetworkAPI] is true and
    either some referenced domain is outside both the caller's
    [allowedDomains] and the built-in CDN list, or
    [hasDynamicURLConstruction] is true; so it does with a dynamic URL and
    no extracted domain.  The violation is critical and has no location. *)
Theorem network_permission_violation
    (code : string) (permissions : option CodePermissions)
    (sig : SecuritySignals) :
  analyzeCodeSecurity code permissions = Some sig ->
  let condition :=
    hasNetworkAPI sig = true
    /\ ((exists domain,
            In domain (referencedDomains sig)
            /\ ~ In domain (allowed_by permissions)
            /\ ~ In domain ALLOWED_DOMAINS)
        \/ hasDynamicURLConstruction sig = true) in
  (hasNetworkWithoutPermission sig = true <-> condition)
  /\ (has_rule ["no-network-without-permission"] sig <-> condition)
  /\ (hasNetworkAPI sig = true ->
      hasDynamicURLConstruction sig = true ->
      referencedDomains sig = [] ->
      hasNetworkWithoutPermission sig = true
      /\ has_rule ["no-network-without-permission"] sig)
  /\ (forall v,
         In v (detectedViolations sig) ->
         rule v = "no-network-without-permission" ->
         location v = None /\ severity v = critical).
Proof.
  intros Hsig condition.
  destruct (analyzed _ _ _ Hsig) as [tree [_ E]].
  rewrite analyzeTree_is_check, permissionCheck_result in E.
  destruct (before_check_unchecked tree) as [Hflag Hrules].
  set (s0 := signals (before_check tree)) in *.
  assert (Hcond : condition <-> triggers permissions s0 = true).
  { unfold condition. rewrite triggers_spec.
    destruct (triggers permissions s0); subst sig; reflexivity. }
  assert (Hraised : hasNetworkWithoutPermission sig = triggers permissions s0).
  { destruct (triggers permissions s0); subst sig;
      [reflexivity | exact Hflag]. }
  assert (Hreported :
            has_rule ["no-network-without-permission"] sig
            <-> triggers permissions s0 = true).
  { destruct (triggers permissions s0); subst sig; split; intros H;
      try reflexivity; try discriminate H.
    - exists network_violation. split; [| left; reflexivity].
      simpl. apply in_or_app. right. left. reflexivity.
    - destruct H as [v [Hv [Hr | []]]]. symmetry in Hr.
      exfalso. exact (Hrules v Hv Hr). }
  split; [| split; [| split]].
  - rewrite Hraised, Hcond. reflexivity.
  - rewrite Hreported, Hcond. reflexivity.
  - intros Hn Hd _.
    assert (C : condition) by (split; [exact Hn | right; exact Hd]).
    apply Hcond in C. rewrite Hraised, Hreported. split; exact C.
  - intros v Hv Hr.
    destruct (triggers permissions s0); subst sig.
    + simpl in Hv. apply in_app_or in Hv. destruct Hv as [Hv | [<- | []]].
      * exfalso. exact (Hrules v Hv Hr).
      * split; reflexivity.
    + exfalso. exact (Hrules v Hv Hr).
Qed.

Lemma stable_polluted (node : Node) : stable (polluted node).
Proof.
  apply stable_and; [apply stable_flag |].
  apply (stable_reported (fun l => In (prototype_violation node) l)).
  intros l v H. apply in_or_app. left. exact H.
Qed.

Lemma prototype_visit (place : Place) (node : Node) (acc : Accumulator) :
  assigns_to_prototype node ->
  lift (polluted node) (visitors place node acc).
Proof.
  intros [loc [l1 [l2 [X [lp [c1 [y [c2 [rhs ->]]]]]]]]].
  set (node := AssignmentExpression _ _ _).
  change (lift (polluted node)
            (visitAssignmentExpression node
               (MemberExpression l1
                  (MemberExpression l2 X (Identifier lp "prototype") c1)
                  y c2) acc)).
  unfold visitAssignmentExpression.
  match goal with
  | |- lift ?P (seq ?a (seq ?b ?rest) acc) =>
      change (lift P (rest (b (a acc))));
      assert (Hrest : preserves (lift P) rest);
      [| apply Hrest; generalize (a acc) ]
  end.
  - pose proof (stable_polluted node). steps stable_block.
  - intros acc'. split.
    + reflexivity.
    + simpl. apply in_or_app. right. left. reflexivity.
Qed.

(** C10. An assignment to [X.prototype.y], for any expression [X], sets
    [hasGlobalVariableOverride] and reports a critical
    [no-prototype-pollution]: a source in which the walk meets one scores
    exactly 100, also when nothing is assigned to [window], [globalThis],
    [document] or [navigator]. *)
Theorem prototype_assignment_scores_100 :
  (forall (code : string) (permissions : option CodePermissions)
          (tree : Node) (place : Place) (node : Node),
      parse code = Some tree ->
      assigns_to_prototype node ->
      In (place, node) (Walk.calls Elsewhere tree) ->
      exists sig,
        analyzeCodeSecurity code permissions = Some sig
        /\ hasGlobalVariableOverride sig = true
        /\ (exists v,
               In v (detectedViolations sig)
               /\ rule v = "no-prototype-pollution"
               /\ severity v = critical
               /\ location v = Helpers.getLocation node)
        /\ calculateSecurityScore sig = 100%Z)
  /\ (let sig :=
        analyzeTree (platform := table_platform)
          (program prototype_assignment) None in
      ~ has_rule ["no-global-override"] sig
      /\ calculateSecurityScore sig = 100%Z).
Proof.
  split.
  - intros code permissions tree place node Hparse Hnode Hin.
    exists (analyzeTree tree permissions). split.
    { unfold analyzeCodeSecurity. rewrite Hparse. reflexivity. }
    assert (P : polluted node (analyzeTree tree permissions)).
    { apply (stable_postPass _ permissions (stable_polluted node)).
      unfold Walk.ancestor. rewrite c_runs_calls.
      apply (run_reaches visitors (lift (polluted node)) place node).
      - intros st. apply prototype_visit, Hnode.
      - intros place' node' st.
        apply stable_visitors, stable_polluted.
      - exact Hin. }
    destruct P as [Hflag Hv]. split; [exact Hflag | split].
    + exists (prototype_violation node). repeat split. exact Hv.
    + apply score_short_circuit. unfold critical_signal.
      simpl in Hflag. rewrite Hflag. repeat rewrite orb_true_r. reflexivity.
  - split; [| reflexivity].
    intros [v [Hv Hr]]. vm_compute in Hv.
    destruct Hv as [<- | []]. vm_compute in Hr.
    destruct Hr as [Hr | []]. discriminate Hr.
Qed.

End WithPlatform.

Lemma prototype_assignment_scores_100_witness :
  exists sig,
    analyzeCodeSecurity (platform := table_platform)
      "Object.prototype.isAdmin = true" None = Some sig
    /\ hasGlobalVariableOverride sig = true
    /\ (exists v,
           In v (detectedViolations sig)
           /\ rule v = "no-prototype-pollution"
           /\ severity v = critical
           /\ location v = Helpers.getLocation prototype_assignment)
    /\ calculateSecurityScore sig = 100%Z.
Proof.
  apply (proj1 (prototype_assignment_scores_100 (platform := table_platform))
           "Object.prototype.isAdmin = true" None
           (program prototype_assignment) Elsewhere prototype_assignment).
  - reflexivity.
  - unfold assigns_to_prototype, prototype_assignment.
    repeat eexists.
  - simpl. do 4 right. left. reflexivity.
Defined.

Lemma true_flags_are_backed_witness :
  has_rule ["no-obfuscation"]
    (analyzeTree (platform := table_platform) atob_call None).
Proof.
  apply (true_flags_are_backed (platform := table_platform)
           "atob(x)" None (analyzeTree atob_call None) eq_refl).
  reflexivity.
Defined.

Lemma network_permission_violation_witness :
  hasNetworkWithoutPermission
    (analyzeTree (platform := table_platform) fetch_call None) = true
  /\ has_rule ["no-network-without-permission"]
       (analyzeTree (platform := table_platform) fetch_call None).
Proof.
  apply (network_permission_violation (platform := table_platform)
           "fetch(u)" None (analyzeTree fetch_call None) eq_refl);
    reflexivity.
Defined.

(** What the handler of a call does for the three network callees, called by
    name: [hasNetworkAPI] is set, a literal URL is captured, nothing is
    reported; a non-literal first argument sets [hasDynamicURLConstruction]
    for [fetch] and [XMLHttpRequest]. *)
Lemma network_call_handler
    (node : Node) (loc : option Position) (name : string)
    (arguments : list Node) (acc : Accumulator) :
  In name ["fetch"; "XMLHttpRequest"; "WebSocket"] ->
  let acc' := visitCallExpression node (Identifier loc name) arguments acc in
  hasNetworkAPI (signals acc') = true
  /\ detectedViolations (signals acc') = detectedViolations (signals acc)
  /\ (forall url,
         string_literal (hd_error arguments) = Some url ->
         urlStrings acc' = urlStrings acc ++ [url])
  /\ (string_literal (hd_error arguments) = None ->
      name <> "WebSocket" ->
      hasDynamicURLConstruction (signals acc') = true).
Proof.
  intros [<- | [<- | [<- | []]]]; unfold visitCallExpression; simpl;
    destruct (string_literal (hd_error arguments)) as [url |]; simpl;
    repeat split; try reflexivity; try discriminate;
    try (intros ? E; injection E as <-; reflexivity).
  intros _ H. contradiction H. reflexivity.
Qed.

(** The handler of a call does nothing for a non-literal first argument when
    the callee is [WebSocket]: [hasDynamicURLConstruction] stays as it was. *)
Lemma websocket_leaves_dynamic_url_flag
    (node : Node) (loc : option Position) (arguments : list Node)
    (acc : Accumulator) :
  string_literal (hd_error arguments) = None ->
  hasDynamicURLConstruction
    (signals (visitCallExpression node (Identifier loc "WebSocket")
                arguments acc))
  = hasDynamicURLConstruction (signals acc).
Proof.
  intros H. unfold visitCallExpression. simpl. rewrite H. reflexivity.
Qed.

(** C5, where the code departs from it.  For the call [WebSocket(u)], whose
    first argument is no string literal, the detector sets [hasNetworkAPI]
    but not [hasDynamicURLConstruction]: nothing is reported and the score is
    0, while the same call of [fetch] sets the flag and scores 100. *)
Theorem websocket_dynamic_url_unflagged :
  (let sig := analyzeTree (platform := table_platform) websocket_call None in
   hasNetworkAPI sig = true
   /\ hasDynamicURLConstruction sig = false
   /\ hasNetworkWithoutPermission sig = false
   /\ detectedViolations sig = []
   /\ calculateSecurityScore sig = 0%Z)
  /\ (let sig := analyzeTree (platform := table_platform) fetch_call None in
      hasNetworkAPI sig = true
      /\ hasDynamicURLConstruction sig = true
      /\ hasNetworkWithoutPermission sig = true
      /\ calculateSecurityScore sig = 100%Z).
Proof. vm_compute. repeat split; reflexivity. Qed.

End DetectorClaims.


(** ** Properties of the service *)

Module ServiceClaims.

Import Analyzer Scoring FileContexts Service Invariants Examples.

Lemma classify_filters (adjusted : list Violation) (buckets : Violations) :
  classify adjusted buckets
  = {| critical_bucket :=
         critical_bucket buckets ++ filter is_critical adjusted;
       warnings :=
         warnings buckets
         ++ filter (fun v => negb (is_critical v)) adjusted |}.
Proof.
  revert buckets. induction adjusted as [| v rest IH]; intros buckets.
  - simpl. rewrite !app_nil_r. destruct buckets; reflexivity.
  - simpl. rewrite IH. destruct (is_critical v); simpl;
      rewrite <- !app_assoc; reflexivity.
Qed.

Lemma no_critical_iff_all_warning (context : FileContext)
    (found : list Violation) :
  filter is_critical (map (adjust context) found) = []
  <-> forall v, In v found ->
                adjustViolationSeverity (rule v) (severity v) context
                = warning.
Proof.
  induction found as [| w rest IH]; simpl.
  - split; [intros _ v [] | reflexivity].
  - unfold is_critical at 1. simpl.
    destruct (adjustViolationSeverity (rule w) (severity w) context) eqn:E;
      simpl.
    + split; [discriminate |].
      intros H. specialize (H w (or_introl eq_refl)). congruence.
    + rewrite IH. split.
      * intros H v [<- | Hv]; [exact E | apply H, Hv].
      * intros H v Hv. apply H. right. exact Hv.
Qed.

(** C1. [valid] is true exactly when the bucket of the violations whose
    adjusted severity is [critical] is empty, that is when the file context
    turns every reported violation into a warning; the score is computed from
    the signals, before the adjustment, so a response can be valid with a
    score of 100. *)
Theorem valid_iff_no_adjusted_critical :
  (forall (platform : Platform) (request : ValidateCodeRequest)
          (response : ValidateCodeResponse),
      validate request = Some response ->
      exists sig,
        analyzeCodeSecurity (code request) (permissions_of request)
        = Some sig
        /\ critical_bucket (violations response)
           = filter is_critical
               (map (adjust (context_of request)) (detectedViolations sig))
        /\ securityScore response = calculateSecurityScore sig
        /\ (valid response = true
            <-> critical_bucket (violations response) = [])
        /\ (valid response = true
            <-> forall v,
                  In v (detectedViolations sig) ->
                  adjustViolationSeverity (rule v) (severity v)
                    (context_of request) = warning))
  /\ (exists response,
         validate (platform := table_platform)
           (request_for "atob(x)" (Some shared_library)) = Some response
         /\ valid response = true
         /\ securityScore response = 100%Z)
  /\ (exists response,
         validate (platform := table_platform)
           (request_for "atob(x)" (Some user_code)) = Some response
         /\ valid response = false
         /\ securityScore response = 100%Z).
Proof.
  split; [| split].
  - intros platform request response. unfold validate.
    destruct (analyzeCodeSecurity (code request) (permissions_of request))
      as [sig |]; [| discriminate].
    intros E. injection E as <-. exists sig.
    split; [reflexivity |].
    assert (B : critical_bucket (violations (respond sig (context_of request)))
                = filter is_critical
                    (map (adjust (context_of request))
                         (detectedViolations sig))).
    { unfold respond. simpl. rewrite classify_filters. reflexivity. }
    assert (V : valid (respond sig (context_of request)) = true
                <-> critical_bucket
                      (violations (respond sig (context_of request))) = []).
    { unfold respond. simpl.
      destruct (critical_bucket _); simpl; split; intros H;
        try reflexivity; discriminate H. }
    split; [exact B | split; [reflexivity | split; [exact V |]]].
    rewrite V, B. apply no_critical_iff_all_warning.
  - eexists. split; [reflexivity | split; reflexivity].
  - eexists. split; [reflexivity | split; reflexivity].
Qed.

Lemma valid_iff_no_adjusted_critical_witness :
  exists sig,
    analyzeCodeSecurity (platform := table_platform) "atob(x)" None
    = Some sig
    /\ critical_bucket
         (violations (respond (platform := table_platform)
                        (analyzeTree (platform := table_platform)
                           atob_call None) shared_library))
       = filter is_critical
           (map (adjust shared_library) (detectedViolations sig))
    /\ securityScore
         (respond (platform := table_platform)
            (analyzeTree (platform := table_platform) atob_call None)
            shared_library)
       = calculateSecurityScore sig
    /\ (valid (respond (platform := table_platform)
                 (analyzeTree (platform := table_platform) atob_call None)
                 shared_library) = true
        <-> critical_bucket
              (violations (respond (platform := table_platform)
                             (analyzeTree (platform := table_platform)
                                atob_call None) shared_library)) = [])
    /\ (valid (respond (platform := table_platform)
                 (analyzeTree (platform := table_platform) atob_call None)
                 shared_library) = true
        <-> forall v,
              In v (detectedViolations sig) ->
              adjustViolationSeverity (rule v) (severity v) shared_library
              = warning).
Proof.
  apply (proj1 valid_iff_no_adjusted_critical table_platform
           (request_for "atob(x)" (Some shared_library))).
  reflexivity.
Defined.

End ServiceClaims.


(** ** Further properties of the scorer and of the verdict *)

Module ScoringExtras.

Import Analyzer Scoring Spec ScoringFacts Observations.

Lemma startsWith_append (prefix suffix : string) :
  JsString.startsWith (prefix ++ suffix) prefix = true.
Proof.
  induction prefix as [| c prefix IH]; simpl.
  - destruct suffix; reflexivity.
  - rewrite Ascii.eqb_refl. exact IH.
Qed.

Lemma unknownPackages_add (pkg : string) (s : SecuritySignals) :
  unknownPackages (add_package pkg s)
  = unknownPackages s ++ (if allowed_package pkg then [] else [pkg]).
Proof.
  unfold unknownPackages, allowed_package.
  change (importedPackages (add_package pkg s))
    with (importedPackages s ++ [pkg]).
  rewrite filter_app. cbn [filter].
  destruct (existsb _ ALLOWED_PACKAGES); reflexivity.
Qed.

Lemma critical_signal_add_package (pkg : string) (s : SecuritySignals) :
  critical_signal (add_package pkg s) = critical_signal s.
Proof. reflexivity. Qed.

(** The allow-list of packages is matched by prefix: a package whose name
    begins with an allowed entry, whatever follows, is not counted. *)
Theorem allowed_prefix_is_not_counted
    (allowed suffix : string) (s : SecuritySignals) :
  In allowed ALLOWED_PACKAGES ->
  calculateSecurityScore (add_package (allowed ++ suffix) s)
  = calculateSecurityScore s.
Proof.
  intros H.
  assert (A : allowed_package (allowed ++ suffix) = true).
  { unfold allowed_package. apply existsb_exists. exists allowed.
    split; [exact H | apply startsWith_append]. }
  destruct (critical_signal s) eqn:E.
  - rewrite !score_short_circuit; try reflexivity; exact E.
  - rewrite !score_additive; try exact E.
    unfold score_without_domains.
    rewrite unknownPackages_add, A, app_nil_r. reflexivity.
Qed.

Lemma allowed_prefix_is_not_counted_witness :
  calculateSecurityScore (add_package ("react" ++ "-native-evil") quiet)
  = calculateSecurityScore quiet.
Proof.
  apply (allowed_prefix_is_not_counted "react" "-native-evil" quiet).
  left. reflexivity.
Defined.

(** A package that starts with no allowed entry adds 20 to the sum of the
    additive path. *)
Theorem unknown_package_adds_20 (pkg : string) (s : SecuritySignals) :
  critical_signal s = false ->
  allowed_package pkg = false ->
  calculateSecurityScore (add_package pkg s)
  = Z.min (score_without_domains s
           + Z.of_nat (length (referencedDomains s)) * 25 + 20) 100.
Proof.
  intros E A. rewrite score_additive by exact E.
  unfold score_without_domains.
  rewrite unknownPackages_add, A, length_app.
  change (referencedDomains (add_package pkg s)) with (referencedDomains s).
  change (hasDynamicURLConstruction (add_package pkg s))
    with (hasDynamicURLConstruction s).
  change (hasNetworkAPI (add_package pkg s)) with (hasNetworkAPI s).
  change (entropy (add_package pkg s)) with (entropy s).
  change (suspiciousVariableNames (add_package pkg s))
    with (suspiciousVariableNames s).
  simpl length. f_equal. lia.
Qed.

Lemma unknown_package_adds_20_witness :
  calculateSecurityScore (add_package "lodash" quiet)
  = Z.min (score_without_domains quiet
           + Z.of_nat (length (referencedDomains quiet)) * 25 + 20) 100.
Proof.
  apply (unknown_package_adds_20 "lodash" quiet); reflexivity.
Defined.

(** The score is 0 exactly when the record holds no signal at all: no
    short-circuit flag, no dynamic URL on a network call, no entropy above
    the threshold, no suspicious name, no unknown package and no domain. *)
Theorem score_zero_iff (s : SecuritySignals) :
  calculateSecurityScore s = 0%Z
  <-> critical_signal s = false
      /\ hasDynamicURLConstruction s && hasNetworkAPI s = false
      /\ number_gt (entropy s) ENTROPY_THRESHOLD = false
      /\ suspiciousVariableNames s = false
      /\ unknownPackages s = []
      /\ referencedDomains s = [].
Proof.
  destruct (critical_signal s) eqn:E.
  - rewrite (score_short_circuit s E). split; [discriminate |].
    intros [H _]. discriminate H.
  - rewrite (score_additive s E). unfold score_without_domains.
    destruct (hasDynamicURLConstruction s && hasNetworkAPI s),
      (number_gt (entropy s) ENTROPY_THRESHOLD),
      (suspiciousVariableNames s),
      (unknownPackages s) as [| p ps], (referencedDomains s) as [| d ds];
      simpl length; split; intros H;
      try (repeat split; reflexivity);
      try lia;
      try (destruct H as (_ & H1 & H2 & H3 & H4 & H5); discriminate).
Qed.

(** Every score is a multiple of 5. *)
Theorem score_multiple_of_5 (s : SecuritySignals) :
  (calculateSecurityScore s mod 5 = 0)%Z.
Proof.
  destruct (critical_signal s) eqn:E.
  - rewrite (score_short_circuit s E). reflexivity.
  - rewrite (score_additive s E). unfold score_without_domains.
    set (p := Z.of_nat (length (unknownPackages s))).
    set (d := Z.of_nat (length (referencedDomains s))).
    destruct (hasDynamicURLConstruction s && hasNetworkAPI s),
      (number_gt (entropy s) ENTROPY_THRESHOLD),
      (suspiciousVariableNames s);
      match goal with
      | |- (Z.min ?e 100 mod 5 = 0)%Z =>
          destruct (Z.min_spec e 100) as [[_ ->] | [_ ->]]
      end; Z.to_euclidean_division_equations; lia.
Qed.

Lemma score_step (s s' : SecuritySignals) :
  adds_signal s s' ->
  (calculateSecurityScore s <= calculateSecurityScore s')%Z.
Proof.
  intros H.
  destruct (critical_signal s') eqn:E'.
  { rewrite (score_short_circuit s' E'). apply score_bounds. }
  assert (E : critical_signal s = false).
  { destruct H; try exact E'.
    destruct (critical_signal s) eqn:E; [| reflexivity].
    rewrite (ScoringClaims.critical_signal_raise f s E) in E'.
    discriminate E'. }
  rewrite (score_additive s E), (score_additive s' E').
  apply Z.min_le_compat_r.
  destruct H.
  - pose proof (ScoringClaims.score_without_domains_raise f s).
    change (referencedDomains (raise f s)) with (referencedDomains s). lia.
  - unfold score_without_domains, unknownPackages.
    cbn [with_entropy entropy hasDynamicURLConstruction hasNetworkAPI
         suspiciousVariableNames importedPackages referencedDomains].
    rewrite H.
    destruct (hasDynamicURLConstruction s && hasNetworkAPI s),
      (number_gt (entropy s) ENTROPY_THRESHOLD),
      (suspiciousVariableNames s); lia.
  - unfold score_without_domains. rewrite unknownPackages_add, length_app.
    cbn [add_package entropy hasDynamicURLConstruction hasNetworkAPI
         suspiciousVariableNames referencedDomains].
    destruct (hasDynamicURLConstruction s && hasNetworkAPI s),
      (number_gt (entropy s) ENTROPY_THRESHOLD),
      (suspiciousVariableNames s), (allowed_package pkg); simpl length; lia.
  - change (score_without_domains
              (with_domains (referencedDomains s ++ [domain]) s))
      with (score_without_domains s).
    cbn [with_domains referencedDomains]. rewrite length_app. simpl length.
    lia.
Qed.

Lemma verdict_monotone (a b : Z) :
  (a <= b)%Z ->
  (rank (getSecurityVerdict a) <= rank (getSecurityVerdict b))%nat.
Proof.
  intros H. unfold getSecurityVerdict.
  destruct (Z.geb_spec a 70), (Z.geb_spec b 70), (Z.geb_spec a 50),
    (Z.geb_spec b 50); simpl; lia.
Qed.

(** One more risk signal never relaxes the verdict: an APPROVE may become a
    REVIEW or a REJECT, never the other way round. *)
Theorem verdict_never_relaxes (s s' : SecuritySignals) :
  adds_signal s s' ->
  (rank (getSecurityVerdict (calculateSecurityScore s))
   <= rank (getSecurityVerdict (calculateSecurityScore s')))%nat.
Proof. intros H. apply verdict_monotone, score_step, H. Qed.

Lemma verdict_never_relaxes_witness :
  (rank (getSecurityVerdict (calculateSecurityScore quiet))
   <= rank (getSecurityVerdict
              (calculateSecurityScore (raise HasEval quiet))))%nat.
Proof. apply (verdict_never_relaxes quiet (raise HasEval quiet)), adds_flag. Defined.

(** The verdict read off the signals: REJECT exactly when a short-circuit
    flag is set or the additive sum reaches 70, APPROVE exactly when no such
    flag is set and the sum stays below 50. *)
Theorem verdict_of_signals (s : SecuritySignals) :
  let sum :=
    (score_without_domains s
     + Z.of_nat (length (referencedDomains s)) * 25)%Z in
  (getSecurityVerdict (calculateSecurityScore s) = REJECT
   <-> critical_signal s = true \/ (70 <= sum)%Z)
  /\ (getSecurityVerdict (calculateSecurityScore s) = APPROVE
      <-> critical_signal s = false /\ (sum < 50)%Z).
Proof.
  cbv zeta. destruct (critical_signal s) eqn:E.
  - rewrite (score_short_circuit s E). split; split; intros H.
    + left. reflexivity.
    + reflexivity.
    + discriminate H.
    + destruct H as [H _]. discriminate H.
  - rewrite (score_additive s E).
    set (sum := (score_without_domains s
                 + Z.of_nat (length (referencedDomains s)) * 25)%Z).
    unfold getSecurityVerdict.
    destruct (Z.geb_spec (Z.min sum 100) 70) as [G1 | G1],
      (Z.geb_spec (Z.min sum 100) 50) as [G2 | G2];
      split; split; intros H; try reflexivity; try discriminate H;
      try (right; lia); try (split; [reflexivity | lia]);
      try (destruct H as [H | H]; [discriminate H | lia]);
      try (destruct H as [_ H]; lia).
Qed.

Lemma filter_length_permutation {A : Type} (f : A -> bool) (l l' : list A) :
  Permutation l l' -> length (filter f l) = length (filter f l').
Proof.
  induction 1 as [| x l l' _ IH | x y l | l l' l'' _ IH1 _ IH2]; simpl.
  - reflexivity.
  - destruct (f x); simpl; congruence.
  - destruct (f x), (f y); reflexivity.
  - congruence.
Qed.

Lemma critical_signal_flags (s s' : SecuritySignals) :
  (forall f, flag f s' = flag f s) -> critical_signal s' = critical_signal s.
Proof.
  intros H. unfold critical_signal.
  rewrite (H HasEval : hasEval s' = hasEval s).
  rewrite (H HasDynamicCodeExecution
           : hasDynamicCodeExecution s' = hasDynamicCodeExecution s).
  rewrite (H HasNetworkWithoutPermission
           : hasNetworkWithoutPermission s' = hasNetworkWithoutPermission s).
  rewrite (H HasGlobalVariableOverride
           : hasGlobalVariableOverride s' = hasGlobalVariableOverride s).
  rewrite (H HasStorageAccess : hasStorageAccess s' = hasStorageAccess s).
  rewrite (H HasNavigatorAccess
           : hasNavigatorAccess s' = hasNavigatorAccess s).
  rewrite (H HasDangerousDOMManipulation
           : hasDangerousDOMManipulation s'
             = hasDangerousDOMManipulation s).
  rewrite (H HasObfuscatedCode : hasObfuscatedCode s' = hasObfuscatedCode s).
  reflexivity.
Qed.

(** The score depends on the flags, the entropy and the two lists as
    multisets: neither the order of the packages and of the domains nor the
    reported violations change it. *)
Theorem score_ignores_order_and_violations (s s' : SecuritySignals) :
  same_up_to_order s s' ->
  calculateSecurityScore s' = calculateSecurityScore s.
Proof.
  intros (Hf & He & Hp & Hd).
  pose proof (critical_signal_flags s s' Hf) as Hc.
  destruct (critical_signal s) eqn:E.
  - rewrite !score_short_circuit; try reflexivity; congruence.
  - rewrite !score_additive by congruence.
    unfold score_without_domains, unknownPackages.
    rewrite (Hf HasDynamicURLConstruction
             : hasDynamicURLConstruction s' = hasDynamicURLConstruction s).
    rewrite (Hf HasNetworkAPI : hasNetworkAPI s' = hasNetworkAPI s).
    rewrite (Hf SuspiciousVariableNames
             : suspiciousVariableNames s' = suspiciousVariableNames s).
    rewrite He.
    rewrite <- (Permutation_length Hd).
    rewrite <- (filter_length_permutation _ _ _ Hp).
    reflexivity.
Qed.

Lemma score_ignores_order_and_violations_witness :
  calculateSecurityScore
    (report Invariants.network_violation
       (with_domains ["b.test"; "a.test"] quiet))
  = calculateSecurityScore (with_domains ["a.test"; "b.test"] quiet).
Proof.
  apply (score_ignores_order_and_violations
           (with_domains ["a.test"; "b.test"] quiet)).
  split; [| split; [| split]].
  - intros f. destruct f; reflexivity.
  - reflexivity.
  - apply Permutation_refl.
  - apply perm_swap.
Defined.

End ScoringExtras.

(** ** Further properties of the file contexts *)

Module FileContextExtras.

Import FileContexts Descriptions Observations StringFacts Examples.

(** For a context computed from a path, the adjuster has two cases only:
    user code and infra-import files keep the severity, every other file is
    relaxed by the rule table.  The final [return originalSeverity] is never
    reached through the guard of the relaxed contexts. *)
Theorem adjust_determined_context
    (path rule : string) (originalSeverity : Severity) :
  let context := determineFileContext path in
  adjustViolationSeverity rule originalSeverity context
  = if isUserCode context
       || JsString.includes (filePath context) FN_IMPORT_MARKER
    then originalSeverity
    else relaxed rule originalSeverity.
Proof.
  unfold determineFileContext, adjustViolationSeverity, relaxed.
  cbn [isUserCode isSharedLibrary isBundledDependency filePath].
  destruct (JsString.includes (lastSegment path) USER_CODE_MARKER
            && JsString.endsWith (lastSegment path) ".js");
    [reflexivity |].
  destruct (JsString.includes (lastSegment path) FN_IMPORT_MARKER);
    [reflexivity |].
  destruct (JsString.startsWith (lastSegment path) SHARED_MARKER
            || JsString.includes path SHARED_MARKER); [reflexivity |].
  destruct (String.eqb (lastSegment path) REMOTE_ENTRY); reflexivity.
Qed.

(** The description of a context computed from a path is never the default
    one: every path is user code, a shared library, a bundled dependency, the
    entry point or an infra-import file. *)
Theorem described_context_is_classified (path : string) :
  describeFileContext (determineFileContext path) <> OTHER_TEXT
  /\ In (describeFileContext (determineFileContext path))
        [ USER_CODE_TEXT; SHARED_TEXT; BUNDLED_TEXT; REMOTE_ENTRY_TEXT;
          FN_IMPORT_TEXT ].
Proof.
  assert (K : In (describeFileContext (determineFileContext path))
                 [ USER_CODE_TEXT; SHARED_TEXT; BUNDLED_TEXT;
                   REMOTE_ENTRY_TEXT; FN_IMPORT_TEXT ]).
  { unfold determineFileContext, describeFileContext.
    cbn [isUserCode isSharedLibrary isBundledDependency filePath].
    destruct (JsString.includes (lastSegment path) USER_CODE_MARKER
              && JsString.endsWith (lastSegment path) ".js");
      [left; reflexivity |].
    destruct (JsString.startsWith (lastSegment path) SHARED_MARKER
              || JsString.includes path SHARED_MARKER);
      [right; left; reflexivity |].
    destruct (JsString.includes (lastSegment path) FN_IMPORT_MARKER);
      destruct (String.eqb (lastSegment path) REMOTE_ENTRY);
      cbn [negb andb]; simpl In; tauto. }
  split; [| exact K].
  intros E. rewrite E in K.
  repeat (destruct K as [K | K]; [discriminate K |]). exact K.
Qed.

(** Adjusting twice is adjusting once. *)
Theorem adjustViolationSeverity_idempotent
    (rule : string) (originalSeverity : Severity) (context : FileContext) :
  adjustViolationSeverity rule
    (adjustViolationSeverity rule originalSeverity context) context
  = adjustViolationSeverity rule originalSeverity context.
Proof.
  unfold adjustViolationSeverity.
  destruct (isUserCode context); [reflexivity |].
  destruct (JsString.includes (filePath context) FN_IMPORT_MARKER);
    [reflexivity |].
  destruct (isSharedLibrary context || isBundledDependency context
            || String.eqb (filePath context) REMOTE_ENTRY); [| reflexivity].
  destruct (JsString.mem rule technicalViolations); [reflexivity |].
  destruct (JsString.mem rule criticalViolations); reflexivity.
Qed.

(** The adjuster raises a severity to [critical] for the three
    always-critical rules only, and lowers one to [warning] for the six
    technical rules only, in whatever context. *)
Theorem adjustViolationSeverity_changes
    (rule : string) (originalSeverity : Severity) (context : FileContext) :
  (adjustViolationSeverity rule originalSeverity context = critical ->
   originalSeverity = critical \/ In rule criticalViolations)
  /\ (adjustViolationSeverity rule originalSeverity context = warning ->
      originalSeverity = warning \/ In rule technicalViolations).
Proof.
  unfold adjustViolationSeverity.
  destruct (isUserCode context); [tauto |].
  destruct (JsString.includes (filePath context) FN_IMPORT_MARKER);
    [tauto |].
  destruct (isSharedLibrary context || isBundledDependency context
            || String.eqb (filePath context) REMOTE_ENTRY); [| tauto].
  destruct (JsString.mem rule technicalViolations) eqn:T.
  { apply mem_In in T. split; [discriminate | tauto]. }
  destruct (JsString.mem rule criticalViolations) eqn:C.
  { apply mem_In in C. split; [tauto | discriminate]. }
  tauto.
Qed.

Lemma adjustViolationSeverity_changes_witness :
  warning = critical \/ In "no-eval" criticalViolations.
Proof.
  apply (proj1 (adjustViolationSeverity_changes
                  "no-eval" warning shared_library)).
  reflexivity.
Defined.

(** *** The file name of a path *)

(** [split] cuts a string at its slashes: the segments, each followed by a
    slash but the last, give the string back. *)
Lemma split_spec (s : string) :
  exists init x,
    JsString.split "/" s = init ++ [x]
    /\ s = (dirs init ++ x)%string.
Proof.
  induction s as [| c s (init & x & E & Hs)].
  - exists [], "". split; reflexivity.
  - simpl. destruct (Ascii.eqb_spec c "/") as [-> | _].
    + exists ("" :: init), x. split.
      * rewrite E. reflexivity.
      * simpl. rewrite <- Hs. reflexivity.
    + rewrite E. destruct init as [| y init]; simpl.
      * exists [], (String c x). split; [reflexivity |].
        simpl in Hs. rewrite <- Hs. reflexivity.
      * exists (String c y :: init), x. split; [reflexivity |].
        simpl in *. rewrite <- Hs. reflexivity.
Qed.

Lemma append_assoc (a b c : string) :
  ((a ++ b) ++ c = a ++ (b ++ c))%string.
Proof. induction a as [| x a IH]; simpl; congruence. Qed.

Lemma dirs_end_with_slash (init : list string) :
  init <> [] -> exists p, dirs init = (p ++ "/")%string.
Proof.
  induction init as [| y init IH]; intros N; [contradiction N; reflexivity |].
  destruct init as [| z init].
  - exists y. reflexivity.
  - destruct (IH ltac:(discriminate)) as [p E].
    exists (y ++ "/" ++ p)%string.
    change (dirs (y :: z :: init))
      with (y ++ "/" ++ dirs (z :: init))%string.
    rewrite E, <- !append_assoc. reflexivity.
Qed.

Lemma pop_snoc (init : list string) (x : string) :
  JsString.pop (init ++ [x]) = Some x.
Proof.
  unfold JsString.pop. rewrite map_app. simpl. apply last_last.
Qed.

Lemma split_no_slash (s : string) :
  Forall (fun seg => no_slash seg = true) (JsString.split "/" s).
Proof.
  induction s as [| c s IH]; simpl.
  - constructor; [reflexivity | constructor].
  - destruct (Ascii.eqb c "/") eqn:E.
    + constructor; [reflexivity | exact IH].
    + destruct (JsString.split "/" s) as [| seg segs]; simpl.
      * constructor; [simpl; rewrite E; reflexivity | constructor].
      * inversion IH as [| ? ? Hseg Hsegs]; subst.
        constructor; [simpl; rewrite E; exact Hseg | exact Hsegs].
Qed.

(** The file name recorded in a context is the part of the path after its
    last slash, which is not empty and holds no slash; a path that is empty
    or ends with a slash is kept whole. *)
Theorem file_name_of_path (path : string) :
  let fileName := filePath (determineFileContext path) in
  (fileName <> "" /\ no_slash fileName = true
   /\ exists dir, path = (dir ++ fileName)%string
                  /\ (dir = "" \/ exists p, dir = (p ++ "/")%string))
  \/ (fileName = path
      /\ (path = "" \/ exists p, path = (p ++ "/")%string)).
Proof.
  cbn [determineFileContext filePath]. unfold lastSegment.
  destruct (split_spec path) as (init & x & E & Hpath).
  pose proof (split_no_slash path) as F. rewrite E in F.
  apply Forall_app in F. destruct F as [_ F].
  apply Forall_inv in F. rename F into Hx. cbv beta in Hx.
  rewrite E, pop_snoc.
  assert (D : dirs init = "" \/ exists p, dirs init = (p ++ "/")%string).
  { destruct init as [| y init]; [left; reflexivity |].
    right. apply dirs_end_with_slash. discriminate. }
  destruct x as [| c x].
  - right. split; [reflexivity |].
    assert (Hp : path = dirs init).
    { rewrite Hpath. clear. induction (dirs init); simpl; congruence. }
    rewrite Hp. destruct D as [-> | [p ->]]; [left; reflexivity |].
    right. exists p. reflexivity.
  - left. split; [discriminate | split; [exact Hx |]].
    eexists. split; [exact Hpath | exact D].
Qed.

End FileContextExtras.

(** ** Further properties of the helpers *)

Module HelperExtras.

Import Helpers.

Section WithPlatform.

Context {platform : Platform}.

(** The strings of at most 20 code units play no part in the average
    entropy, which is 0 when no string is longer. *)
Theorem average_entropy_ignores_short_strings (strings : list string) :
  calculateAverageEntropy strings
  = calculateAverageEntropy
      (filter (fun s => (20 <? String.length s)%nat) strings)
  /\ (Forall (fun s => (String.length s <= 20)%nat) strings ->
      calculateAverageEntropy strings = Finite 0).
Proof.
  set (long := fun s => (20 <? String.length s)%nat).
  assert (idem : filter long (filter long strings) = filter long strings).
  { induction strings as [| s rest IH]; simpl; [reflexivity |].
    destruct (long s) eqn:E; simpl; [rewrite E, IH |]; congruence. }
  split.
  - unfold calculateAverageEntropy. fold long. rewrite idem.
    destruct strings as [| s rest]; [reflexivity |].
    cbn [length Nat.eqb].
    destruct (filter long (s :: rest)) as [| t ts]; reflexivity.
  - intros H. unfold calculateAverageEntropy. fold long.
    assert (E : filter long strings = []).
    { clear idem. induction H as [| s rest Hs _ IH]; simpl; [reflexivity |].
      unfold long at 1. destruct (Nat.ltb_spec 20 (String.length s));
        [lia | exact IH]. }
    rewrite E. destruct (length strings =? 0)%nat; reflexivity.
Qed.

(** The domains are the host names of the strings the URL parser accepts, in
    the order of the strings and with their repetitions; the others are
    dropped without a trace. *)
Theorem extractDomains_keeps_parsed_urls (urls more : list string) :
  extractDomains (urls ++ more) = extractDomains urls ++ extractDomains more
  /\ (length (extractDomains urls) <= length urls)%nat
  /\ (forall domain,
         In domain (extractDomains urls)
         <-> exists url, In url urls /\ url_hostname url = Some domain)
  /\ (Forall (fun url => url_hostname url = None) urls ->
      extractDomains urls = []).
Proof.
  split; [| split; [| split]].
  - induction urls as [| url rest IH]; simpl; [reflexivity |].
    destruct (url_hostname url); simpl; rewrite IH; reflexivity.
  - induction urls as [| url rest IH]; simpl; [lia |].
    destruct (url_hostname url); simpl; lia.
  - intros domain. induction urls as [| url rest IH]; simpl.
    + split; [intros [] | intros [u [[] _]]].
    + destruct (url_hostname url) as [h |] eqn:E; simpl; rewrite IH; split.
      * intros [<- | [u [Hu Hh]]]; [exists url | exists u]; tauto.
      * intros [u [[<- | Hu] Hh]].
        -- left. congruence.
        -- right. exists u. tauto.
      * intros [u [Hu Hh]]. exists u. tauto.
      * intros [u [[<- | Hu] Hh]]; [congruence | exists u; tauto].
  - induction 1 as [| url rest Hu _ IH]; simpl; [reflexivity |].
    rewrite Hu. exact IH.
Qed.

End WithPlatform.

Lemma average_entropy_ignores_short_strings_witness :
  calculateAverageEntropy (platform := Examples.table_platform)
    ["use strict"; "a"] = Finite 0.
Proof.
  apply (proj2 (average_entropy_ignores_short_strings
                  (platform := Examples.table_platform)
                  ["use strict"; "a"])).
  repeat constructor.
Defined.

Lemma extractDomains_keeps_parsed_urls_witness :
  extractDomains (platform := Examples.table_platform)
    ["not a url"; "ftp://x"] = [].
Proof.
  apply (proj2 (proj2 (proj2
           (extractDomains_keeps_parsed_urls
              (platform := Examples.table_platform)
              ["not a url"; "ftp://x"] [])))).
  repeat constructor.
Defined.

End HelperExtras.

(** ** Further properties of the detector *)

Module DetectorExtras.

Import Analyzer Scoring Invariants Observations StepFacts WalkFacts
  StringFacts ScoringFacts Examples.
Local Open Scope step_scope.

(** *** The flags a statement sets *)

Lemma raises_skip (f : Flag) : raises f skip false.
Proof. intros acc. reflexivity. Qed.

Lemma raises_seq (f : Flag) (a b : Step) (x y : bool) :
  raises f a x -> raises f b y -> raises f (a ;; b) (x || y).
Proof.
  intros Ha Hb acc. unfold seq. rewrite Hb, Ha.
  destruct x, y; reflexivity.
Qed.

Lemma raises_when (f : Flag) (cond : bool) (body : Step) (x : bool) :
  raises f body x -> raises f (when cond body) (cond && x).
Proof.
  intros Hb. destruct cond; [exact Hb | apply raises_skip].
Qed.

Lemma raises_set (f g : Flag) : raises f (set g) (Flag_eqb g f).
Proof. intros acc. apply flag_raise. Qed.

Lemma raises_push (f : Flag) (v : Violation) : raises f (push v) false.
Proof. intros acc. apply flag_report. Qed.

Lemma raises_push_package (f : Flag) (source : string) :
  raises f (push_package source) false.
Proof. intros acc. apply flag_add_package. Qed.

Lemma raises_push_url (f : Flag) (url : string) :
  raises f (push_url url) false.
Proof. intros acc. reflexivity. Qed.

Lemma raises_push_literal (f : Flag) (value : string) :
  raises f (push_literal value) false.
Proof. intros acc. reflexivity. Qed.

Lemma raises_push_name (f : Flag) (name : string) :
  raises f (push_name name) false.
Proof. intros acc. reflexivity. Qed.

Lemma raises_eq (f : Flag) (step : Step) (b b' : bool) :
  raises f step b -> b = b' -> raises f step b'.
Proof. intros H <-. exact H. Qed.

(** Case analysis on every [match] of the goal, then the rules above. *)
Ltac cases_of_goal :=
  repeat match goal with
         | |- context [match ?x with _ => _ end] => destruct x
         end.

Ltac raise_rules :=
  repeat match goal with
         | |- raises _ skip _ => apply raises_skip
         | |- raises _ (seq _ _) _ => eapply raises_seq
         | |- raises _ (when _ _) _ => eapply raises_when
         | |- raises _ (set _) _ => apply raises_set
         | |- raises _ (push _) _ => apply raises_push
         | |- raises _ (push_package _) _ => apply raises_push_package
         | |- raises _ (push_url _) _ => apply raises_push_url
         | |- raises _ (push_literal _) _ => apply raises_push_literal
         | |- raises _ (push_name _) _ => apply raises_push_name
         end.

Lemma visitIdentifier_raises (f : Flag) (place : Place) (node : Node)
    (loc : option Position) (name : string) :
  raises f (visitIdentifier place node name)
    (sets f place (Identifier loc name)).
Proof.
  unfold visitIdentifier.
  destruct place; (eapply raises_eq; [raise_rules |]);
    destruct f; cbn; btauto.
Qed.

Lemma visitLiteral_raises (f : Flag) (place : Place) (node : Node)
    (loc : option Position) (value : LiteralValue) :
  raises f (visitLiteral node value) (sets f place (Literal loc value)).
Proof.
  unfold visitLiteral.
  destruct value; (eapply raises_eq; [raise_rules |]);
    destruct f; cbn; btauto.
Qed.

Lemma visitImportDeclaration_raises (f : Flag) (node : Node)
    (source : string) :
  raises f (visitImportDeclaration node source) false.
Proof.
  unfold visitImportDeclaration.
  eapply raises_eq; [raise_rules |]. destruct f; cbn; btauto.
Qed.

Lemma visitMemberExpression_raises (f : Flag) (place : Place)
    (node obj prop : Node) (loc : option Position) (computed : bool) :
  raises f (visitMemberExpression place node obj prop)
    (sets f place (MemberExpression loc obj prop computed)).
Proof.
  unfold visitMemberExpression. cbv zeta.
  destruct place; (eapply raises_eq; [raise_rules |]);
    destruct f; cbn [sets Flag_eqb is_left_of_assignment]; btauto.
Qed.

Lemma visitAssignmentExpression_raises (f : Flag) (place : Place)
    (node lhs rhs : Node) (loc : option Position) :
  raises f (visitAssignmentExpression node lhs)
    (sets f place (AssignmentExpression loc lhs rhs)).
Proof.
  unfold visitAssignmentExpression.
  destruct lhs as [| | l obj prop computed | | | |];
    try (eapply raises_eq; [raise_rules | destruct f; cbn; btauto]).
  destruct obj as [lo objectName | | lo obj' prop' computed' | | | |];
    (eapply raises_eq; [raise_rules |]);
    destruct f;
    cbn [sets Flag_eqb global_target prototype_target navigator_target
         onstorage_target];
    try btauto.
  (* the flag of [navigator], set under the test of the four globals *)
  destruct (String.eqb_spec objectName "navigator") as [-> | _];
    [reflexivity | btauto].
Qed.

Lemma visitCallExpression_raises (f : Flag) (place : Place)
    (node callee : Node) (arguments : list Node) (loc : option Position) :
  raises f (visitCallExpression node callee arguments)
    (sets f place (CallExpression loc callee arguments)).
Proof.
  unfold visitCallExpression. cbv zeta.
  cbn [sets]. unfold creates_script_or_iframe, listens_to_storage.
  destruct (string_literal (hd_error arguments)) as [first |];
    destruct callee as [| | l obj prop computed | | | |];
    (eapply raises_eq; [raise_rules |]);
    destruct f;
    cbn [Flag_eqb is_some calls_sendBeacon calls_fromCharCode negb];
    btauto.
Qed.

(** What the visitor of a node does to a flag. *)
Lemma visitors_raise (f : Flag) (place : Place) (node : Node) :
  raises f (visitors place node) (sets f place node).
Proof.
  destruct node as [loc name | loc value | loc obj prop computed
                   | loc callee arguments | loc lhs rhs
                   | loc source_loc source | loc children].
  - apply visitIdentifier_raises.
  - apply visitLiteral_raises.
  - apply visitMemberExpression_raises.
  - apply visitCallExpression_raises.
  - apply visitAssignmentExpression_raises.
  - apply visitImportDeclaration_raises.
  - apply raises_skip.
Qed.

(** The flags after a run of visitor calls. *)
Lemma run_flags (f : Flag) (calls : list (Place * Node)) :
  forall acc,
    flag f (signals (run visitors calls acc))
    = existsb (fun call => sets f (fst call) (snd call)) calls
      || flag f (signals acc).
Proof.
  induction calls as [| [place node] rest IH]; intros acc; simpl.
  - reflexivity.
  - rewrite IH. cbn [fst snd]. rewrite visitors_raise.
    destruct (sets f place node), (existsb _ rest); reflexivity.
Qed.

(** *** What a statement collects *)

Lemma appends_skip (k : Collection) : appends k skip [].
Proof. intros acc. symmetry. apply app_nil_r. Qed.

Lemma appends_seq (k : Collection) (a b : Step) (x y : list string) :
  appends k a x -> appends k b y -> appends k (a ;; b) (x ++ y).
Proof.
  intros Ha Hb acc. unfold seq. rewrite Hb, Ha. symmetry. apply app_assoc.
Qed.

Lemma appends_when (k : Collection) (cond : bool) (body : Step)
    (x : list string) :
  appends k body x -> appends k (when cond body) (if cond then x else []).
Proof.
  intros Hb. destruct cond; [exact Hb | apply appends_skip].
Qed.

Lemma appends_set (k : Collection) (g : Flag) : appends k (set g) [].
Proof. intros acc. destruct k; symmetry; apply app_nil_r. Qed.

Lemma appends_push (k : Collection) (v : Violation) : appends k (push v) [].
Proof. intros acc. destruct k; symmetry; apply app_nil_r. Qed.

Lemma appends_push_package (k : Collection) (source : string) :
  appends k (push_package source)
    (match k with Packages => [source] | _ => [] end).
Proof.
  intros acc. destruct k; try (symmetry; apply app_nil_r). reflexivity.
Qed.

Lemma appends_push_url (k : Collection) (url : string) :
  appends k (push_url url) (match k with Urls => [url] | _ => [] end).
Proof.
  intros acc. destruct k; try (symmetry; apply app_nil_r). reflexivity.
Qed.

Lemma appends_push_literal (k : Collection) (value : string) :
  appends k (push_literal value)
    (match k with Literals => [value] | _ => [] end).
Proof.
  intros acc. destruct k; try (symmetry; apply app_nil_r). reflexivity.
Qed.

Lemma appends_push_name (k : Collection) (name : string) :
  appends k (push_name name) (match k with Names => [name] | _ => [] end).
Proof.
  intros acc. destruct k; try (symmetry; apply app_nil_r). reflexivity.
Qed.

Lemma appends_eq (k : Collection) (step : Step) (l l' : list string) :
  appends k step l -> l = l' -> appends k step l'.
Proof. intros H <-. exact H. Qed.

Lemma if_same {A : Type} (cond : bool) (x : A) :
  (if cond then x else x) = x.
Proof. destruct cond; reflexivity. Qed.

Ltac append_rules :=
  repeat match goal with
         | |- appends _ skip _ => apply appends_skip
         | |- appends _ (seq _ _) _ => eapply appends_seq
         | |- appends _ (when _ _) _ => eapply appends_when
         | |- appends _ (set _) _ => apply appends_set
         | |- appends _ (push _) _ => apply appends_push
         | |- appends _ (push_package _) _ => apply appends_push_package
         | |- appends _ (push_url _) _ => apply appends_push_url
         | |- appends _ (push_literal _) _ => apply appends_push_literal
         | |- appends _ (push_name _) _ => apply appends_push_name
         end.

Ltac tidy_lists :=
  repeat first [ progress cbn [app option_list]
               | rewrite if_same
               | rewrite app_nil_r ].

(** What the visitor of a node adds to a collection. *)
Lemma visitors_append (k : Collection) (place : Place) (node : Node) :
  appends k (visitors place node) (gathers k node).
Proof.
  destruct node as [loc name | loc value | loc obj prop computed
                   | loc callee arguments | loc lhs rhs
                   | loc source_loc source | loc children];
    cbn [visitors].
  - unfold visitIdentifier.
    destruct place; (eapply appends_eq; [append_rules |]);
      destruct k; tidy_lists; reflexivity.
  - unfold visitLiteral.
    destruct value; (eapply appends_eq; [append_rules |]);
      destruct k; tidy_lists; reflexivity.
  - unfold visitMemberExpression. cbv zeta.
    destruct place; (eapply appends_eq; [append_rules |]);
      destruct k; tidy_lists; reflexivity.
  - unfold visitCallExpression. cbv zeta.
    destruct (string_literal (hd_error arguments)) as [first |] eqn:E;
      destruct callee as [| | l obj prop computed | | | |];
      (eapply appends_eq; [append_rules |]);
      destruct k; cbn [gathers]; rewrite ?E; tidy_lists; reflexivity.
  - unfold visitAssignmentExpression.
    destruct lhs as [| | l obj prop computed | | | |];
      try destruct obj;
      (eapply appends_eq; [append_rules |]);
      destruct k; tidy_lists; reflexivity.
  - unfold visitImportDeclaration.
    eapply appends_eq; [append_rules |].
    destruct k; tidy_lists; reflexivity.
  - destruct k; apply appends_skip.
Qed.

(** The collections after a run of visitor calls. *)
Lemma run_collects (k : Collection) (calls : list (Place * Node)) :
  forall acc,
    collected k (run visitors calls acc)
    = collected k acc ++ flat_map (fun call => gathers k (snd call)) calls.
Proof.
  induction calls as [| [place node] rest IH]; intros acc; simpl.
  - symmetry. apply app_nil_r.
  - rewrite IH, visitors_append. symmetry. apply app_assoc.
Qed.

(** *** After the walk *)

Section WithPlatform.

Context {platform : Platform}.

Lemma postPass_unfold (permissions : option CodePermissions)
    (acc : Accumulator) :
  postPass permissions acc
  = permissionCheck permissions
      (urlAnalysis (variableNameCheck (entropyCheck acc))).
Proof. reflexivity. Qed.

Lemma entropyCheck_signals (acc : Accumulator) :
  exists v,
    signals (entropyCheck acc)
    = let s := with_entropy
                 (Helpers.calculateAverageEntropy (stringLiterals acc))
                 (signals acc) in
      if high_entropy acc
      then report v (raise HasObfuscatedCode s) else s.
Proof.
  eexists. unfold entropyCheck, seq, when, high_entropy.
  cbn [on_signals signals with_entropy entropy].
  destruct (number_gt _ _); reflexivity.
Qed.

Lemma entropyCheck_collected (k : Collection) (acc : Accumulator) :
  collected k (entropyCheck acc) = collected k acc.
Proof.
  unfold entropyCheck, seq, when.
  cbn [on_signals signals with_entropy entropy].
  destruct (number_gt _ _); destruct k; reflexivity.
Qed.

Lemma variableNameCheck_signals (acc : Accumulator) :
  exists v,
    signals (variableNameCheck acc)
    = if has_suspicious_name acc
      then report v
             (raise SuspiciousVariableNames
                (raise HasObfuscatedCode (signals acc)))
      else signals acc.
Proof.
  eexists. unfold variableNameCheck, when, has_suspicious_name.
  destruct (0 <? _)%nat; reflexivity.
Qed.

Lemma variableNameCheck_collected (k : Collection) (acc : Accumulator) :
  collected k (variableNameCheck acc) = collected k acc.
Proof.
  unfold variableNameCheck, when.
  destruct (0 <? _)%nat; destruct k; reflexivity.
Qed.

Lemma urlAnalysis_collected (k : Collection) (acc : Accumulator) :
  collected k (urlAnalysis acc) = collected k acc.
Proof. destruct k; reflexivity. Qed.

Lemma permissionCheck_collected (k : Collection)
    (permissions : option CodePermissions) (acc : Accumulator) :
  collected k (permissionCheck permissions acc) = collected k acc.
Proof.
  unfold permissionCheck, when.
  destruct (hasNetworkAPI _); [| reflexivity].
  cbv zeta. destruct (_ || _); destruct k; reflexivity.
Qed.

Lemma postPass_collected (k : Collection)
    (permissions : option CodePermissions) (acc : Accumulator) :
  collected k (postPass permissions acc) = collected k acc.
Proof.
  rewrite postPass_unfold, permissionCheck_collected, urlAnalysis_collected,
    variableNameCheck_collected, entropyCheck_collected.
  reflexivity.
Qed.

(** The fields of the signals the post-pass computes, from the accumulator
    the walk leaves. *)
Lemma postPass_fields (permissions : option CodePermissions)
    (acc : Accumulator) :
  let sig := signals (postPass permissions acc) in
  (forall f, walk_only f = true -> flag f sig = flag f (signals acc))
  /\ entropy sig = Helpers.calculateAverageEntropy (stringLiterals acc)
  /\ referencedDomains sig = Helpers.extractDomains (urlStrings acc)
  /\ suspiciousVariableNames sig
     = has_suspicious_name acc || suspiciousVariableNames (signals acc)
  /\ hasObfuscatedCode sig
     = high_entropy acc || has_suspicious_name acc
       || hasObfuscatedCode (signals acc).
Proof.
  cbv zeta. rewrite postPass_unfold.
  rewrite PermissionFacts.permissionCheck_result.
  assert (U : signals (urlAnalysis (variableNameCheck (entropyCheck acc)))
              = with_domains (Helpers.extractDomains (urlStrings acc))
                  (signals (variableNameCheck (entropyCheck acc)))).
  { unfold urlAnalysis at 1. cbn [on_signals signals].
    change (urlStrings (variableNameCheck (entropyCheck acc)))
      with (collected Urls (variableNameCheck (entropyCheck acc))).
    rewrite variableNameCheck_collected, entropyCheck_collected.
    reflexivity. }
  rewrite U. clear U.
  destruct (variableNameCheck_signals (entropyCheck acc)) as [v2 ->].
  assert (N : has_suspicious_name (entropyCheck acc)
              = has_suspicious_name acc).
  { unfold has_suspicious_name.
    change (variableNames (entropyCheck acc))
      with (collected Names (entropyCheck acc)).
    rewrite entropyCheck_collected. reflexivity. }
  rewrite N. clear N.
  destruct (entropyCheck_signals acc) as [v1 ->]. cbv zeta.
  destruct (high_entropy acc), (has_suspicious_name acc),
    (triggers permissions _);
    repeat split; try reflexivity;
    try (intros f W; destruct f; try discriminate W; reflexivity);
    cbn; rewrite ?orb_true_r; reflexivity.
Qed.

Lemma walk_result (tree : Node) :
  Walk.ancestor visitors tree initial
  = run visitors (Walk.calls Elsewhere tree) initial.
Proof. unfold Walk.ancestor. apply c_runs_calls. Qed.

Lemma analysis_flag
    (tree : Node) (permissions : option CodePermissions) (f : Flag) :
  walk_only f = true ->
  flag f (analyzeTree tree permissions)
  = existsb (fun call => sets f (fst call) (snd call))
      (Walk.calls Elsewhere tree).
Proof.
  intros W. unfold analyzeTree.
  rewrite (proj1 (postPass_fields permissions _) f W).
  rewrite walk_result, run_flags.
  destruct f; try discriminate W; apply orb_false_r.
Qed.

(** Each of the eight flags that only the visitors set (all but
    [hasObfuscatedCode], [suspiciousVariableNames] and
    [hasNetworkWithoutPermission]) is true in the result exactly when the
    walk calls a visitor on a node that meets the condition of the flag. *)
Theorem flag_iff_trigger_met
    (tree : Node) (permissions : option CodePermissions) (f : Flag) :
  walk_only f = true ->
  flag f (analyzeTree tree permissions)
  = existsb (fun call => sets f (fst call) (snd call))
      (Walk.calls Elsewhere tree).
Proof. apply analysis_flag. Qed.

(** The lists of the result are what the walk collects, in the order of the
    visitor calls and with repetitions: the sources of the import
    declarations, and the host names of the literal first arguments of the
    calls of [fetch], [XMLHttpRequest] and [WebSocket]; the entropy is the
    average over the string literals met, import sources included. *)
Theorem lists_are_collected
    (tree : Node) (permissions : option CodePermissions) :
  let sig := analyzeTree tree permissions in
  let calls := Walk.calls Elsewhere tree in
  importedPackages sig
  = flat_map (fun call => gathers Packages (snd call)) calls
  /\ referencedDomains sig
     = Helpers.extractDomains
         (flat_map (fun call => gathers Urls (snd call)) calls)
  /\ entropy sig
     = Helpers.calculateAverageEntropy
         (flat_map (fun call => gathers Literals (snd call)) calls).
Proof.
  cbv zeta. unfold analyzeTree.
  destruct (postPass_fields permissions
              (Walk.ancestor visitors tree initial))
    as (_ & He & Hd & _).
  rewrite He, Hd.
  change (importedPackages
            (signals (postPass permissions
                        (Walk.ancestor visitors tree initial))))
    with (collected Packages
            (postPass permissions (Walk.ancestor visitors tree initial))).
  rewrite postPass_collected, walk_result.
  change (urlStrings (run visitors (Walk.calls Elsewhere tree) initial))
    with (collected Urls
            (run visitors (Walk.calls Elsewhere tree) initial)).
  change (stringLiterals (run visitors (Walk.calls Elsewhere tree) initial))
    with (collected Literals
            (run visitors (Walk.calls Elsewhere tree) initial)).
  rewrite !run_collects. repeat split; reflexivity.
Qed.

Lemma positive_filter_length {A : Type} (p : A -> bool) (l : list A) :
  (0 <? length (filter p l))%nat = existsb p l.
Proof.
  induction l as [| a l IH]; simpl; [reflexivity |].
  destruct (p a); simpl; [reflexivity | exact IH].
Qed.

Lemma walk_never_sets (f : Flag) (calls : list (Place * Node)) :
  f = SuspiciousVariableNames \/ f = HasNetworkWithoutPermission ->
  existsb (fun call => sets f (fst call) (snd call)) calls = false.
Proof.
  intros Hf. induction calls as [| [place node] rest IH]; simpl;
    [reflexivity |].
  rewrite IH, orb_false_r.
  destruct Hf as [-> | ->];
    destruct node as [| ? [] | | | | |]; reflexivity.
Qed.

(** [suspiciousVariableNames] is true exactly when an identifier met by the
    walk is suspicious, and [hasObfuscatedCode] exactly when the walk meets
    one of its triggers, the average entropy is above the threshold, or
    [suspiciousVariableNames] is true. *)
Theorem obfuscation_flags
    (tree : Node) (permissions : option CodePermissions) :
  let sig := analyzeTree tree permissions in
  let calls := Walk.calls Elsewhere tree in
  suspiciousVariableNames sig
  = existsb suspicious (flat_map (fun call => gathers Names (snd call)) calls)
  /\ hasObfuscatedCode sig
     = existsb (fun call => sets HasObfuscatedCode (fst call) (snd call))
         calls
       || number_gt (entropy sig) ENTROPY_THRESHOLD
       || suspiciousVariableNames sig.
Proof.
  cbv zeta. unfold analyzeTree.
  destruct (postPass_fields permissions
              (Walk.ancestor visitors tree initial))
    as (_ & He & _ & Hs & Ho).
  rewrite Hs, Ho, He. unfold has_suspicious_name, high_entropy.
  rewrite walk_result.
  change (suspiciousVariableNames
            (signals (run visitors (Walk.calls Elsewhere tree) initial)))
    with (flag SuspiciousVariableNames
            (signals (run visitors (Walk.calls Elsewhere tree) initial))).
  change (hasObfuscatedCode
            (signals (run visitors (Walk.calls Elsewhere tree) initial)))
    with (flag HasObfuscatedCode
            (signals (run visitors (Walk.calls Elsewhere tree) initial))).
  rewrite !run_flags, walk_never_sets by (left; reflexivity).
  change (variableNames (run visitors (Walk.calls Elsewhere tree) initial))
    with (collected Names
            (run visitors (Walk.calls Elsewhere tree) initial)).
  rewrite run_collects, positive_filter_length.
  cbn [collected initial variableNames app flag signals
       suspiciousVariableNames hasObfuscatedCode].
  split; btauto.
Qed.

Lemma no_critical_signal (s : SecuritySignals) :
  critical_signal s = false ->
  hasNetworkWithoutPermission s = false /\ hasObfuscatedCode s = false.
Proof.
  unfold critical_signal.
  destruct (hasEval s), (hasDynamicCodeExecution s),
    (hasNetworkWithoutPermission s), (hasGlobalVariableOverride s),
    (hasStorageAccess s), (hasNavigatorAccess s),
    (hasDangerousDOMManipulation s), (hasObfuscatedCode s);
    simpl; intros H; try discriminate H; split; reflexivity.
Qed.

(** For the signals of an analysis, the three first terms of the additive
    path are dead: a dynamic URL on a network call, an entropy above the
    threshold and a suspicious name each come with a flag that returns 100.
    The score is 100, or 20 for each unknown package plus 25 for each
    referenced domain, capped at 100. *)
Theorem analysis_score (tree : Node) (permissions : option CodePermissions) :
  let sig := analyzeTree tree permissions in
  calculateSecurityScore sig
  = if critical_signal sig then 100%Z
    else Z.min (Z.of_nat (length (unknownPackages sig)) * 20
                + Z.of_nat (length (referencedDomains sig)) * 25) 100.
Proof.
  cbv zeta. destruct (critical_signal (analyzeTree tree permissions)) eqn:C.
  { apply score_short_circuit, C. }
  rewrite (score_additive _ C). f_equal. f_equal.
  unfold Spec.score_without_domains.
  destruct (no_critical_signal _ C) as [Hnet Hobf].
  (* the dynamic URL *)
  assert (D : hasDynamicURLConstruction (analyzeTree tree permissions)
              && hasNetworkAPI (analyzeTree tree permissions) = false).
  { revert Hnet.
    rewrite PermissionFacts.analyzeTree_is_check,
      PermissionFacts.permissionCheck_result.
    destruct (triggers permissions (signals (before_check tree))) eqn:T.
    - discriminate.
    - intros _. unfold triggers in T.
      destruct (hasNetworkAPI _), (hasDynamicURLConstruction _);
        try reflexivity.
      rewrite orb_true_r in T. discriminate T. }
  (* the entropy and the names *)
  unfold analyzeTree in *.
  destruct (postPass_fields permissions
              (Walk.ancestor visitors tree initial))
    as (_ & He & _ & Hs & Ho).
  rewrite Hobf in Ho. symmetry in Ho.
  apply orb_false_iff in Ho. destruct Ho as [Ho Hw].
  apply orb_false_iff in Ho. destruct Ho as [Hhigh Hsus].
  assert (S : suspiciousVariableNames
                (signals (postPass permissions
                            (Walk.ancestor visitors tree initial)))
              = false).
  { rewrite Hs, Hsus, walk_result.
    change (suspiciousVariableNames
              (signals (run visitors (Walk.calls Elsewhere tree) initial)))
      with (flag SuspiciousVariableNames
              (signals (run visitors (Walk.calls Elsewhere tree) initial))).
    rewrite run_flags, walk_never_sets by (left; reflexivity).
    reflexivity. }
  rewrite D, S, He. fold (high_entropy (Walk.ancestor visitors tree initial)).
  rewrite Hhigh. reflexivity.
Qed.

End WithPlatform.

Lemma flag_iff_trigger_met_witness :
  flag HasNetworkAPI
    (analyzeTree (platform := table_platform) websocket_call None)
  = existsb (fun call => sets HasNetworkAPI (fst call) (snd call))
      (Walk.calls Elsewhere websocket_call).
Proof.
  apply (flag_iff_trigger_met (platform := table_platform)
           websocket_call None HasNetworkAPI).
  reflexivity.
Defined.

End DetectorExtras.

(** ** Further properties of the reported violations *)

Module ReportExtras.

Import Analyzer Scoring FileContexts Service Invariants Observations
  StepFacts WalkFacts StringFacts ScoringFacts BackingFacts DetectorFacts
  DetectorExtras Examples.
Local Open Scope step_scope.

(** *** Every report is critical *)

Lemma critical_set (f : Flag) : preserves (lift all_critical) (set f).
Proof. intros acc H. exact H. Qed.

Lemma critical_push (v : Violation) :
  severity v = critical -> preserves (lift all_critical) (push v).
Proof.
  intros Hv acc H. unfold lift, all_critical in *. simpl.
  apply Forall_app. split; [exact H | constructor; [exact Hv | constructor]].
Qed.

Lemma critical_push_package (source : string) :
  preserves (lift all_critical) (push_package source).
Proof. intros acc H. exact H. Qed.

Ltac critical_block :=
  idtac;
  match goal with
  | |- preserves _ (set _) => apply critical_set
  | |- preserves _ (push _) => apply critical_push; reflexivity
  | |- preserves _ (push_package _) => apply critical_push_package
  end.

Lemma visitors_critical (place : Place) (node : Node) :
  preserves (lift all_critical) (visitors place node).
Proof.
  destruct node; simpl;
    unfold visitCallExpression, visitAssignmentExpression,
      visitMemberExpression, visitImportDeclaration, visitIdentifier,
      visitLiteral;
    steps critical_block.
Qed.

Section WithPlatform.

Context {platform : Platform}.

Lemma postPass_critical (permissions : option CodePermissions) :
  preserves (lift all_critical) (postPass permissions).
Proof.
  unfold postPass.
  apply preserves_seq; [| apply preserves_seq; [| apply preserves_seq]].
  - apply preserves_seq; intros acc H.
    + exact H.
    + refine (preserves_when (lift all_critical) _ _ _ acc H).
      steps critical_block.
  - intros acc H.
    refine (preserves_when (lift all_critical) _ _ _ acc H).
    steps critical_block.
  - intros acc H. exact H.
  - intros acc H.
    refine (preserves_when (lift all_critical) _ _ _ acc H).
    apply preserves_when. steps critical_block.
Qed.

Lemma analyzeTree_critical (tree : Node)
    (permissions : option CodePermissions) :
  all_critical (analyzeTree tree permissions).
Proof.
  apply postPass_critical. unfold Walk.ancestor. apply walk_preserves.
  - intros place node st. apply visitors_critical.
  - constructor.
Qed.

End WithPlatform.

(** *** Validity, context by context *)

Lemma adjust_by_relaxes (rule : string) (originalSeverity : Severity)
    (context : FileContext) :
  adjustViolationSeverity rule originalSeverity context
  = if relaxes context then relaxed rule originalSeverity
    else originalSeverity.
Proof.
  unfold adjustViolationSeverity, relaxes, relaxed.
  destruct (isUserCode context); [reflexivity |].
  destruct (JsString.includes (filePath context) FN_IMPORT_MARKER);
    [reflexivity |].
  destruct (isSharedLibrary context || isBundledDependency context
            || String.eqb (filePath context) REMOTE_ENTRY); reflexivity.
Qed.

Lemma relaxed_critical_warning (rule : string) :
  relaxed rule critical = warning <-> In rule technicalViolations.
Proof.
  unfold relaxed. rewrite <- mem_In.
  destruct (JsString.mem rule technicalViolations).
  - split; reflexivity.
  - destruct (JsString.mem rule criticalViolations); split; discriminate.
Qed.

Lemma valid_respond {platform : Platform} (sig : SecuritySignals)
    (context : FileContext) :
  valid (respond sig context) = true
  <-> forall v, In v (detectedViolations sig) ->
                adjustViolationSeverity (rule v) (severity v) context
                = warning.
Proof.
  rewrite <- ServiceClaims.no_critical_iff_all_warning.
  unfold respond. cbn [valid]. rewrite ServiceClaims.classify_filters.
  cbn [critical_bucket app].
  destruct (filter is_critical _); simpl; split; intros H;
    try reflexivity; discriminate H.
Qed.

Section WithPlatform.

Context {platform : Platform}.

Lemma validated (request : ValidateCodeRequest)
    (response : ValidateCodeResponse) :
  validate request = Some response ->
  exists tree,
    parse (code request) = Some tree
    /\ response
       = respond (analyzeTree tree (permissions_of request))
           (context_of request).
Proof.
  unfold validate, analyzeCodeSecurity.
  destruct (parse (code request)) as [tree |]; [| discriminate].
  intros E. injection E as <-. exists tree. split; reflexivity.
Qed.

(** Every violation the detector reports is critical: a warning in a
    response always comes from the adjustment to the file context. *)
Theorem reports_are_critical
    (code : string) (permissions : option CodePermissions)
    (sig : SecuritySignals) :
  analyzeCodeSecurity code permissions = Some sig ->
  forall v, In v (detectedViolations sig) -> severity v = critical.
Proof.
  unfold analyzeCodeSecurity. destruct (parse code) as [tree |];
    [| discriminate].
  intros E. injection E as <-. intros v Hv.
  pose proof (analyzeTree_critical tree permissions) as A.
  unfold all_critical in A. rewrite Forall_forall in A. apply A, Hv.
Qed.

(** In a context the adjuster does not relax, a response is valid exactly
    when nothing at all is reported; in a relaxed context, exactly when every
    reported rule is one of the six technical rules. *)
Theorem validity_by_context
    (request : ValidateCodeRequest) (response : ValidateCodeResponse) :
  validate request = Some response ->
  exists sig,
    analyzeCodeSecurity (code request) (permissions_of request) = Some sig
    /\ (valid response = true
        <-> if relaxes (context_of request)
            then forall v, In v (detectedViolations sig) ->
                           In (rule v) technicalViolations
            else detectedViolations sig = []).
Proof.
  intros H. destruct (validated _ _ H) as [tree [Hparse ->]].
  exists (analyzeTree tree (permissions_of request)). split.
  { unfold analyzeCodeSecurity. rewrite Hparse. reflexivity. }
  rewrite valid_respond.
  pose proof (analyzeTree_critical tree (permissions_of request)) as A.
  unfold all_critical in A. rewrite Forall_forall in A.
  destruct (relaxes (context_of request)) eqn:R.
  - split; intros K v Hv; specialize (K v Hv);
      rewrite adjust_by_relaxes, R, (A v Hv) in *;
      apply relaxed_critical_warning; exact K.
  - split.
    + intros K.
      destruct (detectedViolations (analyzeTree tree (permissions_of request)))
        as [| v rest]; [reflexivity |].
      specialize (K v (or_introl eq_refl)).
      rewrite adjust_by_relaxes, R, (A v (or_introl eq_refl)) in K.
      discriminate K.
    + intros -> v [].
Qed.

Lemma relaxes_determined (path : string) :
  relaxes (determineFileContext path)
  = negb (isUserCode (determineFileContext path))
    && negb (JsString.includes (filePath (determineFileContext path))
               FN_IMPORT_MARKER).
Proof.
  unfold relaxes, determineFileContext.
  cbn [isUserCode isSharedLibrary isBundledDependency filePath].
  destruct (JsString.includes (lastSegment path) USER_CODE_MARKER
            && JsString.endsWith (lastSegment path) ".js");
    [reflexivity |].
  destruct (JsString.includes (lastSegment path) FN_IMPORT_MARKER);
    [reflexivity |].
  destruct (JsString.startsWith (lastSegment path) SHARED_MARKER
            || JsString.includes path SHARED_MARKER); [reflexivity |].
  destruct (String.eqb (lastSegment path) REMOTE_ENTRY); reflexivity.
Qed.

(** A request with no file context is classified from its source text, read
    as a path.  Unless the text after the last slash names user code or an
    infra-import file, the context is a relaxed one: the response is valid
    as soon as every reported rule is technical. *)
Theorem default_context_is_relaxed
    (request : ValidateCodeRequest) (response : ValidateCodeResponse) :
  fileContext request = None ->
  isUserCode (determineFileContext (code request)) = false ->
  JsString.includes (filePath (determineFileContext (code request)))
    FN_IMPORT_MARKER = false ->
  validate request = Some response ->
  exists sig,
    analyzeCodeSecurity (code request) (permissions_of request) = Some sig
    /\ (valid response = true
        <-> forall v, In v (detectedViolations sig) ->
                      In (rule v) technicalViolations).
Proof.
  intros Hnone Huser Hfn H.
  destruct (validated _ _ H) as [tree [Hparse ->]].
  exists (analyzeTree tree (permissions_of request)). split.
  { unfold analyzeCodeSecurity. rewrite Hparse. reflexivity. }
  rewrite valid_respond.
  pose proof (analyzeTree_critical tree (permissions_of request)) as A.
  unfold all_critical in A. rewrite Forall_forall in A.
  assert (R : relaxes (context_of request) = true).
  { unfold context_of. rewrite Hnone, relaxes_determined, Huser, Hfn.
    reflexivity. }
  split; intros K v Hv; specialize (K v Hv);
    rewrite adjust_by_relaxes, R, (A v Hv) in *;
    apply relaxed_critical_warning; exact K.
Qed.

Lemma label_keeps (cond : bool) (l x : string) (labels : list string) :
  In x labels -> In x (label cond l labels).
Proof.
  intros H. unfold label. destruct cond; [| exact H].
  apply in_or_app. left. exact H.
Qed.

(** A call whose callee name is [eval], an identifier or the property of a
    member expression, makes every validation of the source invalid, in
    whatever file context, with score 100 and [eval] among the detected
    APIs. *)
Theorem eval_call_is_always_invalid
    (request : ValidateCodeRequest) (response : ValidateCodeResponse)
    (tree : Node) (place : Place) (loc : option Position) (callee : Node)
    (arguments : list Node) :
  parse (code request) = Some tree ->
  In (place, CallExpression loc callee arguments)
     (Walk.calls Elsewhere tree) ->
  Helpers.getCalleeName callee = Some "eval" ->
  validate request = Some response ->
  valid response = false
  /\ securityScore response = 100%Z
  /\ getSecurityVerdict (securityScore response) = REJECT
  /\ In "eval" (detectedAPIs (analysis response)).
Proof.
  intros Hparse Hin Hname H.
  destruct (validated _ _ H) as [tree' [Hparse' ->]].
  rewrite Hparse in Hparse'. injection Hparse' as <-.
  set (sig := analyzeTree tree (permissions_of request)).
  assert (E : hasEval sig = true).
  { change (flag HasEval sig = true). unfold sig.
    rewrite analysis_flag by reflexivity.
    apply existsb_exists. eexists. split; [exact Hin |].
    cbn [fst snd sets]. rewrite Hname. reflexivity. }
  assert (S : calculateSecurityScore sig = 100%Z).
  { apply score_short_circuit. unfold critical_signal. rewrite E.
    reflexivity. }
  split; [| split; [exact S | split]].
  - destruct (valid (respond sig (context_of request))) eqn:V;
      [| reflexivity].
    exfalso. rewrite valid_respond in V.
    destruct (analyzeTree_backed tree (permissions_of request)
                HasEval _ eq_refl E) as [[] | [v [Hv [Hr | []]]]].
    pose proof (analyzeTree_critical tree (permissions_of request)) as A.
    unfold all_critical in A. rewrite Forall_forall in A.
    specialize (V v Hv). rewrite adjust_by_relaxes, (A v Hv), <- Hr in V.
    destruct (relaxes (context_of request)); discriminate V.
  - change (securityScore (respond sig (context_of request)))
      with (calculateSecurityScore sig).
    rewrite S. reflexivity.
  - unfold respond. cbn [analysis detectedAPIs].
    do 6 apply label_keeps. rewrite E. left. reflexivity.
Qed.

(** *** Nothing is reported without a cause *)

Lemma stable_has_cause : stable has_cause.
Proof.
  split; [| split; [| split; [| split]]].
  - intros g s [[f [Hb Hf]] | H]; [left | right; exact H].
    exists f. split; [exact Hb |]. rewrite flag_raise, Hf. apply orb_true_r.
  - intros v s [[f [Hb Hf]] | H]; [left | right; exact H].
    exists f. split; [exact Hb |]. rewrite flag_report. exact Hf.
  - intros pkg s [[f [Hb Hf]] | [p [Hp He]]]; [left | right].
    + exists f. split; [exact Hb |]. rewrite flag_add_package. exact Hf.
    + exists p. split; [| exact He]. simpl. apply in_or_app. left. exact Hp.
  - intros e s [[f [Hb Hf]] | H]; [left | right; exact H].
    exists f. split; [exact Hb |]. rewrite flag_with_entropy. exact Hf.
  - intros d s [[f [Hb Hf]] | H]; [left | right; exact H].
    exists f. split; [exact Hb |]. rewrite flag_with_domains. exact Hf.
Qed.

Lemma cause_block (f : Flag) (rest : Step) :
  backing_rules f <> None ->
  preserves (lift has_cause) rest ->
  preserves (lift reports_have_cause) (set f ;; rest).
Proof.
  intros Hb Hrest acc _. right. apply Hrest. left.
  exists f. split; [exact Hb |].
  change (flag f (raise f (signals acc)) = true).
  rewrite flag_raise. destruct f; reflexivity.
Qed.

Lemma cause_set (f : Flag) : preserves (lift reports_have_cause) (set f).
Proof.
  intros acc [H | H]; [left; exact H | right].
  apply (proj1 stable_has_cause), H.
Qed.

Lemma cause_visitImportDeclaration (node : Node) (source : string) :
  preserves (lift reports_have_cause) (visitImportDeclaration node source).
Proof.
  intros acc H. unfold visitImportDeclaration, seq. fold (is_external source).
  destruct (is_external source) eqn:E.
  - right. right. exists source. split; [| exact E].
    simpl. apply in_or_app. right. left. reflexivity.
  - destruct H as [H | H]; [left; exact H | right].
    apply (proj1 (proj2 (proj2 stable_has_cause))), H.
Qed.

Ltac cause_block_tac :=
  idtac;
  match goal with
  | |- preserves _ (seq (set _) _) =>
      apply cause_block;
      [ discriminate
      | pose proof stable_has_cause; steps stable_block ]
  | |- preserves _ (set _) => apply cause_set
  end.

Lemma cause_visitors (place : Place) (node : Node) :
  preserves (lift reports_have_cause) (visitors place node).
Proof.
  destruct node; cbn [visitors];
    try apply cause_visitImportDeclaration;
    unfold visitCallExpression, visitAssignmentExpression,
      visitMemberExpression, visitIdentifier, visitLiteral;
    steps cause_block_tac.
Qed.

Lemma cause_postPass (permissions : option CodePermissions) :
  preserves (lift reports_have_cause) (postPass permissions).
Proof.
  unfold postPass.
  apply preserves_seq; [| apply preserves_seq; [| apply preserves_seq]].
  - apply preserves_seq; intros acc H.
    + destruct H as [H | H]; [left; exact H | right].
      apply (proj1 (proj2 (proj2 (proj2 stable_has_cause)))), H.
    + refine (preserves_when (lift reports_have_cause) _ _ _ acc H).
      steps cause_block_tac.
  - intros acc H.
    refine (preserves_when (lift reports_have_cause) _ _ _ acc H).
    steps cause_block_tac.
  - intros acc H.
    destruct H as [H | H]; [left; exact H | right].
    apply (proj2 (proj2 (proj2 (proj2 stable_has_cause)))), H.
  - intros acc H.
    refine (preserves_when (lift reports_have_cause) _ _ _ acc H).
    apply preserves_when. steps cause_block_tac.
Qed.

(** *** An import from a URL is reported *)

Lemma external_set (f : Flag) :
  preserves (lift external_imports_reported) (set f).
Proof. intros acc H. exact H. Qed.

Lemma external_push (v : Violation) :
  preserves (lift external_imports_reported) (push v).
Proof.
  intros acc H E. apply (proj1 (proj2 (stable_has_rule _))). apply H, E.
Qed.

Lemma external_visitImportDeclaration (node : Node) (source : string) :
  preserves (lift external_imports_reported)
    (visitImportDeclaration node source).
Proof.
  intros acc H. unfold visitImportDeclaration, seq. fold (is_external source).
  destruct (is_external source) eqn:E; intros [pkg [Hp He]].
  - eexists. split;
      [simpl; apply in_or_app; right; left; reflexivity | left; reflexivity].
  - simpl in Hp. apply in_app_or in Hp. destruct Hp as [Hp | [<- | []]].
    + apply H. exists pkg. split; assumption.
    + congruence.
Qed.

Ltac external_block :=
  idtac;
  match goal with
  | |- preserves _ (set _) => apply external_set
  | |- preserves _ (push _) => apply external_push
  end.

Lemma external_visitors (place : Place) (node : Node) :
  preserves (lift external_imports_reported) (visitors place node).
Proof.
  destruct node; cbn [visitors];
    try apply external_visitImportDeclaration;
    unfold visitCallExpression, visitAssignmentExpression,
      visitMemberExpression, visitIdentifier, visitLiteral;
    steps external_block.
Qed.

Lemma external_postPass (permissions : option CodePermissions) :
  preserves (lift external_imports_reported) (postPass permissions).
Proof.
  unfold postPass.
  apply preserves_seq; [| apply preserves_seq; [| apply preserves_seq]].
  - apply preserves_seq; intros acc H.
    + exact H.
    + refine (preserves_when (lift external_imports_reported) _ _ _ acc H).
      steps external_block.
  - intros acc H.
    refine (preserves_when (lift external_imports_reported) _ _ _ acc H).
    steps external_block.
  - intros acc H. exact H.
  - intros acc H.
    refine (preserves_when (lift external_imports_reported) _ _ _ acc H).
    apply preserves_when. steps external_block.
Qed.

Lemma backed_flag_is_critical_signal (f : Flag) (s : SecuritySignals) :
  backing_rules f <> None ->
  flag f s = true -> critical_signal s = true.
Proof.
  intros Hb Hf. unfold critical_signal.
  destruct f; try (contradiction Hb; reflexivity); simpl in Hf; rewrite Hf;
    rewrite ?orb_true_r; reflexivity.
Qed.

Lemma no_reports_iff
    (tree : Node) (permissions : option CodePermissions) :
  let sig := analyzeTree tree permissions in
  detectedViolations sig = []
  <-> critical_signal sig = false
      /\ filter is_external (importedPackages sig) = [].
Proof.
  cbv zeta. set (sig := analyzeTree tree permissions).
  assert (C : reports_have_cause sig).
  { apply cause_postPass. unfold Walk.ancestor. apply walk_preserves.
    - intros place node st. apply cause_visitors.
    - left. reflexivity. }
  assert (X : external_imports_reported sig).
  { apply external_postPass. unfold Walk.ancestor. apply walk_preserves.
    - intros place node st. apply external_visitors.
    - intros [pkg [[] _]]. }
  pose proof (analyzeTree_backed tree permissions) as B. fold sig in B.
  split.
  - intros E. split.
    + destruct (critical_signal sig) eqn:K; [| reflexivity]. exfalso.
      assert (F : exists f rules,
                 backing_rules f = Some rules /\ flag f sig = true).
      { unfold critical_signal in K.
        repeat (apply orb_true_iff in K; destruct K as [K | K]);
          [ exists HasEval | exists HasDynamicCodeExecution
          | exists HasNetworkWithoutPermission
          | exists HasGlobalVariableOverride | exists HasStorageAccess
          | exists HasNavigatorAccess | exists HasDangerousDOMManipulation
          | exists HasObfuscatedCode ];
          eexists; (split; [reflexivity | exact K]). }
      destruct F as (f & rules & Hr & Hf).
      destruct (B f rules Hr Hf) as [[] | [v [Hv _]]].
      rewrite E in Hv. destruct Hv.
    + destruct (filter is_external (importedPackages sig)) as [| pkg rest]
        eqn:F; [reflexivity |]. exfalso.
      assert (P : In pkg (filter is_external (importedPackages sig))).
      { rewrite F. left. reflexivity. }
      apply filter_In in P.
      destruct (X (ex_intro _ pkg P)) as [v [Hv _]].
      rewrite E in Hv. destruct Hv.
  - intros [K F]. destruct C as [C | [[f [Hb Hf]] | [pkg [Hp He]]]].
    + exact C.
    + rewrite (backed_flag_is_critical_signal f sig Hb Hf) in K.
      discriminate K.
    + assert (P : In pkg (filter is_external (importedPackages sig))).
      { apply filter_In. split; assumption. }
      rewrite F in P. destruct P.
Qed.

(** The analysis reports nothing exactly when none of the eight
    short-circuit flags is raised and no package is imported from a URL. *)
Theorem reports_nothing_iff
    (tree : Node) (permissions : option CodePermissions) :
  let sig := analyzeTree tree permissions in
  detectedViolations sig = []
  <-> critical_signal sig = false
      /\ filter is_external (importedPackages sig) = [].
Proof. apply no_reports_iff. Qed.

(** In a context the adjuster does not relax, validity can be read off the
    response: it is valid exactly when the score did not short-circuit, that
    is no short-circuit flag is raised, and the analysis lists no external
    dependency. *)
Theorem strict_validity_read_off
    (request : ValidateCodeRequest) (response : ValidateCodeResponse) :
  validate request = Some response ->
  relaxes (context_of request) = false ->
  exists sig,
    analyzeCodeSecurity (code request) (permissions_of request) = Some sig
    /\ (valid response = true
        <-> critical_signal sig = false
            /\ externalDependencies (analysis response) = []).
Proof.
  intros H R. destruct (validated _ _ H) as [tree [Hparse ->]].
  exists (analyzeTree tree (permissions_of request)). split.
  { unfold analyzeCodeSecurity. rewrite Hparse. reflexivity. }
  change (externalDependencies
            (analysis (respond (analyzeTree tree (permissions_of request))
                         (context_of request))))
    with (filter is_external
            (importedPackages (analyzeTree tree (permissions_of request)))).
  rewrite <- (no_reports_iff tree (permissions_of request)).
  rewrite valid_respond.
  pose proof (analyzeTree_critical tree (permissions_of request)) as A.
  unfold all_critical in A. rewrite Forall_forall in A.
  split.
  - intros K.
    destruct (detectedViolations (analyzeTree tree (permissions_of request)))
      as [| v rest]; [reflexivity |].
    specialize (K v (or_introl eq_refl)).
    rewrite adjust_by_relaxes, R, (A v (or_introl eq_refl)) in K.
    discriminate K.
  - intros -> v [].
Qed.

(** *** The two buckets of a response *)

Lemma filter_partition_permutation {A : Type} (p : A -> bool) (l : list A) :
  Permutation (filter p l ++ filter (fun a => negb (p a)) l) l.
Proof.
  induction l as [| a l IH]; simpl; [constructor |].
  destruct (p a); simpl.
  - constructor. exact IH.
  - apply Permutation_sym, Permutation_cons_app, Permutation_sym, IH.
Qed.

(** The two buckets of a response hold the reported violations, each once
    and in the order of the report: the critical bucket those whose adjusted
    severity is [critical], the warnings the others.  The adjustment changes
    the severity only. *)
Theorem buckets_partition_the_reports
    (sig : SecuritySignals) (context : FileContext) :
  let response := respond sig context in
  let adjusted := map (adjust context) (detectedViolations sig) in
  critical_bucket (violations response) = filter is_critical adjusted
  /\ warnings (violations response)
     = filter (fun v => negb (is_critical v)) adjusted
  /\ Permutation
       (critical_bucket (violations response)
        ++ warnings (violations response)) adjusted
  /\ (length (critical_bucket (violations response))
      + length (warnings (violations response))
      = length (detectedViolations sig))%nat
  /\ map rule adjusted = map rule (detectedViolations sig)
  /\ map message adjusted = map message (detectedViolations sig)
  /\ map location adjusted = map location (detectedViolations sig).
Proof.
  cbv zeta. unfold respond. cbn [violations].
  rewrite ServiceClaims.classify_filters. cbn [critical_bucket warnings app].
  split; [reflexivity | split; [reflexivity | split; [| split]]].
  - apply filter_partition_permutation.
  - rewrite <- length_app,
      (Permutation_length (filter_partition_permutation _ _)).
    apply length_map.
  - rewrite !map_map. repeat split; reflexivity.
Qed.

End WithPlatform.

Lemma strict_validity_read_off_witness :
  exists sig,
    analyzeCodeSecurity (platform := table_platform) "atob(x)" None
    = Some sig
    /\ (valid (respond (platform := table_platform)
                 (analyzeTree (platform := table_platform) atob_call None)
                 user_code) = true
        <-> critical_signal sig = false
            /\ externalDependencies
                 (analysis
                    (respond (platform := table_platform)
                       (analyzeTree (platform := table_platform)
                          atob_call None) user_code)) = []).
Proof.
  apply (strict_validity_read_off (platform := table_platform)
           (request_for "atob(x)" (Some user_code))); reflexivity.
Defined.

Lemma eval_call_is_always_invalid_witness :
  valid (respond (platform := eval_platform)
           (analyzeTree (platform := eval_platform) eval_call None)
           shared_library) = false
  /\ securityScore
       (respond (platform := eval_platform)
          (analyzeTree (platform := eval_platform) eval_call None)
          shared_library) = 100%Z
  /\ getSecurityVerdict
       (securityScore
          (respond (platform := eval_platform)
             (analyzeTree (platform := eval_platform) eval_call None)
             shared_library)) = REJECT
  /\ In "eval"
       (detectedAPIs
          (analysis
             (respond (platform := eval_platform)
                (analyzeTree (platform := eval_platform) eval_call None)
                shared_library))).
Proof.
  apply (eval_call_is_always_invalid (platform := eval_platform)
           (request_for "eval(x)" (Some shared_library)) _ eval_call
           Elsewhere (at_column 0) (Identifier (at_column 0) "eval")
           [Identifier (at_column 5) "x"]).
  - reflexivity.
  - simpl. do 2 right. left. reflexivity.
  - reflexivity.
  - reflexivity.
Defined.

Lemma default_context_is_relaxed_witness :
  exists sig,
    analyzeCodeSecurity (platform := table_platform) "atob(x)" None
    = Some sig
    /\ (valid (respond (platform := table_platform)
                 (analyzeTree (platform := table_platform) atob_call None)
                 (determineFileContext "atob(x)")) = true
        <-> forall v, In v (detectedViolations sig) ->
                      In (rule v) technicalViolations).
Proof.
  apply (default_context_is_relaxed (platform := table_platform)
           (request_for "atob(x)" None)); reflexivity.
Defined.

Lemma reports_are_critical_witness :
  Forall (fun v => severity v = critical)
    (detectedViolations
       (analyzeTree (platform := table_platform) atob_call None)).
Proof.
  apply Forall_forall.
  apply (reports_are_critical (platform := table_platform) "atob(x)" None).
  reflexivity.
Defined.

Lemma validity_by_context_witness :
  exists sig,
    analyzeCodeSecurity (platform := table_platform) "atob(x)" None
    = Some sig
    /\ (valid (respond (platform := table_platform)
                 (analyzeTree (platform := table_platform) atob_call None)
                 user_code) = true
        <-> if relaxes user_code
            then forall v, In v (detectedViolations sig) ->
                           In (rule v) technicalViolations
            else detectedViolations sig = []).
Proof.
  apply (validity_by_context (platform := table_platform)
           (request_for "atob(x)" (Some user_code))).
  reflexivity.
Defined.

End ReportExtras.

(** ** Further properties of the permissions *)

Module PermissionExtras.

Import Analyzer Scoring Invariants Observations StepFacts StringFacts
  ScoringFacts PermissionFacts Examples.

Section WithPlatform.

Context {platform : Platform}.

Lemma unauthorized_antitone (allowed allowed' : list string)
    (domain : string) :
  incl allowed allowed' ->
  unauthorized allowed' domain = true -> unauthorized allowed domain = true.
Proof.
  intros Hincl. unfold unauthorized.
  destruct (JsString.mem domain ALLOWED_DOMAINS); [rewrite !andb_false_r;
    trivial |].
  rewrite !andb_true_r. intros H. apply negb_true_iff in H.
  apply negb_true_iff. apply mem_not_In. apply mem_not_In in H.
  intros K. apply H, Hincl, K.
Qed.

Lemma triggers_antitone (p p' : option CodePermissions)
    (s : SecuritySignals) :
  incl (allowed_by p) (allowed_by p') ->
  triggers p' s = true -> triggers p s = true.
Proof.
  intros Hincl. unfold triggers.
  destruct (hasNetworkAPI s); [| trivial]. cbn [andb].
  destruct (hasDynamicURLConstruction s); [rewrite !orb_true_r; trivial |].
  rewrite !orb_false_r, !existsb_exists.
  intros [d [Hd Hu]]. exists d. split; [exact Hd |].
  exact (unauthorized_antitone _ _ d Hincl Hu).
Qed.

(** The permissions decide [hasNetworkWithoutPermission] and its violation
    and nothing else; and granting more domains never adds a violation nor
    raises the score. *)
Theorem more_permissions_never_hurt
    (tree : Node) (p p' : option CodePermissions) :
  incl (allowed_by p) (allowed_by p') ->
  let s := analyzeTree tree p in
  let s' := analyzeTree tree p' in
  (forall f, f <> HasNetworkWithoutPermission -> flag f s' = flag f s)
  /\ entropy s' = entropy s
  /\ importedPackages s' = importedPackages s
  /\ referencedDomains s' = referencedDomains s
  /\ (hasNetworkWithoutPermission s' = true ->
      hasNetworkWithoutPermission s = true)
  /\ (length (detectedViolations s') <= length (detectedViolations s))%nat
  /\ (calculateSecurityScore s' <= calculateSecurityScore s)%Z.
Proof.
  intros Hincl. cbv zeta.
  rewrite !analyzeTree_is_check, !permissionCheck_result.
  pose proof (triggers_antitone p p' (signals (before_check tree)) Hincl)
    as T.
  destruct (before_check_unchecked tree) as [Hflag _].
  set (s0 := signals (before_check tree)) in *.
  destruct (triggers p' s0) eqn:E'.
  - rewrite (T eq_refl).
    split; [| split; [| split; [| split; [| split; [| split]]]]];
      try reflexivity; try (intros; reflexivity); apply Z.le_refl.
  - destruct (triggers p s0) eqn:E.
    + split; [| split; [| split; [| split; [| split; [| split]]]]].
      * intros f Hf. rewrite flag_report, flag_raise.
        destruct f; try reflexivity. contradiction Hf. reflexivity.
      * reflexivity.
      * reflexivity.
      * reflexivity.
      * intros K. reflexivity.
      * cbn [report raise detectedViolations]. rewrite length_app. lia.
      * rewrite (score_short_circuit (report _ _)); [apply score_bounds |].
        unfold critical_signal.
        cbn [report raise flag Flag_eqb hasEval hasDynamicCodeExecution
             hasNetworkWithoutPermission hasGlobalVariableOverride
             hasStorageAccess hasNavigatorAccess
             hasDangerousDOMManipulation hasObfuscatedCode orb].
        rewrite orb_true_r. reflexivity.
    + split; [| split; [| split; [| split; [| split; [| split]]]]];
        try reflexivity; try (intros; reflexivity); try trivial;
        apply Z.le_refl.
Qed.

(** A source that calls no network API is analysed alike under all
    permissions. *)
Theorem permissions_need_a_network_call
    (tree : Node) (p p' : option CodePermissions) :
  hasNetworkAPI (analyzeTree tree p) = false ->
  analyzeTree tree p' = analyzeTree tree p.
Proof.
  intros H.
  assert (N : hasNetworkAPI (signals (before_check tree)) = false).
  { revert H. rewrite analyzeTree_is_check, permissionCheck_result.
    destruct (triggers p (signals (before_check tree))); [| trivial].
    change (hasNetworkAPI (report network_violation
                             (raise HasNetworkWithoutPermission
                                (signals (before_check tree)))))
      with (flag HasNetworkAPI
              (report network_violation
                 (raise HasNetworkWithoutPermission
                    (signals (before_check tree))))).
    rewrite flag_report, flag_raise. trivial. }
  rewrite !analyzeTree_is_check, !permissionCheck_result.
  unfold triggers. rewrite N. reflexivity.
Qed.

End WithPlatform.

Lemma more_permissions_never_hurt_witness :
  (calculateSecurityScore
     (analyzeTree (platform := table_platform) fetch_cdn
        (Some {| network := Some {| allowedDomains := ["a.test"] |} |}))
   <= calculateSecurityScore
        (analyzeTree (platform := table_platform) fetch_cdn None))%Z.
Proof.
  apply (more_permissions_never_hurt (platform := table_platform)
           fetch_cdn None
           (Some {| network := Some {| allowedDomains := ["a.test"] |} |})).
  intros d [].
Defined.

Lemma permissions_need_a_network_call_witness :
  analyzeTree (platform := table_platform) atob_call
    (Some {| network := Some {| allowedDomains := ["a.test"] |} |})
  = analyzeTree (platform := table_platform) atob_call None.
Proof.
  apply (permissions_need_a_network_call (platform := table_platform)
           atob_call None).
  reflexivity.
Defined.

End PermissionExtras.
